(** * Verification of the session-orchestration core of telegram_openai_assistant

    Shallow embedding of
    - [assistant_handler.py]: [process_markdown], [AssistantHandler.stream_response],
      [AssistantHandler.stream_image_response], [AssistantHandler.trim_message_history];
    - [conversation_manager.py]: [ConversationManager.register_bots] (as the
      bot list of the state), [get_thread_lock], [set_thread_id], [get_thread_id],
      [prepare_text_for_html], [end_conversation], [is_active], [get_next_bot],
      [save_user_info], [get_user_name], [handle_turn];
    - [handlers.py]: [BotHandlers.process_message], [BotHandlers.end_conversation].

    Python strings are sequences of code points: a [text] is a [list N].
    The [re.sub] calls are modelled by a small backtracking matcher for the
    regular expressions the code uses (literals, greedy [+]/[*] over
    character classes, capture groups), which tries alternatives in the same
    order as Python's [re] engine. *)

From Stdlib Require Import ZArith QArith Qminmax Lia.
From Stdlib Require Strings.String Strings.Ascii.
From stdpp Require Import base gmap list strings.

Open Scope N_scope.

(** ** Text: code points, UTF-8 literals *)

Abbreviation text := (list N).

(** Decoding of the UTF-8 bytes of a Rocq string literal into code points,
    so that constants of the source (with emoji and accents) can be written
    as they appear there. *)
Fixpoint utf8_dec (bs : list N) : text :=
  match bs with
  | [] => []
  | b0 :: rest =>
      if b0 <? 128 then b0 :: utf8_dec rest
      else if b0 <? 224 then
        match rest with
        | b1 :: rest' => (N.land b0 31 * 64 + N.land b1 63) :: utf8_dec rest'
        | [] => [b0]
        end
      else if b0 <? 240 then
        match rest with
        | b1 :: b2 :: rest' =>
            (N.land b0 15 * 4096 + N.land b1 63 * 64 + N.land b2 63) :: utf8_dec rest'
        | _ => [b0]
        end
      else
        match rest with
        | b1 :: b2 :: b3 :: rest' =>
            (N.land b0 7 * 262144 + N.land b1 63 * 4096 + N.land b2 63 * 64
             + N.land b3 63) :: utf8_dec rest'
        | _ => [b0]
        end
  end.

Definition u (s : string) : text :=
  utf8_dec (map (fun a => N.of_nat (Strings.Ascii.nat_of_ascii a)) (Strings.String.list_ascii_of_string s)).

Arguments u : simpl never.

(** Python's [\s] on [str] patterns: [str.isspace]. *)
Definition is_space (c : N) : bool :=
  ((9 <=? c) && (c <=? 13)) || ((28 <=? c) && (c <=? 32)) || (c =? 133) || (c =? 160)
  || (c =? 5760) || ((8192 <=? c) && (c <=? 8202)) || (c =? 8232) || (c =? 8233)
  || (c =? 8239) || (c =? 8287) || (c =? 12288).

(** Python's [\d] on [str] patterns: Unicode decimal digits (category Nd),
    given by the first code point of each block of ten. *)
Definition nd_starts : list N :=
  [48; 1632; 1776; 1984; 2406; 2534; 2662; 2790; 2918; 3046; 3174; 3302; 3430;
   3558; 3664; 3792; 3872; 4160; 4240; 6112; 6160; 6470; 6608; 6784; 6800;
   6992; 7088; 7232; 7248; 42528; 43216; 43264; 43472; 43504; 43600; 44016;
   65296; 66720; 68912; 69734; 69872; 69942; 70096; 70384; 70736; 70864;
   71248; 71360; 71472; 71904; 72016; 72784; 73040; 73120; 73552; 92768;
   92864; 93008; 120782; 120792; 120802; 120812; 120822; 123200; 123632;
   124144; 125264; 130032].

Definition is_digit (c : N) : bool :=
  existsb (fun b => (b <=? c) && (c <? b + 10)) nd_starts.

Definition ch (s : string) : N :=
  match u s with c :: _ => c | [] => 0 end.

Definition not_in (cs : text) (c : N) : bool := negb (existsb (N.eqb c) cs).

(** ** A backtracking matcher for the patterns of the source *)

Inductive atom :=
| ALit (c : N)                  (* one literal character *)
| APlus (p : N -> bool)         (* [p+], greedy *)
| AStar (p : N -> bool)         (* [p*], greedy *)
| AOpen (g : nat)               (* start of capture group [g] *)
| AClose (g : nat).             (* end of capture group [g] *)

Abbreviation regex := (list atom).

(** Captures: the suffixes of the subject at each group start and end. *)
Abbreviation caps := (list (nat * text) * list (nat * text))%type.

Fixpoint span (p : N -> bool) (s : text) : nat :=
  match s with
  | c :: s' => if p c then S (span p s') else 0%nat
  | [] => 0%nat
  end.

(** Try [f n], [f (n-1)], ..., [f lo] and return the first success:
    the order in which a greedy quantifier gives characters back. *)
Fixpoint try_down {X} (f : nat -> option X) (lo n : nat) : option X :=
  match f n with
  | Some x => Some x
  | None =>
      match n with
      | O => None
      | S n' => if (n' <? lo)%nat then None else try_down f lo n'
      end
  end.

Fixpoint mt (r : regex) (s : text) (cs : caps) {struct r} : option (text * caps) :=
  match r with
  | [] => Some (s, cs)
  | ALit c :: r' =>
      match s with
      | c' :: s' => if N.eqb c c' then mt r' s' cs else None
      | [] => None
      end
  | APlus p :: r' =>
      let k := span p s in
      if (k =? 0)%nat then None else try_down (fun n => mt r' (drop n s) cs) 1 k
  | AStar p :: r' => try_down (fun n => mt r' (drop n s) cs) 0 (span p s)
  | AOpen g :: r' => mt r' s ((g, s) :: cs.1, cs.2)
  | AClose g :: r' => mt r' s (cs.1, (g, s) :: cs.2)
  end.

Fixpoint assoc {X} (g : nat) (l : list (nat * X)) : option X :=
  match l with
  | [] => None
  | (g', x) :: l' => if (g =? g')%nat then Some x else assoc g l'
  end.

Definition group (cs : caps) (g : nat) : text :=
  match assoc g cs.1, assoc g cs.2 with
  | Some so, Some sc => take (length so - length sc) so
  | _, _ => []
  end.

(** Replacement templates: literal text and back-references [\g]. *)
Inductive rpiece := RL (t : text) | RG (g : nat).

Definition expand (tpl : list rpiece) (cs : caps) : text :=
  flat_map (fun p => match p with RL t => t | RG g => group cs g end) tpl.

(** [re.sub(pattern, repl, s)]: scan left to right, replace each leftmost
    match and resume after it; none of the patterns used here matches the
    empty string. *)
Fixpoint sub_fuel (fuel : nat) (r : regex) (tpl : list rpiece) (s : text) : text :=
  match fuel with
  | O => s
  | S f =>
      match s with
      | [] => []
      | c :: s' =>
          match mt r s ([], []) with
          | Some (rest, cs) =>
              if (length rest <? length s)%nat
              then expand tpl cs ++ sub_fuel f r tpl rest
              else expand tpl cs ++ c :: sub_fuel f r tpl s'
          | None => c :: sub_fuel f r tpl s'
          end
      end
  end.

Definition re_sub (r : regex) (tpl : list rpiece) (s : text) : text :=
  sub_fuel (S (length s)) r tpl s.

(** [s.replace(old, new)]: non-overlapping, left to right. *)
Fixpoint replace_fuel (fuel : nat) (old new s : text) : text :=
  match fuel with
  | O => s
  | S f =>
      match s with
      | [] => []
      | c :: s' =>
          if bool_decide (old <> [] /\ take (length old) s = old)
          then new ++ replace_fuel f old new (drop (length old) s)
          else c :: replace_fuel f old new s'
      end
  end.

Definition str_replace (s old new : text) : text :=
  replace_fuel (S (length s)) old new s.

Definition lit (s : string) : regex := map ALit (u s).
Definition is_ch (s : string) (c : N) : bool := N.eqb c (ch s).

(** ** [process_markdown] (assistant_handler.py) *)

(** [r' +'] *)
Definition re_spaces : regex := [APlus (is_ch " ")].
(** [r'\s+:'] *)
Definition re_ws_colon : regex := [APlus is_space; ALit (ch ":")].
(** [r'(\d+)\.\s+\*\*\s+([^*]+)\s+\*\*\s*:'] *)
Definition re_num_bold_sp : regex :=
  [AOpen 1; APlus is_digit; AClose 1; ALit (ch "."); APlus is_space]
  ++ lit "**" ++ [APlus is_space; AOpen 2; APlus (not_in (u "*")); AClose 2;
                  APlus is_space] ++ lit "**" ++ [AStar is_space; ALit (ch ":")].
(** [r'###\s+([^#\n]+)'] *)
Definition re_heading_md : regex :=
  lit "###" ++ [APlus is_space; AOpen 1; APlus (not_in [ch "#"; 10]); AClose 1].
(** [r'(\d+)\.\s+([^:]+):'] *)
Definition re_num_item : regex :=
  [AOpen 1; APlus is_digit; AClose 1; ALit (ch "."); APlus is_space;
   AOpen 2; APlus (not_in (u ":")); AClose 2; ALit (ch ":")].
(** [r'\*\*([^*]+)\*\*'] *)
Definition re_bold : regex :=
  lit "**" ++ [AOpen 1; APlus (not_in (u "*")); AClose 1] ++ lit "**".

Definition process_markdown (text0 : text) : text :=
  let t := re_sub re_spaces [RL (u " ")] text0 in
  let t := re_sub re_ws_colon [RL (u ":")] t in
  let t := re_sub re_num_bold_sp [RG 1; RL (u ". *"); RG 2; RL (u "*:")] t in
  let t := re_sub re_heading_md [RL (u "*"); RG 1; RL (u "*")] t in
  let t := re_sub re_num_item [RG 1; RL (u ". *"); RG 2; RL (u "*:")] t in
  let t := re_sub re_bold [RL (u "*"); RG 1; RL (u "*")] t in
  str_replace (str_replace t (u "**") (u "*")) (u "* *") (u "*").

(** ** [ConversationManager.prepare_text_for_html] *)

(** [r'###\s+'] *)
Definition re_heading : regex := lit "###" ++ [APlus is_space].
(** [r'\*\*\s+([^*]+)\s+\*\*'] *)
Definition re_bold_sp : regex :=
  lit "**" ++ [APlus is_space; AOpen 1; APlus (not_in (u "*")); AClose 1;
               APlus is_space] ++ lit "**".
(** [r'•\s+'] *)
Definition re_bullet : regex := [ALit (ch "•"); APlus is_space].
(** [r'\n\s*-\s+'] *)
Definition re_dash : regex := [ALit 10; AStar is_space; ALit (ch "-"); APlus is_space].
(** [r'(\d+)\.\s+<b>([^<]+)</b>:'] *)
Definition re_num_b : regex :=
  [AOpen 1; APlus is_digit; AClose 1; ALit (ch "."); APlus is_space] ++ lit "<b>"
  ++ [AOpen 2; APlus (not_in (u "<")); AClose 2] ++ lit "</b>:".

Definition prepare_text_for_html (text0 : text) : text :=
  let t := re_sub re_heading [] text0 in
  let t := re_sub re_bold_sp [RL (u "<b>"); RG 1; RL (u "</b>")] t in
  let t := re_sub re_bold [RL (u "<b>"); RG 1; RL (u "</b>")] t in
  let t := re_sub re_ws_colon [RL (u ":")] t in
  let t := re_sub re_bullet [RL (u "• ")] t in
  let t := re_sub re_dash [RL (10 :: u "• ")] t in
  let t := re_sub re_num_b [RG 1; RL (u ". <b>"); RG 2; RL (u "</b>:")] t in
  let t := re_sub re_bullet [RL (u "• ")] t in
  let t := str_replace (str_replace t (u "&lt;b&gt;") (u "<b>")) (u "&lt;/b&gt;") (u "</b>") in
  str_replace (str_replace t (u "&lt;i&gt;") (u "<i>")) (u "&lt;/i&gt;") (u "</i>").

(** Shapes of the output of steps 3 and 5: no white space right before a
    colon, and a bullet followed by at most one plain space. *)
Definition head_is (c : N) (t : text) : bool :=
  match t with d :: _ => d =? c | [] => false end.

Fixpoint no_space_colon (t : text) : bool :=
  match t with
  | a :: t' => negb (is_space a && head_is 58 t') && no_space_colon t'
  | [] => true
  end.

Definition head_space (t : text) : bool :=
  match t with d :: _ => is_space d | [] => false end.

(** After a bullet, white space is one plain space followed by no other. *)
Definition single_gap (t : text) : bool :=
  match t with
  | b :: t' => if is_space b then (b =? 32) && negb (head_space t') else true
  | [] => true
  end.

Fixpoint bullet_ok (t : text) : bool :=
  match t with
  | a :: t' => (if a =? 8226 then single_gap t' else true) && bullet_ok t'
  | [] => true
  end.

(** Shapes of the output of steps 6 and 7.  [cut_prefix l t] removes the prefix
    [l] of [t]; [numb_fn] reads a numbered bold item
    [(\d+)\.(\s+)<b>([^<]+)</b>:] at the head of a text (number, gap,
    label and rest); [dash_at] tells a dash item [\n\s*-\s+] at the head of
    a text; [sfx_all P] states [P] at every non-empty suffix. *)

Fixpoint cut_prefix (l t : text) : option text :=
  match l with
  | [] => Some t
  | c :: l' => match t with d :: t' => if d =? c then cut_prefix l' t' else None | [] => None end
  end.

Definition numb_close (s2 : text) : option (text * text) :=
  let n := span (not_in [60]) s2 in
  if (n =? 0)%nat then None else
  match cut_prefix [60; 47; 98; 62; 58] (drop n s2) with
  | Some rest => Some (take n s2, rest)
  | None => None
  end.

Definition numb_rest (r : text) : option (text * text * text) :=
  match cut_prefix [46] r with
  | Some s1 =>
      let j := span is_space s1 in
      if (j =? 0)%nat then None else
      match cut_prefix [60; 98; 62] (drop j s1) with
      | Some s2 =>
          match numb_close s2 with Some (g, rest) => Some (take j s1, g, rest) | None => None end
      | None => None
      end
  | None => None
  end.

Definition numb_fn (s : text) : option (text * text * text * text) :=
  let k := span is_digit s in
  if (k =? 0)%nat then None else
  match numb_rest (drop k s) with
  | Some (w, g, rest) => Some (take k s, w, g, rest)
  | None => None
  end.

Definition dash_tail (s1 : text) : bool :=
  match drop (span is_space s1) s1 with
  | c :: s2 => (c =? 45) && negb (span is_space s2 =? 0)%nat
  | [] => false
  end.

Definition dash_at (s : text) : bool :=
  match s with c :: s1 => (c =? 10) && dash_tail s1 | [] => false end.

Fixpoint sfx_all (P : text -> Prop) (s : text) : Prop :=
  match s with [] => True | c :: t => P (c :: t) /\ sfx_all P t end.

Definition num_b_tpl : list rpiece := [RG 1; RL (u ". <b>"); RG 2; RL (u "</b>:")].
Definition dash_tpl : list rpiece := [RL (10 :: u "• ")].

Definition numb_ok (t : text) : Prop :=
  match numb_fn t with Some (_, w, _, _) => w = [32] | None => True end.

Definition dash_free (s : text) : Prop := sfx_all (fun t => dash_at t = false) s.


(** ** The environment of a turn

    Every call to the provider, to the file system and to the delivery
    callback [send_to_telegram] is answered by the next [reply] of the
    environment; [RExc] makes the call raise an [Exception] with that
    message, an exhausted environment raises too. [time.time()] reads a
    clock given as a function of the number of earlier readings. *)

Record message := mkMessage {
  m_role : text;
  m_run_id : text;
  m_content : list (text * text)     (* (content_item.type, content_item.text.value) *)
}.

Inductive reply :=
| ROk                                   (* returns; value unused *)
| RExc (msg : text)                     (* raises [Exception(msg)] *)
| RVal (v : text)                       (* an object with an id / a model name *)
| RRun (run_id status : text)           (* a run object *)
| RStream (deltas : list text) (raises : bool)
                                        (* text deltas, then maybe an exception *)
| RMsgs (data : list message).          (* [messages.list(...)] *)

Inductive event :=
| EProvider (call : text)               (* a call to the assistant provider *)
| EFile                                 (* [open(image_path, 'rb')] *)
| ESend (msg : text)                    (* an invocation of [send_to_telegram] *)
| ESleep (secs : Q).                    (* [await asyncio.sleep(secs)] *)

(** The fields of an [AssistantHandler] used by the turns. *)
Record handler := mkHandler {
  h_threads : gmap Z text;              (* self.threads *)
  h_history : list (text * text);       (* self.message_history: (role, content) *)
  h_in_progress : gmap text bool        (* self._in_progress_runs *)
}.

Record world := mkWorld {
  w_h : handler;
  w_trace : list event;                 (* most recent event first *)
  w_env : list reply;
  w_clock : nat -> Q;
  w_ticks : nat
}.

Inductive res (A : Type) := Ret (a : A) | Exn (e : text) | Div.
Arguments Ret {A} a. Arguments Exn {A} e. Arguments Div {A}.

(** A state and exception monad; [Div] stands for a loop that has not
    finished within the iterations the model runs. *)
Definition M (A : Type) : Type := world -> res A * world.

Global Instance M_ret : MRet M := fun A a w => (Ret a, w).
Global Instance M_bind : MBind M := fun A B (k : A -> M B) (m : M A) w =>
  match m w with
  | (Ret a, w') => k a w'
  | (Exn e, w') => (Exn e, w')
  | (Div, w') => (Div, w')
  end.

Definition raise {A} (e : text) : M A := fun w => (Exn e, w).
Definition diverge {A} : M A := fun w => (Div, w).

(** [try: m except Exception as e: h(e)] *)
Definition try_except {A} (m : M A) (h : text -> M A) : M A := fun w =>
  match m w with
  | (Exn e, w') => h e w'
  | r => r
  end.

(** [try: m finally: fin]: [fin] runs whenever [m] returns or raises; an
    exception of [fin] replaces the outcome of [m]. *)
Definition try_finally {A} (m : M A) (fin : M unit) : M A := fun w =>
  match m w with
  | (Div, w') => (Div, w')
  | (r, w') =>
      match fin w' with
      | (Ret _, w'') => (r, w'')
      | (Exn e, w'') => (Exn e, w'')
      | (Div, w'') => (Div, w'')
      end
  end.

Definition get_h : M handler := fun w => (Ret (w_h w), w).
Definition put_h (h : handler) : M unit := fun w =>
  (Ret tt, mkWorld h (w_trace w) (w_env w) (w_clock w) (w_ticks w)).
Definition emit (e : event) : M unit := fun w =>
  (Ret tt, mkWorld (w_h w) (e :: w_trace w) (w_env w) (w_clock w) (w_ticks w)).
Definition next_reply : M reply := fun w =>
  match w_env w with
  | r :: rs => (Ret r, mkWorld (w_h w) (w_trace w) rs (w_clock w) (w_ticks w))
  | [] => (Ret (RExc []), w)
  end.
(** [time.time()] *)
Definition now : M Q := fun w =>
  (Ret (w_clock w (w_ticks w)),
   mkWorld (w_h w) (w_trace w) (w_env w) (w_clock w) (S (w_ticks w))).

Definition call (e : event) : M reply :=
  emit e;; r ← next_reply;
  match r with RExc m => raise m | _ => mret r end.
Definition provider (name : string) : M reply := call (EProvider (u name)).
Definition open_image : M unit := call EFile;; mret ().
(** [await send_to_telegram(msg)] *)
Definition send (msg : text) : M unit := call (ESend msg);; mret ().
Definition sleep (q : Q) : M unit := emit (ESleep q).

Definition set_in_progress (t : text) (b : bool) : M unit :=
  h ← get_h; put_h (mkHandler (h_threads h) (h_history h) (<[t := b]> (h_in_progress h))).
Definition append_history (role content : text) : M unit :=
  h ← get_h; put_h (mkHandler (h_threads h) (h_history h ++ [(role, content)]) (h_in_progress h)).

(** Python truthiness of [Optional[str]] and of [dict.get(k, False)]. *)
Definition truthy_str (o : option text) : option text :=
  match o with Some ((_ :: _) as t) => Some t | _ => None end.
Definition flag_set (h : handler) (t : text) : bool :=
  match h_in_progress h !! t with Some true => true | _ => false end.

(** [str.strip()], ['\n\n' in s] with [s.split('\n\n', 1)] *)
Definition strip (s : text) : text :=
  rev (drop (span is_space (rev (drop (span is_space s) s)))
            (rev (drop (span is_space s) s))).

Fixpoint split_once (sep s : text) (fuel : nat) : option (text * text) :=
  match fuel with
  | O => None
  | S f =>
      if bool_decide (take (length sep) s = sep) then Some ([], drop (length sep) s)
      else match s with
           | [] => None
           | c :: s' => match split_once sep s' f with
                        | Some (a, b) => Some (c :: a, b)
                        | None => None
                        end
           end
  end.

Definition nn : text := [10; 10].

Definition busy_msg : text :=
  u "⏳ Estoy procesando una solicitud anterior. Por favor, espera un momento.".

(** *** [AssistantHandler.stream_response] *)

(** The body of [for partial_text in event_handler.text_deltas]: returns
    the final [(buffer, accumulated_text)]. *)
Fixpoint stream_deltas (ds : list text) (buffer acc : text) : M (text * text) :=
  match ds with
  | [] => mret (buffer, acc)
  | d :: ds' =>
      let buffer := buffer ++ d in
      match split_once nn buffer (S (length buffer)) with
      | Some (p0, p1) =>
          let acc := acc ++ p0 in
          let processed := strip acc in
          (match processed with
           | [] => mret ()
           | _ => send processed;; append_history (u "assistant") processed
           end);;
          stream_deltas ds' p1 []
      | None => stream_deltas ds' buffer acc
      end
  end.

Definition stream_response (group_id : Z) (message_str : text) : M unit :=
  h ← get_h;
  match truthy_str (h_threads h !! group_id) with
  | None => mret ()
  | Some thread_id =>
      if flag_set h thread_id then send busy_msg
      else
        try_finally
          (set_in_progress thread_id true;;
           sent ← try_except (A := bool)
                    (provider "messages.create";;
                     append_history (u "user") message_str;; mret true)
                    (fun _ => set_in_progress thread_id false;; mret false);
           if (sent : bool) then
             try_except
               (r ← provider "runs.create_and_stream";
                match r with
                | RStream ds raises =>
                    '(buffer, _) ← stream_deltas ds [] [];
                    if raises then raise [] else
                    match strip buffer with
                    | [] => mret ()
                    | processed => send processed;; append_history (u "assistant") processed
                    end
                | _ => raise []
                end)
               (fun _ => mret ())
           else mret ())
          (set_in_progress thread_id false)
  end.

(** *** [AssistantHandler.stream_image_response] *)

Definition analyzing_msg : text :=
  u "🔍 Estoy analizando la imagen. Esto puede tardar unos momentos...".
Definition image_fail_msg : text :=
  u "❌ No pude procesar la imagen. Por favor, intenta con otra imagen o consulta sin imagen.".
Definition upload_err_msg (e : text) : text := u "⚠️ No se pudo subir la imagen. Error: " ++ e.
Definition queued_msg : text :=
  u "🔄 Tu solicitud está en cola. Esto puede tardar un momento debido a alta demanda...".
Definition still_queued_msg : text :=
  u "⏳ Tu solicitud sigue en cola. A veces el procesamiento de imágenes puede tardar un poco más. Gracias por tu paciencia.".
Definition timeout_msg : text :=
  u "⚠️ El análisis está tomando más tiempo del esperado. Puedo continuar esperando o puedes cancelar e intentarlo nuevamente. ¿Quieres continuar esperando?".
Definition no_answer_msg (model_name : text) : text :=
  u "⚠️ El asistente no generó una respuesta para la imagen. Modelo usado: " ++ model_name.
Definition failed_msg (run_status model_name : text) : text :=
  u "❌ El análisis falló con estado: " ++ run_status ++ u ". Modelo usado: " ++ model_name.
Definition sorry_msg (e : text) : text :=
  u "Lo siento, ocurrió un error al analizar la imagen: " ++ e.
Definition image_history (message_str file_id : text) : text :=
  message_str ++ u " [IMAGEN adjuntada como archivo: " ++ file_id ++ u "]".

(** [run_status in ["completed", "failed", "cancelled", "expired"]] *)
Definition terminal (s : text) : bool :=
  bool_decide (s = u "completed" \/ s = u "failed" \/ s = u "cancelled" \/ s = u "expired").

(** The local variables of the polling loop. *)
Record poll := mkPoll {
  p_status : text;               (* run_status *)
  p_max_wait : Q;                (* max_wait_time *)
  p_qsent : bool;                (* queued_message_sent *)
  p_qstart : option Q            (* queued_time_start *)
}.

(** [base_wait = min(5, 1 + (elapsed_time / 20))] *)
Definition base_wait (elapsed : Q) : Q := (Qmin 5 (1 + elapsed / 20))%Q.

(** [if run_status == "queued":], its first part: the queued notice. *)
Definition queued_first (st : poll) : M poll :=
  if p_qsent st then mret st
  else send queued_msg;;
       q ← now; mret (mkPoll (p_status st) (p_max_wait st) true (Some q)).

(** Its second part: the notice after 30 seconds in the queue. *)
Definition queued_still (st : poll) : M poll :=
  match p_qstart st with
  | Some q0 =>
      if Qeq_bool q0 0%Q then mret st else
      t' ← now;
      if Qlt_le_dec 30%Q (t' - q0)%Q then
        send still_queued_msg;;
        mret (mkPoll (p_status st) (p_max_wait st) (p_qsent st) None)
      else mret st
  | None => mret st
  end.

Definition poll_queued (st : poll) : M poll :=
  if bool_decide (p_status st = u "queued") then st ← queued_first st; queued_still st
  else mret st.

(** [if elapsed_time > max_wait_time:] *)
Definition poll_timeout (elapsed : Q) (st : poll) : M poll :=
  if Qlt_le_dec (p_max_wait st) elapsed then
    send timeout_msg;;
    mret (mkPoll (p_status st) (p_max_wait st + 60)%Q (p_qsent st) (p_qstart st))
  else mret st.

(** [try: run = ...runs.retrieve(...); run_status = run.status
     except Exception: await asyncio.sleep(5)] *)
Definition poll_retrieve (st : poll) : M poll :=
  try_except
    (r ← provider "runs.retrieve";
     match r with
     | RRun _ s => mret (mkPoll s (p_max_wait st) (p_qsent st) (p_qstart st))
     | _ => raise []
     end)
    (fun _ => sleep 5%Q;; mret st).

(** One iteration of the [while] body. *)
Definition poll_iter (thread_id run_id : text) (start_time : Q) (st : poll) : M poll :=
  t ← now;
  let elapsed := (t - start_time)%Q in
  st ← poll_queued st;
  st ← poll_timeout elapsed st;
  sleep (base_wait elapsed);;
  poll_retrieve st.

(** [while run_status not in [...]]: at most [fuel] iterations are run;
    a loop still running after them is [Div]. *)
Fixpoint poll_loop (fuel : nat) (thread_id run_id : text) (start_time : Q) (st : poll)
  : M poll :=
  if terminal (p_status st) then mret st
  else match fuel with
       | O => diverge
       | S f => st' ← poll_iter thread_id run_id start_time st;
                poll_loop f thread_id run_id start_time st'
       end.

(** Texts of the assistant's messages of run [run_id]. *)
Definition assistant_texts (run_id : text) (data : list message) : list text :=
  flat_map (fun msg =>
    if bool_decide (m_role msg = u "assistant" /\ m_run_id msg = run_id)
    then flat_map (fun it => if bool_decide (it.1 = u "text") then [it.2] else [])
                  (m_content msg)
    else []) data.

Fixpoint send_all (ts : list text) : M unit :=
  match ts with
  | [] => mret ()
  | t :: ts' => send t;; append_history (u "assistant") t;; send_all ts'
  end.

Definition stream_image_response (fuel : nat) (group_id : Z) (message_str : text)
  : M unit :=
  h ← get_h;
  match truthy_str (h_threads h !! group_id) with
  | None => mret ()
  | Some thread_id =>
      if flag_set h thread_id then send busy_msg
      else
        try_finally
          (set_in_progress thread_id true;;
           send analyzing_msg;;
           model_name ← try_except (A := text)
             (r ← provider "assistants.retrieve";
              match r with RVal m => mret m | _ => mret (u "desconocido") end)
             (fun _ => mret (u "desconocido"));
           uploaded ← try_except (A := option text)
             (provider "messages.create";;
              open_image;;
              r ← provider "files.create";
              match r with
              | RVal file_id =>
                  try_except
                    (provider "messages.create";; mret (Some file_id))
                    (fun _ =>
                       try_except
                         (open_image;; provider "messages.create";; mret (Some file_id))
                         (fun _ => send image_fail_msg;;
                                   set_in_progress thread_id false;; mret None))
              | _ => raise []
              end)
             (fun e => send (upload_err_msg e);;
                       set_in_progress thread_id false;; mret None);
           match uploaded with
           | None => mret ()
           | Some file_id =>
               append_history (u "user") (image_history message_str file_id);;
               try_except
                 (r ← provider "runs.create";
                  match r with
                  | RRun run_id status0 =>
                      start_time ← now;
                      st ← poll_loop fuel thread_id run_id start_time
                                     (mkPoll status0 120%Q false None);
                      _ ← now;
                      if bool_decide (p_status st = u "completed") then
                        r' ← provider "messages.list";
                        match r' with
                        | RMsgs data =>
                            match assistant_texts run_id data with
                            | [] => send (no_answer_msg model_name)
                            | ts => send_all ts
                            end
                        | _ => raise []
                        end
                      else send (failed_msg (p_status st) model_name)
                  | _ => raise []
                  end)
                 (fun e => send (sorry_msg e))
           end)
          (set_in_progress thread_id false)
  end.

(** [AssistantHandler.trim_message_history] *)
Definition trim_message_history (h : handler) : handler :=
  if (20 <? length (h_history h))%nat
  then mkHandler (h_threads h) (drop (length (h_history h) - 20) (h_history h))
                 (h_in_progress h)
  else h.

(** ** [ConversationManager] *)

Module Manager.

(** Python dicts are objects: [register_bots] makes every handler's
    [threads] the very dict of the manager
    ([bot.assistant_handler.threads = self.threads]), so the dicts live in
    a heap and the manager and the bots hold references to them. *)
Abbreviation loc := positive.
Abbreviation dict := (gmap Z text).

Record manager := mkManager {
  cm_threads : loc;                          (* self.threads *)
  cm_bots : list (text * loc);               (* self.all_bots, in order: name and
                                                bot.assistant_handler.threads *)
  cm_user_data : gmap Z (gmap text text);    (* self.user_data *)
  cm_locks : gmap Z bool                     (* self._thread_locks: is the lock held *)
}.

Record mstate := mkMState {
  ms_cm : manager;
  ms_heap : gmap loc dict;
  ms_creates : nat;       (* calls to client.beta.threads.create() so far *)
  ms_provider : nat -> option text
    (* the result of the k-th threads.create(): the id of the new thread, or
       None when the call raises *)
}.

Definition MS (A : Type) : Type := mstate -> A * mstate.
Global Instance MS_ret : MRet MS := fun A a s => (a, s).
Global Instance MS_bind : MBind MS := fun A B (k : A -> MS B) (m : MS A) s =>
  let (a, s') := m s in k a s'.

Definition dict_at (s : mstate) (l : loc) : dict := default ∅ (ms_heap s !! l).

Definition get_state : MS mstate := fun s => (s, s).
Definition put_state (s : mstate) : MS unit := fun _ => ((), s).

Definition dict_update (l : loc) (f : dict -> dict) : MS unit := fun s =>
  ((), mkMState (ms_cm s) (<[l := f (dict_at s l)]> (ms_heap s)) (ms_creates s)
                (ms_provider s)).

Definition set_locks (f : gmap Z bool -> gmap Z bool) : MS unit := fun s =>
  let cm := ms_cm s in
  ((), mkMState (mkManager (cm_threads cm) (cm_bots cm) (cm_user_data cm) (f (cm_locks cm)))
                (ms_heap s) (ms_creates s) (ms_provider s)).

(** [next_bot.assistant_handler.client.beta.threads.create()] *)
Definition create_thread : MS (option text) := fun s =>
  (ms_provider s (ms_creates s),
   mkMState (ms_cm s) (ms_heap s) (S (ms_creates s)) (ms_provider s)).

(** [get_thread_id] *)
Definition get_thread_id (g : Z) : MS (option text) := fun s =>
  (dict_at s (cm_threads (ms_cm s)) !! g, s).

(** [get_thread_lock]: creates the group's lock, unlocked, on first use. *)
Definition get_thread_lock (g : Z) : MS unit :=
  s ← get_state;
  match cm_locks (ms_cm s) !! g with
  | Some _ => mret ()
  | None => set_locks (insert g false)
  end.

(** [for bot_name, bot in self.all_bots.items(): bot.assistant_handler.threads[g] = t] *)
Fixpoint sync_bots (bots : list (text * loc)) (g : Z) (t : text) : MS unit :=
  match bots with
  | [] => mret ()
  | (_, l) :: bs => dict_update l (insert g t);; sync_bots bs g t
  end.

(** The body of [set_thread_id] under [async with lock:]; it contains no
    [await], so it runs without interruption. *)
Definition set_thread_body (g : Z) (hint : option text) : MS (option text) :=
  existing ← get_thread_id g;
  match truthy_str existing with
  | Some e => mret (Some e)
  | None =>
      s ← get_state;
      let cm := ms_cm s in
      match truthy_str hint with
      | Some t =>
          dict_update (cm_threads cm) (insert g t);;
          sync_bots (cm_bots cm) g t;;
          mret (Some t)
      | None =>
          match cm_bots cm with
          | [] => mret None          (* next(iter({}.values())) raises StopIteration *)
          | _ :: _ =>
              r ← create_thread;
              match truthy_str r with
              | Some t =>
                  dict_update (cm_threads cm) (insert g t);;
                  sync_bots (cm_bots cm) g t;;
                  mret (Some t)
              | None => mret None
              end
          end
      end
  end.

Definition acquire (g : Z) : MS unit := set_locks (insert g true).
Definition release (g : Z) : MS unit := set_locks (insert g false).

(** [set_thread_id] run on its own (the lock is free when it is called). *)
Definition set_thread_id (g : Z) (hint : option text) : MS (option text) :=
  get_thread_lock g;; acquire g;; r ← set_thread_body g hint; release g;; mret r.

(** [end_conversation] *)
Fixpoint del_from_bots (bots : list (text * loc)) (g : Z) : MS unit :=
  match bots with
  | [] => mret ()
  | (_, l) :: bs =>
      s ← get_state;
      (if bool_decide (is_Some (dict_at s l !! g)) then dict_update l (delete g)
       else mret ());;
      del_from_bots bs g
  end.

Definition end_conversation (g : Z) : MS bool :=
  s ← get_state;
  let cm := ms_cm s in
  if bool_decide (is_Some (dict_at s (cm_threads cm) !! g)) then
    dict_update (cm_threads cm) (delete g);;
    del_from_bots (cm_bots cm) g;;
    mret true
  else mret false.

End Manager.

(** ** Concurrent calls of [set_thread_id] on one group

    Each call is a task of the event loop: it creates the group's lock
    ([get_thread_lock], no [await] inside), waits for the lock, and then
    runs the body and releases the lock without being interrupted. Any
    interleaving of the tasks' steps is allowed. *)

Module Concurrent.
Import Manager.

Inductive pc := PStart | PWait | PHeld | PDone (r : option text).

Record sys := mkSys { sy_st : mstate; sy_tasks : list pc }.

Definition run_body (g : Z) : MS (option text) :=
  r ← set_thread_body g None; release g;; mret r.

Inductive step (g : Z) : sys -> sys -> Prop :=
| step_lock i s ts :
    ts !! i = Some PStart ->
    step g (mkSys s ts) (mkSys (get_thread_lock g s).2 (<[i := PWait]> ts))
| step_acquire i s ts :
    ts !! i = Some PWait ->
    cm_locks (ms_cm s) !! g = Some false ->
    step g (mkSys s ts) (mkSys (acquire g s).2 (<[i := PHeld]> ts))
| step_body i s ts :
    ts !! i = Some PHeld ->
    step g (mkSys s ts) (mkSys (run_body g s).2 (<[i := PDone (run_body g s).1]> ts)).

(** [N] calls [set_thread_id(g)] with no hint, none started yet. *)
Definition init (s : mstate) (n : nat) : sys := mkSys s (replicate n PStart).

Definition all_done (ts : list pc) : Prop :=
  Forall (fun p => match p with PDone _ => True | _ => False end) ts.

Definition not_done (p : pc) : Prop := match p with PDone _ => False | _ => True end.

(** The fields that no step changes. *)
Definition frame (T : loc) (B : list (text * loc)) (pv : nat -> option text) (x : sys) : Prop :=
  cm_threads (ms_cm (sy_st x)) = T /\ cm_bots (ms_cm (sy_st x)) = B /\ ms_provider (sy_st x) = pv.

(** No thread for [g] yet, [c] creations so far, no call has returned. *)
Definition unresolved (g : Z) (c : nat) (x : sys) : Prop :=
  truthy_str (dict_at (sy_st x) (cm_threads (ms_cm (sy_st x))) !! g) = None /\
  ms_creates (sy_st x) = c /\ Forall not_done (sy_tasks x).

(** [g] has thread [h], [c] creations so far, every returned call gave [h]. *)
Definition resolved (g : Z) (h : text) (c : nat) (x : sys) : Prop :=
  truthy_str (dict_at (sy_st x) (cm_threads (ms_cm (sy_st x))) !! g) = Some h /\
  ms_creates (sy_st x) = c /\
  Forall (fun p => p = PDone (Some h) \/ not_done p) (sy_tasks x).

(** The event loop running task [i] one step, if it can move. *)
Definition step_fun (g : Z) (i : nat) (x : sys) : option sys :=
  let s := sy_st x in
  let ts := sy_tasks x in
  match ts !! i with
  | Some PStart => Some (mkSys (get_thread_lock g s).2 (<[i := PWait]> ts))
  | Some PWait =>
      match cm_locks (ms_cm s) !! g with
      | Some false => Some (mkSys (acquire g s).2 (<[i := PHeld]> ts))
      | _ => None
      end
  | Some PHeld => Some (mkSys (run_body g s).2 (<[i := PDone (run_body g s).1]> ts))
  | _ => None
  end.

(** Running the tasks in the order [sched]. *)
Fixpoint run_sched (g : Z) (sched : list nat) (x : sys) : option sys :=
  match sched with
  | [] => Some x
  | i :: sched' =>
      match step_fun g i x with
      | Some y => run_sched g sched' y
      | None => None
      end
  end.

Definition run_to (g : Z) (sched : list nat) (x : sys) : sys :=
  default x (run_sched g sched x).

(** A manager with one bot, whose handler shares the manager's dict, no
    thread for any group yet, and a provider whose [k]-th
    [threads.create()] gives [pv k]. *)
Definition one_bot_state (pv : nat -> option text) : mstate :=
  mkMState (mkManager 1%positive [(u "Regen", 1%positive)] ∅ ∅)
           {[1%positive := ∅]} 0 pv.

(** The first [threads.create()] raises, the second gives ["thread_2"]. *)
Definition flaky_provider (k : nat) : option text :=
  match k with O => None | _ => Some (u "thread_2") end.

Definition steady_provider (k : nat) : option text := Some (u "thread_1").

(** Two tasks, each running to its end before the other starts. *)
Definition sched_serial : list nat := [0; 0; 0; 1; 1; 1]%nat.

(** Two tasks that both start before either takes the lock. *)
Definition sched_mixed : list nat := [0; 1; 1; 1; 0; 0]%nat.

End Concurrent.

(** ** The other methods of [ConversationManager] *)

Module Ops.
Import Manager.

(** [save_user_info] *)
Definition save_user_info (g : Z) (name : text) : MS unit := fun s =>
  let cm := ms_cm s in
  let ud := cm_user_data cm in
  let d := match ud !! g with Some d => d | None => ∅ end in
  ((), mkMState (mkManager (cm_threads cm) (cm_bots cm) (<[g := <[u "name" := name]> d]> ud)
                           (cm_locks cm))
                (ms_heap s) (ms_creates s) (ms_provider s)).

(** [get_user_name] *)
Definition get_user_name (g : Z) : MS text := fun s =>
  (match cm_user_data (ms_cm s) !! g with
   | Some d => match d !! u "name" with Some n => n | None => [] end
   | None => []
   end, s).

(** [is_active]: [group_id in self.threads] *)
Definition is_active (g : Z) : MS bool := fun s =>
  (bool_decide (is_Some (dict_at s (cm_threads (ms_cm s)) !! g)), s).

(** [get_next_bot]: the first key of [all_bots], [None] when it is empty. *)
Definition get_next_bot : MS (option text) := fun s =>
  (match cm_bots (ms_cm s) with (nm, _) :: _ => Some nm | [] => None end, s).

(** [self.all_bots[name]], by the dict of the bot's handler. *)
Fixpoint bot_dict (name : text) (bots : list (text * loc)) : option loc :=
  match bots with
  | [] => None
  | (nm, l) :: bs => if bool_decide (nm = name) then Some l else bot_dict name bs
  end.

(** [re.search(pattern, s)]: the captures of the leftmost match. *)
Fixpoint search_fuel (fuel : nat) (r : regex) (s : text) : option caps :=
  match mt r s ([], []) with
  | Some (_, cs) => Some cs
  | None =>
      match fuel, s with
      | S f, _ :: s' => search_fuel f r s'
      | _, _ => None
      end
  end.

Definition re_search (r : regex) (s : text) : option caps := search_fuel (length s) r s.

Definition tag_open : string := "[INFORMACIÓN DEL USUARIO: Nombre=".

(** [r'\[INFORMACIÓN DEL USUARIO: Nombre=([^\]]+)\]'] *)
Definition re_user_name : regex :=
  lit tag_open ++ [AOpen 1; APlus (not_in (u "]")); AClose 1; ALit (ch "]")].

(** [r'\[INFORMACIÓN DEL USUARIO: Nombre=[^\]]+\]\s*\n*'] *)
Definition re_user_tag : regex :=
  lit tag_open ++ [APlus (not_in (u "]")); ALit (ch "]"); AStar is_space; AStar (N.eqb 10)].

(** [handle_turn] up to its call
    [next_bot.assistant_handler.stream_response(group_id, message, send_to_telegram)]
    (the turn itself is [stream_response]; the [try] around the call
    catches what it raises). The result is [None] when [handle_turn]
    returns before the call, and otherwise the arguments of the call: the
    dict of the bot's handler, the thread, the message, and the user name
    that [send_to_telegram] uses. [set_thread_id] runs on its own. *)
Definition handle_turn (g : Z) (message : text) : MS (option (loc * text * text * text)) :=
  message ← (match re_search re_user_name message with
             | Some cs => save_user_info g (group cs 1);; mret (re_sub re_user_tag [] message)
             | None => mret message
             end);
  hint ← get_thread_id g;
  r ← set_thread_id g hint;
  match truthy_str r with
  | None => mret None
  | Some thread_id =>
      nb ← get_next_bot;
      match truthy_str nb with          (* [if not next_bot_name: return] *)
      | None => mret None
      | Some name =>
          s ← get_state;
          match bot_dict name (cm_bots (ms_cm s)) with
          | None => mret None          (* not reached: [name] is a key of [all_bots] *)
          | Some l =>
              user_name ← get_user_name g;
              s ← get_state;
              (if bool_decide (dict_at s l !! g = Some thread_id) then mret ()
               else dict_update l (insert g thread_id));;
              mret (Some (l, thread_id, message, user_name))
          end
      end
  end.

End Ops.

(** ** [BotHandlers] (handlers.py)

    The handlers' effects: the calls of [context.bot.send_message], which
    succeed or raise as the environment says, and the calls of
    [handle_turn] with where each one went. The writes to
    [context.chat_data] are left out: nothing modelled here reads them. *)

Module Handlers.
Import Manager Ops.

Inductive action :=
| ASend (chat : Z) (t : text)                                  (* context.bot.send_message *)
| ATurn (g : Z) (m : text) (call : option (loc * text * text * text)).
                                                       (* await manager.handle_turn(g, m) *)

Record hstate := mkH {
  hs_ms : mstate;
  hs_log : list action;          (* most recent first *)
  hs_env : list bool;            (* outcomes of the next send_message calls: true = sent *)
  hs_chat : gmap Z text          (* context.chat_data['user_info']['name'], per chat *)
}.

Definition HM (A : Type) : Type := hstate -> res A * hstate.
Global Instance HM_ret : MRet HM := fun A a h => (Ret a, h).
Global Instance HM_bind : MBind HM := fun A B (k : A -> HM B) (m : HM A) h =>
  match m h with
  | (Ret a, h') => k a h'
  | (Exn e, h') => (Exn e, h')
  | (Div, h') => (Div, h')
  end.

Definition hraise {A} (e : text) : HM A := fun h => (Exn e, h).

Definition lift {A} (m : MS A) : HM A := fun h =>
  let (a, s') := m (hs_ms h) in (Ret a, mkH s' (hs_log h) (hs_env h) (hs_chat h)).

(** [await context.bot.send_message(chat_id=chat, text=t, ...)] *)
Definition tg_send (chat : Z) (t : text) : HM unit := fun h =>
  let h' := mkH (hs_ms h) (ASend chat t :: hs_log h) (tail (hs_env h)) (hs_chat h) in
  match hs_env h with
  | true :: _ => (Ret tt, h')
  | _ => (Exn (u "send_message"), h')
  end.

(** [await self.manager.handle_turn(g, m)]: it raises nothing. *)
Definition run_turn (g : Z) (m : text) : HM unit := fun h =>
  let (r, s') := handle_turn g m (hs_ms h) in
  (Ret tt, mkH s' (ATurn g m r :: hs_log h) (hs_env h) (hs_chat h)).

(** [if not context.chat_data.get('user_info'): context.chat_data['user_info'] = {}]
    then [context.chat_data['user_info']['name'] = user_name]; [chat_data]
    is the dict of the chat [g]. *)
Definition save_user_name (g : Z) (user_name : text) : HM unit := fun h =>
  (Ret tt, mkH (hs_ms h) (hs_log h) (hs_env h) (<[g := user_name]> (hs_chat h))).

(** [needle in hay] on strings *)
Definition str_in (needle hay : text) : bool :=
  existsb (fun k => bool_decide (take (length needle) (drop k hay) = needle))
          (seq 0 (S (length hay))).

(** A [MessageEntity]: its type, offset and length. *)
Record entity := mkEntity { e_type : text; e_offset : nat; e_length : nat }.

(** [entity.type == 'mention' and '@' + username in message_text[offset:offset + length]] *)
Definition names_bot (bot_username message_text : text) (e : entity) : bool :=
  bool_decide (e_type e = u "mention") &&
  str_in (u "@" ++ bot_username) (take (e_length e) (drop (e_offset e) message_text)).

(** [f"[INFORMACIÓN DEL USUARIO: Nombre={user_name}]\n\n"] *)
Definition user_context (user_name : text) : text := u tag_open ++ user_name ++ u "]" ++ nn.

Definition processing_msg (user_name : text) : text :=
  u "Estoy procesando tu solicitud " ++ user_name ++ u ", un momento por favor...".

(** [self.manager.active_conversation(group_id, self.bot_name)] calls a
    dict. *)
Definition dict_call_error : text := u "TypeError: 'dict' object is not callable".

(** The loop over [update.message.entities] in a group. *)
Fixpoint group_mentions (g : Z) (enhanced message_text bot_username : text)
    (es : list entity) : HM unit :=
  match es with
  | [] => mret ()
  | e :: es' =>
      (if names_bot bot_username message_text e then
         act ← lift (is_active g);
         if (act : bool) then run_turn g enhanced else hraise dict_call_error
       else mret ());;
      group_mentions g enhanced message_text bot_username es'
  end.

(** [process_message]; [active_conv] holds the keys of
    [manager.active_conversation], [bot_username] is [context.bot.username],
    [has_message] is [update.message is not None], [from_bot] is
    [update.message.from_user.is_bot]. *)
Definition process_message (active_conv : gset Z) (bot_username : text)
    (has_message from_bot : bool) (user_name chat_type : text) (g : Z)
    (message_text : text) (entities : list entity) : HM unit :=
  if negb has_message then mret () else
  if from_bot then mret () else
  save_user_name g user_name;;
  let enhanced := user_context user_name ++ message_text in
  if bool_decide (chat_type = u "private") then
    act ← lift (is_active g);
    (if negb act && bool_decide (g ∈ active_conv)
     then tg_send g (processing_msg user_name) else mret ());;
    run_turn g enhanced
  else group_mentions g enhanced message_text bot_username entities.

Definition ended_msg (bot_name user_name : text) : text :=
  u "Conversación finalizada por " ++ bot_name ++ u ". ¡Hasta pronto " ++ user_name ++ u "!".
Definition no_conversation_msg (user_name : text) : text :=
  u "No hay una conversación activa en este grupo para finalizar, " ++ user_name ++ u ".".

(** [BotHandlers.end_conversation], behind [Bot.end_conversation]. *)
Definition end_command (bot_name user_name : text) (g : Z) : HM unit :=
  b ← lift (end_conversation g);
  if (b : bool) then tg_send g (ended_msg bot_name user_name)
  else tg_send g (no_conversation_msg user_name).

End Handlers.

(** ** What a text turn delivers *)

(** What a text turn adds to the trace and to the history. *)
Definition delivered_ok (message_str : text) (w w' : world) : Prop :=
  exists evs hist,
    w_trace w' = evs ++ w_trace w /\
    h_history (w_h w') = h_history (w_h w) ++ hist /\
    (forall t, ESend t ∈ evs -> t <> [] /\ strip t = t) /\
    (forall r c, (r, c) ∈ hist ->
       (r = u "user" /\ c = message_str) \/ (r = u "assistant" /\ ESend c ∈ evs)).

Definition turn_ok {A} (message_str : text) (m : M A) : Prop :=
  forall w, delivered_ok message_str w (m w).2.

(** * Sample states *)

(** A run that stays [in_progress]: the clock reads [60 k] seconds at its
    [k]-th reading, the loop starts at reading 1 with [start_time = 0],
    and every notice is delivered. *)
Definition w_slow_run : world :=
  mkWorld (mkHandler {[ 1%Z := u "thread_1" ]} [] ∅) []
    (RRun (u "run_1") (u "in_progress") :: RRun (u "run_1") (u "in_progress")
       :: concat (replicate 8 [ROk; RRun (u "run_1") (u "in_progress")]))
    (fun k => (60 * inject_Z (Z.of_nat k))%Q) 1.

(** A run that completes at the first poll. *)
Definition w_quick_run : world :=
  mkWorld (mkHandler {[ 1%Z := u "thread_1" ]} [] ∅) []
    [RRun (u "run_1") (u "completed")] (fun _ => 0%Q) 1.

(** The loop variables right after [runs.create]. *)
Definition poll_start : poll := mkPoll (u "in_progress") 120%Q false None.

Definition is_send (msg : text) (e : event) : bool :=
  match e with ESend m => bool_decide (m = msg) | _ => false end.

(** The deliveries of the [queued] branch of a poll. *)
Definition queue_notice (e : event) : Prop :=
  e = ESend queued_msg \/ e = ESend still_queued_msg.

(** What the [queued] branch of a poll does: it keeps the status and
    [max_wait], it only delivers queue notices and consumes replies, and
    it raises only right after a delivery. *)
Definition poll_pre_ok (st : poll) (w : world) (o : res poll * world) : Prop :=
  match o with
  | (Ret st1, w1) =>
      p_status st1 = p_status st /\ p_max_wait st1 = p_max_wait st /\
      exists pre used, w_trace w1 = pre ++ w_trace w /\ Forall queue_notice pre /\
                       w_env w = used ++ w_env w1
  | (Exn _, w1) => exists m rest, w_trace w1 = ESend m :: rest
  | (Div, _) => False
  end.

(** A handler whose group 1 uses thread "thread_1", with an empty history. *)
Definition h_fresh : handler :=
  mkHandler {[ 1%Z := u "thread_1" ]} [] ∅.

(** The provider accepts the message and streams 21 paragraphs; every
    delivery succeeds. *)
Definition w_long_answer : world :=
  mkWorld h_fresh []
    (ROk :: RStream (replicate 21 (u "p" ++ nn)) false :: replicate 21 ROk)
    (fun _ => 0%Q) 0.

(** The same handler while a run on "thread_1" is in progress. *)
Definition w_busy : world :=
  mkWorld (mkHandler {[ 1%Z := u "thread_1" ]} [] {[ u "thread_1" := true ]}) []
    [ROk] (fun _ => 0%Q) 0.

(** A manager with one bot sharing its dict, where group 5 uses thread [t]. *)
Definition group5_state (t : text) : Manager.mstate :=
  Manager.mkMState (Manager.mkManager 1%positive [(u "Regen", 1%positive)] ∅ ∅)
    {[1%positive := {[5%Z := t]}]} 0 Concurrent.steady_provider.

(** A manager with no registered bot. *)
Definition no_bot_state : Manager.mstate :=
  Manager.mkMState (Manager.mkManager 1%positive [] ∅ ∅) {[1%positive := ∅]} 0
    Concurrent.steady_provider.

(** A group message that mentions the bot [regen_bot], with its entity. *)
Definition mention_text : text := u "hola @regen_bot".
Definition mention_entities : list Handlers.entity := [Handlers.mkEntity (u "mention") 5 10].

(** * Properties *)

(** ** Monad laws used below *)

Lemma bind_ret_l {A B} (a : A) (k : A -> M B) w : (mret a ≫= k) w = k a w.
Proof. reflexivity. Qed.

Lemma try_finally_clear {A} (m : M A) (t : text) w :
  (try_finally m (set_in_progress t false) w).1 <> Div ->
  h_in_progress (w_h (try_finally m (set_in_progress t false) w).2) !! t = Some false.
Proof.
  unfold try_finally. destruct (m w) as [[a|e|] w1]; simpl; try congruence;
    intros _; apply lookup_insert_eq.
Qed.

(** ** Claim C10: no recorded thread, no effect *)

(** C10. When the handler's [threads] map has no entry for the group,
    [stream_response] and [stream_image_response] return at once: the world
    (handler fields, events: no provider call and no delivery, environment)
    is unchanged. *)
Theorem no_thread_no_effect (w : world) (group_id : Z) (message_str : text) (fuel : nat) :
  h_threads (w_h w) !! group_id = None ->
  stream_response group_id message_str w = (Ret (), w) /\
  stream_image_response fuel group_id message_str w = (Ret (), w).
Proof.
  intros Hnone. unfold stream_response, stream_image_response.
  cbv beta iota delta [mbind M_bind get_h]. rewrite Hnone. split; reflexivity.
Qed.

Lemma no_thread_no_effect_witness :
  stream_response 2 (u "hola") w_long_answer = (Ret (), w_long_answer) /\
  stream_image_response 3 2 (u "hola") w_long_answer = (Ret (), w_long_answer).
Proof. apply (no_thread_no_effect w_long_answer 2 (u "hola") 3). vm_compute. reflexivity. Defined.


(** ** Claim C1: a busy thread *)

Lemma send_effect (msg : text) (w : world) :
  w_h (send msg w).2 = w_h w /\
  w_trace (send msg w).2 = ESend msg :: w_trace w /\
  ((send msg w).1 = Ret () \/ exists e, (send msg w).1 = Exn e).
Proof.
  unfold send, call, emit, next_reply. cbv beta iota delta [mbind M_bind].
  simpl. destruct (w_env w) as [|r rs]; simpl.
  - unfold raise. simpl. eauto.
  - destruct r; simpl; unfold raise; simpl; eauto.
Qed.

(** C1. If the group's thread [t] has its in-progress flag set, a text or
    an image turn on that group makes exactly one delivery, the busy
    notice, and nothing else: no provider call, and the handler's threads
    map, message history and in-progress flags are unchanged. *)
Theorem busy_turn_notice_only (w : world) (group_id : Z) (t message_str : text) (fuel : nat) :
  h_threads (w_h w) !! group_id = Some t -> t <> [] ->
  flag_set (w_h w) t = true ->
  (w_h (stream_response group_id message_str w).2 = w_h w /\
   w_trace (stream_response group_id message_str w).2 = ESend busy_msg :: w_trace w) /\
  (w_h (stream_image_response fuel group_id message_str w).2 = w_h w /\
   w_trace (stream_image_response fuel group_id message_str w).2 = ESend busy_msg :: w_trace w).
Proof.
  intros Ht Hne Hflag.
  assert (Htr : truthy_str (Some t) = Some t) by (destruct t; [congruence|reflexivity]).
  destruct (send_effect busy_msg w) as (H1 & H2 & _).
  unfold stream_response, stream_image_response.
  cbv beta iota delta [mbind M_bind get_h]. rewrite Ht, Htr, Hflag.
  auto.
Qed.

Lemma busy_turn_notice_only_witness :
  (w_h (stream_response 1 (u "hola") w_busy).2 = w_h w_busy /\
   w_trace (stream_response 1 (u "hola") w_busy).2 = ESend busy_msg :: w_trace w_busy) /\
  (w_h (stream_image_response 3 1 (u "hola") w_busy).2 = w_h w_busy /\
   w_trace (stream_image_response 3 1 (u "hola") w_busy).2 = ESend busy_msg :: w_trace w_busy).
Proof.
  apply (busy_turn_notice_only w_busy 1 (u "thread_1") (u "hola") 3).
  - vm_compute. reflexivity.
  - vm_compute. intros H. discriminate H.
  - vm_compute. reflexivity.
Defined.


(** ** Claim C3: the in-progress flag is cleared on every exit *)

(** C3. When a text or image turn passes the busy check on thread [t],
    the flag of [t] is [false] whenever the call returns, normally or by
    an exception, whatever the provider and the delivery callback do. *)
Theorem turn_clears_flag (w : world) (group_id : Z) (t message_str : text) (fuel : nat) :
  h_threads (w_h w) !! group_id = Some t -> t <> [] ->
  flag_set (w_h w) t = false ->
  ((stream_response group_id message_str w).1 <> Div ->
   h_in_progress (w_h (stream_response group_id message_str w).2) !! t = Some false) /\
  ((stream_image_response fuel group_id message_str w).1 <> Div ->
   h_in_progress (w_h (stream_image_response fuel group_id message_str w).2) !! t = Some false).
Proof.
  intros Ht Hne Hflag.
  assert (Htr : truthy_str (Some t) = Some t) by (destruct t; [congruence|reflexivity]).
  unfold stream_response, stream_image_response.
  cbv beta iota delta [mbind M_bind get_h]. rewrite Ht, Htr, Hflag.
  split; apply try_finally_clear.
Qed.

Lemma turn_clears_flag_witness :
  ((stream_response 1 (u "hola") w_long_answer).1 <> Div ->
   h_in_progress (w_h (stream_response 1 (u "hola") w_long_answer).2) !! u "thread_1"
     = Some false) /\
  ((stream_image_response 3 1 (u "hola") w_long_answer).1 <> Div ->
   h_in_progress (w_h (stream_image_response 3 1 (u "hola") w_long_answer).2) !! u "thread_1"
     = Some false).
Proof.
  apply (turn_clears_flag w_long_answer 1 (u "thread_1") (u "hola") 3).
  - vm_compute. reflexivity.
  - vm_compute. intros H. discriminate H.
  - vm_compute. reflexivity.
Defined.


(** ** Claim C4: the polling loop of an image turn *)

Lemma send_shape (msg : text) (w : world) :
  match send msg w with
  | (Ret _, w1) => w_trace w1 = ESend msg :: w_trace w /\ exists r, w_env w = r :: w_env w1
  | (Exn _, w1) => w_trace w1 = ESend msg :: w_trace w
  | (Div, _) => False
  end.
Proof.
  unfold send, call, emit, next_reply. cbv beta iota delta [mbind M_bind mret M_ret].
  simpl. destruct (w_env w) as [|r rs]; simpl; [unfold raise; simpl; reflexivity|].
  destruct r; simpl; unfold raise; simpl; eauto.
Qed.

Lemma pre_ok_ret (st : poll) (w : world) : poll_pre_ok st w (Ret st, w).
Proof. cbn. split_and!; [done|done|]. by exists [], []. Qed.

Lemma pre_ok_bind (m1 m2 : poll -> M poll) :
  (forall st w, poll_pre_ok st w (m1 st w)) -> (forall st w, poll_pre_ok st w (m2 st w)) ->
  forall st w, poll_pre_ok st w ((st1 ← m1 st; m2 st1) w).
Proof.
  intros H1 H2 st w. cbv beta iota delta [mbind M_bind].
  specialize (H1 st w). destruct (m1 st w) as [[st1|e|] w1]; [|exact H1|done].
  destruct H1 as (Hs1 & Hm1 & pre1 & u1 & T1 & F1 & E1).
  specialize (H2 st1 w1). destruct (m2 st1 w1) as [[st2|e|] w2]; [|exact H2|done].
  destruct H2 as (Hs2 & Hm2 & pre2 & u2 & T2 & F2 & E2).
  split_and!; [congruence|congruence|].
  exists (pre2 ++ pre1), (u1 ++ u2). split_and!.
  - by rewrite T2, T1, app_assoc.
  - by apply Forall_app_2.
  - by rewrite E1, E2, app_assoc.
Qed.

Lemma queued_first_ok (st : poll) (w : world) : poll_pre_ok st w (queued_first st w).
Proof.
  unfold queued_first. destruct (p_qsent st); [apply pre_ok_ret|].
  cbv beta iota delta [mbind M_bind].
  pose proof (send_shape queued_msg w) as S.
  destruct (send queued_msg w) as [[[]|e|] w1]; [|by eexists _, _|done].
  destruct S as [T [r E]]. cbn. split_and!; [done|done|].
  exists [ESend queued_msg], [r]. split_and!; [exact T| |exact E].
  constructor; [by left|constructor].
Qed.

Lemma queued_still_ok (st : poll) (w : world) : poll_pre_ok st w (queued_still st w).
Proof.
  unfold queued_still. destruct (p_qstart st) as [q0|]; [|apply pre_ok_ret].
  destruct (Qeq_bool q0 0); [apply pre_ok_ret|].
  cbv beta iota zeta delta [mbind M_bind now].
  set (w0 := mkWorld _ _ _ _ _).
  destruct (Qlt_le_dec 30 (w_clock w (w_ticks w) - q0)); [|cbn; split_and!; [done|done|];
    by exists [], []].
  pose proof (send_shape still_queued_msg w0) as S.
  destruct (send still_queued_msg w0) as [[[]|e|] w1]; [|by eexists _, _|done].
  destruct S as [T [r E]]. cbn. split_and!; [done|done|].
  exists [ESend still_queued_msg], [r]. split_and!; [exact T| |exact E].
  constructor; [by right|constructor].
Qed.

(** The [queued] branch of a poll; for another status it does nothing. *)
Lemma poll_queued_ok (st : poll) (w : world) :
  poll_pre_ok st w (poll_queued st w) /\
  (p_status st <> u "queued" -> poll_queued st w = (Ret st, w)).
Proof.
  unfold poll_queued. split.
  - case_bool_decide; [|apply pre_ok_ret].
    apply (pre_ok_bind queued_first queued_still queued_first_ok queued_still_ok).
  - intros Hq. by rewrite bool_decide_eq_false_2.
Qed.

(** The timeout check: past [max_wait], the notice and 60 more seconds. *)
Lemma poll_timeout_ok (elapsed : Q) (st : poll) (w : world) :
  match poll_timeout elapsed st w with
  | (Ret st2, w2) =>
      p_status st2 = p_status st /\
      p_max_wait st2 =
        (if Qlt_le_dec (p_max_wait st) elapsed then p_max_wait st + 60 else p_max_wait st)%Q /\
      w_trace w2 = (if Qlt_le_dec (p_max_wait st) elapsed then [ESend timeout_msg] else [])
                   ++ w_trace w /\
      exists used, w_env w = used ++ w_env w2
  | (Exn _, w2) => exists m rest, w_trace w2 = ESend m :: rest
  | (Div, _) => False
  end.
Proof.
  unfold poll_timeout. destruct (Qlt_le_dec (p_max_wait st) elapsed).
  - cbv beta iota delta [mbind M_bind].
    pose proof (send_shape timeout_msg w) as S.
    destruct (send timeout_msg w) as [[[]|e|] w1]; [|by eexists _, _|done].
    destruct S as [T [r E]]. cbn. split_and!; [done|done|exact T|by exists [r]].
  - cbn. split_and!; [done|done|done|by exists []].
Qed.

(** The status retrieval: it never raises; a failed retrieval costs 5
    more seconds of sleep and keeps the status. *)
Lemma poll_retrieve_ok (st : poll) (w : world) :
  match poll_retrieve st w with
  | (Ret st3, w3) =>
      p_max_wait st3 = p_max_wait st /\
      ((w_trace w3 = EProvider (u "runs.retrieve") :: w_trace w /\
        exists rid s, w_env w = RRun rid s :: w_env w3 /\ p_status st3 = s) \/
       (w_trace w3 = ESleep 5 :: EProvider (u "runs.retrieve") :: w_trace w /\
        p_status st3 = p_status st))
  | _ => False
  end.
Proof.
  unfold poll_retrieve, try_except, provider, call, emit, next_reply, sleep, raise.
  cbv beta iota delta [mbind M_bind mret M_ret]. cbn.
  destruct (w_env w) as [|r rs]; [cbn; split; [done|right; done]|].
  destruct r; cbn; split; try done; try (right; done).
  left. split; [done|]. eauto.
Qed.

Lemma poll_iter_eq (thread_id run_id : text) (start_time : Q) (st : poll) (w : world) :
  poll_iter thread_id run_id start_time st w =
  (st1 ← poll_queued st;
   st2 ← poll_timeout (w_clock w (w_ticks w) - start_time)%Q st1;
   sleep (base_wait (w_clock w (w_ticks w) - start_time)%Q);;
   poll_retrieve st2)
    (mkWorld (w_h w) (w_trace w) (w_env w) (w_clock w) (S (w_ticks w))).
Proof. reflexivity. Qed.

(** One poll that returns, whatever the status: the queue notices of a
    [queued] status (none for another status), the timeout notice with 60
    more seconds of [max_wait] exactly when [elapsed > max_wait], a sleep of
    [base_wait elapsed], and the [runs.retrieve] call, whose status becomes
    the new status; when that call fails, a sleep of 5 seconds and the
    same status. *)
Lemma poll_iter_spec (thread_id run_id : text) (start_time : Q) (st : poll) (w : world)
  (st' : poll) (w' : world) :
  poll_iter thread_id run_id start_time st w = (Ret st', w') ->
  let elapsed := (w_clock w (w_ticks w) - start_time)%Q in
  let notice := if Qlt_le_dec (p_max_wait st) elapsed then [ESend timeout_msg] else [] in
  p_max_wait st' =
    (if Qlt_le_dec (p_max_wait st) elapsed then p_max_wait st + 60 else p_max_wait st)%Q /\
  exists pre, Forall queue_notice pre /\ (p_status st <> u "queued" -> pre = []) /\
  ((w_trace w' = EProvider (u "runs.retrieve") :: ESleep (base_wait elapsed)
                   :: notice ++ pre ++ w_trace w /\
    exists used rid, w_env w = used ++ RRun rid (p_status st') :: w_env w') \/
   (w_trace w' = ESleep 5 :: EProvider (u "runs.retrieve") :: ESleep (base_wait elapsed)
                   :: notice ++ pre ++ w_trace w /\
    p_status st' = p_status st)).
Proof.
  rewrite poll_iter_eq. cbv zeta.
  set (elapsed := (w_clock w (w_ticks w) - start_time)%Q).
  set (w0 := mkWorld (w_h w) (w_trace w) (w_env w) (w_clock w) (S (w_ticks w))).
  destruct (poll_queued_ok st w0) as [Q1 Q2].
  cbv beta iota delta [mbind M_bind].
  destruct (poll_queued st w0) as [[st1|e|] w1] eqn:EQ; [|discriminate|discriminate].
  destruct Q1 as (Hs1 & Hm1 & pre & u1 & T1 & F1 & E1).
  assert (Hpre : p_status st <> u "queued" -> pre = []).
  { intros Hq. pose proof (Q2 Hq) as Q3. injection Q3 as _ Hw. rewrite Hw in T1.
    apply (f_equal length) in T1. rewrite length_app in T1. destruct pre; [done|simpl in T1; lia]. }
  pose proof (poll_timeout_ok elapsed st1 w1) as TO.
  destruct (poll_timeout elapsed st1 w1) as [[st2|e|] w2]; [|discriminate|discriminate].
  destruct TO as (Hs2 & Hm2 & T2 & u2 & E2).
  unfold sleep, emit. cbv beta iota.
  set (w3 := mkWorld _ (ESleep (base_wait elapsed) :: w_trace w2) _ _ _).
  pose proof (poll_retrieve_ok st2 w3) as R.
  destruct (poll_retrieve st2 w3) as [[st4|e|] w4]; [|done|done].
  intros [= <- <-]. destruct R as [Hm4 R].
  rewrite Hm1 in Hm2. rewrite Hm4, Hm2.
  split; [reflexivity|]. exists pre. split_and!; [exact F1|exact Hpre|].
  destruct R as [[T4 (rid & s & E4 & Hs4)]|[T4 Hs4]].
  - left. split.
    + rewrite T4. cbn [w3 w_trace]. rewrite T2, T1. by rewrite Hm1.
    + exists (u1 ++ u2), rid. change (w_env w) with (w_env w0). rewrite Hs4, E1, E2.
      cbn [w3 w_env] in E4. rewrite E4, app_assoc. reflexivity.
  - right. split.
    + rewrite T4. cbn [w3 w_trace]. rewrite T2, T1. by rewrite Hm1.
    + congruence.
Qed.

(** A poll raises only when a delivery fails: the last event is then a
    call of [send_to_telegram]. *)
Lemma poll_iter_exn (thread_id run_id : text) (start_time : Q) (st : poll) (w : world)
  (e : text) (w' : world) :
  poll_iter thread_id run_id start_time st w = (Exn e, w') ->
  exists m rest, w_trace w' = ESend m :: rest.
Proof.
  rewrite poll_iter_eq. cbv zeta.
  set (w0 := mkWorld (w_h w) (w_trace w) (w_env w) (w_clock w) (S (w_ticks w))).
  destruct (poll_queued_ok st w0) as [Q1 _].
  cbv beta iota delta [mbind M_bind].
  destruct (poll_queued st w0) as [[st1|e1|] w1]; [|intros [= _ <-]; exact Q1|done].
  pose proof (poll_timeout_ok (w_clock w (w_ticks w) - start_time)%Q st1 w1) as TO.
  destruct (poll_timeout _ st1 w1) as [[st2|e2|] w2]; [|intros [= _ <-]; exact TO|done].
  unfold sleep, emit. cbv beta iota.
  set (w3 := mkWorld _ _ _ _ _).
  pose proof (poll_retrieve_ok st2 w3) as R.
  destruct (poll_retrieve st2 w3) as [[st4|e4|] w4]; done.
Qed.

Lemma poll_iter_div (thread_id run_id : text) (start_time : Q) (st : poll) (w w' : world) :
  poll_iter thread_id run_id start_time st w <> (Div, w').
Proof.
  rewrite poll_iter_eq. cbv zeta.
  set (w0 := mkWorld (w_h w) (w_trace w) (w_env w) (w_clock w) (S (w_ticks w))).
  destruct (poll_queued_ok st w0) as [Q1 _].
  cbv beta iota delta [mbind M_bind].
  destruct (poll_queued st w0) as [[st1|e1|] w1]; [|done|done].
  pose proof (poll_timeout_ok (w_clock w (w_ticks w) - start_time)%Q st1 w1) as TO.
  destruct (poll_timeout _ st1 w1) as [[st2|e2|] w2]; [|done|done].
  unfold sleep, emit. cbv beta iota.
  set (w3 := mkWorld _ _ _ _ _).
  pose proof (poll_retrieve_ok st2 w3) as R.
  destruct (poll_retrieve st2 w3) as [[st4|e4|] w4]; done.
Qed.

Lemma poll_loop_ret (thread_id run_id : text) (start_time : Q) (fuel : nat) :
  forall st w st' w', poll_loop fuel thread_id run_id start_time st w = (Ret st', w') ->
  terminal (p_status st') = true.
Proof.
  induction fuel as [|f IH]; intros st w st' w'; simpl.
  - destruct (terminal (p_status st)) eqn:E.
    + intros [= <- _]. exact E.
    + unfold diverge. discriminate.
  - destruct (terminal (p_status st)) eqn:E.
    + intros [= <- _]. exact E.
    + cbv beta iota delta [mbind M_bind].
      destruct (poll_iter thread_id run_id start_time st w) as [[a|e|] w1]; try discriminate.
      apply IH.
Qed.

Lemma poll_loop_exn (thread_id run_id : text) (start_time : Q) (fuel : nat) :
  forall st w e w', poll_loop fuel thread_id run_id start_time st w = (Exn e, w') ->
  exists m rest, w_trace w' = ESend m :: rest.
Proof.
  induction fuel as [|f IH]; intros st w e w'; simpl.
  - destruct (terminal (p_status st)); [discriminate|]. unfold diverge. discriminate.
  - destruct (terminal (p_status st)); [discriminate|].
    cbv beta iota delta [mbind M_bind].
    destruct (poll_iter thread_id run_id start_time st w) as [[a|e1|] w1] eqn:P.
    + apply IH.
    + intros [= _ <-]. exact (poll_iter_exn _ _ _ _ _ _ _ P).
    + discriminate.
Qed.

(** C4. The polling loop ends only on a terminal status (completed,
    failed, cancelled or expired), or when a delivery of
    [send_to_telegram] raises; the time budget [max_wait] never ends it,
    since a poll past the budget sends the notice and extends the budget by
    60 seconds instead of aborting. A terminal status ends the loop at
    once; a non-terminal one runs one more poll. A poll that returns, for
    any status: the queue notices when [queued] (none otherwise), the
    timeout notice with [max_wait + 60] exactly when [elapsed > max_wait]
    (initially 120), a sleep of [min(5, 1 + elapsed/20)] seconds, and the
    [runs.retrieve] call, whose status becomes the loop's status, or, when
    that call fails, 5 more seconds of sleep and the same status. A poll
    raises only on a failed delivery and always finishes. *)
Theorem poll_loop_spec (thread_id run_id : text) (start_time : Q) :
  (forall fuel st w st' w',
     poll_loop fuel thread_id run_id start_time st w = (Ret st', w') ->
     terminal (p_status st') = true) /\
  (forall fuel st w e w',
     poll_loop fuel thread_id run_id start_time st w = (Exn e, w') ->
     exists m rest, w_trace w' = ESend m :: rest) /\
  (forall fuel st w, terminal (p_status st) = true ->
     poll_loop fuel thread_id run_id start_time st w = (Ret st, w)) /\
  (forall fuel st w, terminal (p_status st) = false ->
     poll_loop (S fuel) thread_id run_id start_time st w =
     (st' ← poll_iter thread_id run_id start_time st;
      poll_loop fuel thread_id run_id start_time st') w) /\
  (forall st w st' w',
     poll_iter thread_id run_id start_time st w = (Ret st', w') ->
     let elapsed := (w_clock w (w_ticks w) - start_time)%Q in
     let notice := if Qlt_le_dec (p_max_wait st) elapsed then [ESend timeout_msg] else [] in
     p_max_wait st' =
       (if Qlt_le_dec (p_max_wait st) elapsed then p_max_wait st + 60 else p_max_wait st)%Q /\
     exists pre, Forall queue_notice pre /\ (p_status st <> u "queued" -> pre = []) /\
     ((w_trace w' = EProvider (u "runs.retrieve") :: ESleep (base_wait elapsed)
                      :: notice ++ pre ++ w_trace w /\
       exists used rid, w_env w = used ++ RRun rid (p_status st') :: w_env w') \/
      (w_trace w' = ESleep 5 :: EProvider (u "runs.retrieve") :: ESleep (base_wait elapsed)
                      :: notice ++ pre ++ w_trace w /\
       p_status st' = p_status st))) /\
  (forall st w e w',
     poll_iter thread_id run_id start_time st w = (Exn e, w') ->
     exists m rest, w_trace w' = ESend m :: rest) /\
  (forall st w w', poll_iter thread_id run_id start_time st w <> (Div, w')).
Proof.
  split_and!.
  - intros fuel. apply poll_loop_ret.
  - intros fuel. apply poll_loop_exn.
  - intros fuel st w Ht. destruct fuel; simpl; rewrite Ht; reflexivity.
  - intros fuel st w Ht. simpl. rewrite Ht. reflexivity.
  - intros st w st' w'. apply poll_iter_spec.
  - intros st w e w'. apply poll_iter_exn.
  - intros st w w'. apply poll_iter_div.
Qed.

Lemma poll_loop_spec_witness :
  terminal (p_status
    (match (poll_loop 1 (u "thread_1") (u "run_1") 0%Q poll_start w_quick_run).1 with
     | Ret st => st
     | _ => poll_start
     end)) = true.
Proof.
  destruct (poll_loop_spec (u "thread_1") (u "run_1") 0%Q) as [H _].
  apply (H 1%nat poll_start w_quick_run _
           (poll_loop 1 (u "thread_1") (u "run_1") 0%Q poll_start w_quick_run).2).
  vm_compute. reflexivity.
Defined.

(** The extension at work: the run stays [in_progress] and the clock
    advances 60 seconds per poll; after ten polls, 600 seconds in, the loop
    is still polling, and it has sent the timeout notice eight times, each
    time extending [max_wait] by 60 seconds. *)
Lemma poll_loop_budget_extends :
  (poll_loop 10 (u "thread_1") (u "run_1") 0%Q poll_start w_slow_run).1 = Div /\
  length (filter (is_send timeout_msg)
    (w_trace (poll_loop 10 (u "thread_1") (u "run_1") 0%Q poll_start w_slow_run).2)) = 8%nat /\
  w_clock w_slow_run 10 = 600%Q.
Proof. vm_compute. split_and!; reflexivity. Qed.

(** ** Claim C5: the message history is not trimmed *)

Lemma trim_message_history_bound (h : handler) :
  (length (h_history (trim_message_history h)) <= 20)%nat /\
  exists pre, h_history h = pre ++ h_history (trim_message_history h).
Proof.
  unfold trim_message_history. destruct (Nat.ltb_spec 20 (length (h_history h))); simpl.
  - rewrite length_drop. split; [lia|].
    exists (take (length (h_history h) - 20) (h_history h)). by rewrite take_drop.
  - split; [lia|]. by exists [].
Qed.

(** C5 (code_bug). [stream_response] appends to [message_history] and
    never calls [trim_message_history]: one text turn whose answer has 21
    paragraphs leaves 22 entries, more than the cap of 20. *)
Theorem history_exceeds_cap :
  length (h_history (w_h (stream_response 1 (u "hola") w_long_answer).2)) = 22%nat.
Proof. vm_compute. reflexivity. Qed.

(** ** Claim C7: [process_markdown] *)

(** C7 (code_bug). The three rewrites hold, also with other amounts of
    spaces on both sides of the label, but a doubled marker survives:
    [text.replace('**', '*')] turns ["****"] into ["**"]. *)
Theorem process_markdown_cases :
  process_markdown (u "### Title") = u "*Title*" /\
  process_markdown (u "**bold**") = u "*bold*" /\
  process_markdown (u "1.  **  Label  **  :") = u "1. *Label*:" /\
  process_markdown (u "1. ** Label **:") = u "1. *Label*:" /\
  process_markdown (u "1.   **   Label   **   :") = u "1. *Label*:" /\
  process_markdown (u "1. **Label** :") = u "1. *Label*:" /\
  process_markdown (u "****") = u "**".
Proof. vm_compute. repeat split. Qed.

(** ** Claim C6: [prepare_text_for_html] *)

Lemma try_down_some {X} (f : nat -> option X) (lo n : nat) (x : X) :
  try_down f lo n = Some x -> exists m, (m <= n)%nat /\ f m = Some x.
Proof.
  induction n as [|n IH]; simpl.
  - destruct (f 0%nat) eqn:E; [intros [= <-]; exists 0%nat; auto | discriminate].
  - destruct (f (S n)) eqn:E.
    + intros [= <-]. exists (S n). auto.
    + destruct (n <? lo)%nat; [discriminate|].
      intros H. destruct (IH H) as (m & Hm & Hf). exists m. split; [lia|done].
Qed.

Lemma mt_suffix (r : regex) : forall s cs rest cs',
  mt r s cs = Some (rest, cs') -> exists pre, s = pre ++ rest.
Proof.
  induction r as [|a r IH]; intros s cs rest cs'; simpl.
  - intros [= <- _]. by exists [].
  - destruct a as [c|p|p|g|g].
    + destruct s as [|c' s']; [discriminate|].
      destruct (c =? c'); [|discriminate].
      intros H. destruct (IH _ _ _ _ H) as [pre ->]. by exists (c' :: pre).
    + destruct (span p s =? 0)%nat; [discriminate|].
      intros H. destruct (try_down_some _ _ _ _ H) as (m & _ & Hm).
      destruct (IH _ _ _ _ Hm) as [pre Hp]. exists (take m s ++ pre).
      rewrite <- app_assoc, <- Hp. by rewrite take_drop.
    + intros H. destruct (try_down_some _ _ _ _ H) as (m & _ & Hm).
      destruct (IH _ _ _ _ Hm) as [pre Hp]. exists (take m s ++ pre).
      rewrite <- app_assoc, <- Hp. by rewrite take_drop.
    + apply IH.
    + apply IH.
Qed.

Lemma mt_lit_in (r : regex) : forall s cs rest cs',
  mt r s cs = Some (rest, cs') -> forall c, ALit c ∈ r -> c ∈ s.
Proof.
  induction r as [|a r IH]; intros s cs rest cs'; simpl.
  - intros _ c Hc. by apply elem_of_nil in Hc.
  - destruct a as [c0|p|p|g|g].
    + destruct s as [|c' s']; [discriminate|].
      destruct (N.eqb_spec c0 c') as [<-|]; [|discriminate].
      intros H c Hc. apply elem_of_cons in Hc as [[= ->]|Hc]; [by left|].
      right. eapply IH; eauto.
    + destruct (span p s =? 0)%nat; [discriminate|].
      intros H c Hc. destruct (try_down_some _ _ _ _ H) as (m & _ & Hm).
      apply elem_of_cons in Hc as [[=]|Hc].
      apply (subseteq_drop m s). eapply IH; eauto.
    + intros H c Hc. destruct (try_down_some _ _ _ _ H) as (m & _ & Hm).
      apply elem_of_cons in Hc as [[=]|Hc].
      apply (subseteq_drop m s). eapply IH; eauto.
    + intros H c Hc. apply elem_of_cons in Hc as [[=]|Hc]. eapply IH; eauto.
    + intros H c Hc. apply elem_of_cons in Hc as [[=]|Hc]. eapply IH; eauto.
Qed.

Lemma sub_fuel_stable (r : regex) (tpl : list rpiece) (f1 : nat) : forall f2 s,
  (length s < f1)%nat -> (length s < f2)%nat -> sub_fuel f1 r tpl s = sub_fuel f2 r tpl s.
Proof.
  induction f1 as [|f1 IH]; intros f2 s H1 H2; [lia|].
  destruct f2 as [|f2]; [lia|]. simpl.
  destruct s as [|c s']; [reflexivity|]. simpl in H1, H2.
  destruct (mt r (c :: s') ([], [])) as [[rest cs]|] eqn:E.
  - destruct (length rest <? length (c :: s'))%nat eqn:L.
    + apply Nat.ltb_lt in L. f_equal. apply IH; simpl in *; lia.
    + f_equal. f_equal. apply IH; lia.
  - f_equal. apply IH; lia.
Qed.

Lemma re_sub_nil (r : regex) (tpl : list rpiece) : re_sub r tpl [] = [].
Proof. reflexivity. Qed.

Lemma re_sub_cons (r : regex) (tpl : list rpiece) (c : N) (s : text) :
  re_sub r tpl (c :: s) =
  match mt r (c :: s) ([], []) with
  | Some (rest, cs) =>
      if (length rest <? length (c :: s))%nat then expand tpl cs ++ re_sub r tpl rest
      else expand tpl cs ++ c :: re_sub r tpl s
  | None => c :: re_sub r tpl s
  end.
Proof.
  unfold re_sub at 1. cbn [sub_fuel].
  destruct (mt r (c :: s) ([], [])) as [[rest cs]|] eqn:E.
  - destruct (length rest <? length (c :: s))%nat eqn:L; [|reflexivity].
    apply Nat.ltb_lt in L. f_equal. apply sub_fuel_stable; simpl in *; lia.
  - reflexivity.
Qed.

(** [re.sub] leaves a text as it is when every match it finds is replaced
    by the very text it matched. *)
Lemma re_sub_id (r : regex) (tpl : list rpiece) (s : text) :
  (forall pre s', s = pre ++ s' -> s' <> [] ->
     match mt r s' ([], []) with
     | Some (rest, cs) => (length rest < length s')%nat /\ expand tpl cs ++ rest = s'
     | None => True
     end) ->
  re_sub r tpl s = s.
Proof.
  remember (length s) as n eqn:Hn.
  induction n as [n IH] using (well_founded_induction lt_wf) in s, Hn |- *.
  intros Hs. destruct s as [|c s']; [reflexivity|].
  rewrite re_sub_cons.
  pose proof (Hs [] (c :: s') eq_refl ltac:(done)) as H0.
  destruct (mt r (c :: s') ([], [])) as [[rest cs]|] eqn:E.
  - destruct H0 as [Hl He]. rewrite (proj2 (Nat.ltb_lt _ _) Hl).
    rewrite (IH (length rest)); [exact He|subst n; exact Hl|reflexivity|].
    intros pre s2 -> Hne. apply (Hs ((expand tpl cs) ++ pre)); [|done].
    by rewrite <- app_assoc.
  - f_equal. apply (IH (length s')); [simpl in Hn; lia|reflexivity|].
    intros pre s2 -> Hne. by apply (Hs (c :: pre)).
Qed.

(** A pattern with a literal character that the text lacks leaves it as
    it is. *)
Lemma re_sub_absent (r : regex) (tpl : list rpiece) (s : text) (c : N) :
  ALit c ∈ r -> c ∉ s -> re_sub r tpl s = s.
Proof.
  intros Hr Hc. apply re_sub_id. intros pre s' -> _.
  destruct (mt r s' ([], [])) as [[rest cs]|] eqn:E; [|done].
  exfalso. apply Hc. apply elem_of_app. right. eapply mt_lit_in; eauto.
Qed.

Lemma replace_fuel_absent (old new : text) (o : N) (os : text) (f : nat) : forall s,
  old = o :: os -> o ∉ s -> replace_fuel f old new s = s.
Proof.
  induction f as [|f IH]; intros s -> Hs; [reflexivity|]. simpl.
  destruct s as [|c s']; [reflexivity|].
  case_bool_decide as Hd.
  - exfalso. destruct Hd as [_ Ht]. simpl in Ht. injection Ht as <- _.
    apply Hs. by left.
  - f_equal. apply IH; [reflexivity|]. intros Hin. apply Hs. by right.
Qed.

Lemma str_replace_absent (s old new : text) (o : N) (os : text) :
  old = o :: os -> o ∉ s -> str_replace s old new = s.
Proof. intros. by eapply replace_fuel_absent. Qed.


Lemma try_down_top {X} (f : nat -> option X) (lo n : nat) :
  (forall m, (lo <= m < n)%nat -> f m = None) -> try_down f lo n = f n.
Proof.
  induction n as [|n IH]; intros H; simpl.
  - by destruct (f 0%nat).
  - destruct (f (S n)) eqn:E; [done|].
    destruct (n <? lo)%nat eqn:L; [done|]. apply Nat.ltb_ge in L.
    rewrite IH; [apply H; lia|]. intros m Hm. apply H. lia.
Qed.

Lemma span_drop_lt (p : N -> bool) (s : text) (m : nat) :
  (m < span p s)%nat -> exists c t, drop m s = c :: t /\ p c = true.
Proof.
  revert m. induction s as [|c s IH]; intros m; simpl; [lia|].
  destruct (p c) eqn:E; [|lia]. intros Hm.
  destruct m as [|m]; [by exists c, s|]. simpl. apply IH. lia.
Qed.

Lemma span_drop_head (p : N -> bool) (s : text) :
  match drop (span p s) s with c :: _ => p c = false | [] => True end.
Proof.
  induction s as [|c s IH]; simpl; [done|].
  destruct (p c) eqn:E; [exact IH|exact E].
Qed.

Lemma span_cons (p : N -> bool) (c : N) (s : text) :
  span p (c :: s) = if p c then S (span p s) else 0%nat.
Proof. reflexivity. Qed.

Lemma colon_not_space : is_space 58 = false.
Proof. reflexivity. Qed.

Lemma ch_colon : ch ":" = 58.
Proof. reflexivity. Qed.

Lemma u_colon : u ":" = [58].
Proof. reflexivity. Qed.

Lemma mt_ws_colon (s : text) (cs : caps) :
  mt re_ws_colon s cs =
  if (span is_space s =? 0)%nat then None
  else match drop (span is_space s) s with
       | c :: rest => if c =? 58 then Some (rest, cs) else None
       | [] => None
       end.
Proof.
  unfold re_ws_colon. cbn [mt]. rewrite ch_colon.
  destruct (span is_space s =? 0)%nat eqn:E; [reflexivity|].
  rewrite try_down_top.
  - cbn [mt]. destruct (drop (span is_space s) s) as [|c rest]; [done|].
    rewrite N.eqb_sym. by destruct (c =? 58).
  - intros m Hm. destruct (span_drop_lt is_space s m ltac:(lia)) as (c & t & -> & Hc).
    cbn [mt]. destruct (N.eqb_spec 58 c) as [<-|]; [|done].
    by rewrite colon_not_space in Hc.
Qed.

Lemma ws_colon_head (s : text) :
  head_is 58 (re_sub re_ws_colon [RL (u ":")] s) = true ->
  mt re_ws_colon s ([], []) <> None \/ head_is 58 s = true.
Proof.
  destruct s as [|c s']; [done|]. rewrite re_sub_cons.
  destruct (mt re_ws_colon (c :: s') ([], [])) as [[rest cs]|]; [by left|].
  intros H. by right.
Qed.

Lemma ws_colon_extend (c : N) (s : text) :
  is_space c = true ->
  (mt re_ws_colon s ([], []) <> None \/ head_is 58 s = true) ->
  mt re_ws_colon (c :: s) ([], []) <> None.
Proof.
  intros Hc Hs. rewrite mt_ws_colon, span_cons, Hc. cbn [Nat.eqb drop].
  destruct Hs as [Hm | Hh].
  - rewrite mt_ws_colon in Hm. by destruct (span is_space s =? 0)%nat.
  - destruct s as [|d t]; [done|]. simpl in Hh. apply N.eqb_eq in Hh as ->.
    rewrite span_cons, colon_not_space. done.
Qed.

Lemma ws_colon_match (s rest : text) (cs : caps) :
  mt re_ws_colon s ([], []) = Some (rest, cs) ->
  cs = ([], []) /\ (length rest < length s)%nat.
Proof.
  rewrite mt_ws_colon. destruct (span is_space s =? 0)%nat eqn:E; [done|].
  destruct (drop (span is_space s) s) as [|c r] eqn:D; [done|].
  destruct (c =? 58); [|done]. intros [= <- <-]. split; [done|].
  assert (length (drop (span is_space s) s) <= length s)%nat by (rewrite length_drop; lia).
  rewrite D in H. simpl in H. lia.
Qed.

(** After step 3 no white space is followed by a colon. *)
Lemma ws_colon_out (s : text) : no_space_colon (re_sub re_ws_colon [RL (u ":")] s) = true.
Proof.
  remember (length s) as n eqn:Hn.
  induction n as [n IH] using (well_founded_induction lt_wf) in s, Hn |- *.
  destruct s as [|c s']; [reflexivity|].
  rewrite re_sub_cons.
  destruct (mt re_ws_colon (c :: s') ([], [])) as [[rest cs]|] eqn:E.
  - destruct (ws_colon_match _ _ _ E) as [-> Hl].
    rewrite (proj2 (Nat.ltb_lt _ _) Hl). rewrite u_colon. cbn [expand flat_map app].
    cbn [no_space_colon]. rewrite colon_not_space. cbn [andb negb].
    apply (IH (length rest)); [subst; exact Hl|reflexivity].
  - cbn [no_space_colon]. apply andb_true_intro. split.
    + destruct (is_space c) eqn:Hc; [|done].
      destruct (head_is 58 (re_sub re_ws_colon [RL (u ":")] s')) eqn:Hh; [|done].
      exfalso. apply (ws_colon_extend c s' Hc (ws_colon_head s' Hh)). exact E.
    + apply (IH (length s')); [simpl in Hn; lia|reflexivity].
Qed.


Lemma ch_bullet : ch "•" = 8226.
Proof. reflexivity. Qed.

Lemma u_bullet_sp : u "• " = [8226; 32].
Proof. reflexivity. Qed.

Lemma bullet_not_space : is_space 8226 = false.
Proof. reflexivity. Qed.

Lemma try_down_first {X} (f : nat -> option X) (lo n : nat) (x : X) :
  f n = Some x -> try_down f lo n = Some x.
Proof. destruct n; simpl; intros ->; reflexivity. Qed.

Lemma mt_bullet (s : text) (cs : caps) :
  mt re_bullet s cs =
  match s with
  | c :: s' =>
      if c =? 8226 then
        if (span is_space s' =? 0)%nat then None else Some (drop (span is_space s') s', cs)
      else None
  | [] => None
  end.
Proof.
  unfold re_bullet. rewrite ch_bullet. destruct s as [|c s']; [reflexivity|].
  cbn [mt]. rewrite N.eqb_sym. destruct (c =? 8226); [|reflexivity].
  destruct (span is_space s' =? 0)%nat; [reflexivity|].
  apply try_down_first. reflexivity.
Qed.

Lemma bullet_match (s rest : text) (cs : caps) :
  mt re_bullet s ([], []) = Some (rest, cs) ->
  cs = ([], []) /\ (length rest < length s)%nat /\
  exists s', s = 8226 :: s' /\ (span is_space s' <> 0)%nat /\ rest = drop (span is_space s') s'.
Proof.
  rewrite mt_bullet. destruct s as [|c s']; [done|].
  destruct (N.eqb_spec c 8226) as [->|]; [|done].
  destruct (span is_space s' =? 0)%nat eqn:E; [done|]. apply Nat.eqb_neq in E.
  intros [= <- <-]. split_and!; [done| |by exists s'].
  rewrite length_drop. simpl. lia.
Qed.

(** A bullet step keeps the first character. *)
Lemma bullet_sub_head (s : text) :
  head (re_sub re_bullet [RL (u "• ")] s) = head s.
Proof.
  destruct s as [|c s']; [reflexivity|]. rewrite re_sub_cons.
  destruct (mt re_bullet (c :: s') ([], [])) as [[rest cs]|] eqn:E; [|reflexivity].
  destruct (bullet_match _ _ _ E) as (_ & Hl & s2 & [= -> ->] & _).
  rewrite (proj2 (Nat.ltb_lt _ _) Hl), u_bullet_sp. reflexivity.
Qed.

Lemma head_is_head (c : N) (t : text) : head_is c t = match head t with Some d => d =? c | None => false end.
Proof. by destruct t. Qed.

Lemma head_space_head (t : text) : head_space t = match head t with Some d => is_space d | None => false end.
Proof. by destruct t. Qed.

Lemma nsc_tail (a : N) (t : text) : no_space_colon (a :: t) = true -> no_space_colon t = true.
Proof. cbn [no_space_colon]. intros H. apply andb_prop in H. apply H. Qed.

Lemma nsc_drop (m : nat) : forall s, no_space_colon s = true -> no_space_colon (drop m s) = true.
Proof.
  induction m as [|m IH]; intros s H; [exact H|].
  destruct s as [|a t]; [reflexivity|]. apply IH. by eapply nsc_tail.
Qed.

Lemma nsc_app (pre s : text) : no_space_colon (pre ++ s) = true -> no_space_colon s = true.
Proof. induction pre as [|a pre IH]; [done|]. intros H. apply IH. by eapply nsc_tail. Qed.

Lemma nsc_after_spaces (s : text) :
  no_space_colon s = true -> (span is_space s <> 0)%nat ->
  head_is 58 (drop (span is_space s) s) = false.
Proof.
  induction s as [|a t IH]; [done|]. rewrite span_cons.
  cbn [no_space_colon]. intros H Hsp. apply andb_prop in H as [H1 H2].
  destruct (is_space a) eqn:Ea; [|done]. cbn [drop].
  destruct (span is_space t =? 0)%nat eqn:Et.
  - apply Nat.eqb_eq in Et. rewrite Et. cbn [drop].
    rewrite drop_0. by destruct (head_is 58 t).
  - apply Nat.eqb_neq in Et. by apply IH.
Qed.

Lemma bullet_keeps_nsc (s : text) :
  no_space_colon s = true -> no_space_colon (re_sub re_bullet [RL (u "• ")] s) = true.
Proof.
  remember (length s) as n eqn:Hn.
  induction n as [n IH] using (well_founded_induction lt_wf) in s, Hn |- *.
  intros Hs. destruct s as [|c s']; [reflexivity|].
  rewrite re_sub_cons.
  destruct (mt re_bullet (c :: s') ([], [])) as [[rest cs]|] eqn:E.
  - destruct (bullet_match _ _ _ E) as (-> & Hl & s2 & [= -> ->] & Hsp & ->).
    rewrite (proj2 (Nat.ltb_lt _ _) Hl).
    change (expand [RL (u "• ")] ([], [])) with [8226; 32]. cbn [app].
    cbn [no_space_colon]. rewrite bullet_not_space. cbn [andb negb].
    apply andb_true_intro. split.
    + rewrite head_is_head, bullet_sub_head, <- head_is_head.
      rewrite nsc_after_spaces; [reflexivity| |exact Hsp]. by eapply nsc_tail.
    + apply (IH (length (drop (span is_space s2) s2))); [subst; exact Hl|reflexivity|].
      apply nsc_drop. by eapply nsc_tail.
  - cbn [no_space_colon]. cbn [no_space_colon] in Hs. apply andb_prop in Hs as [H1 H2].
    apply andb_true_intro. split.
    + by rewrite head_is_head, bullet_sub_head, <- head_is_head.
    + apply (IH (length s')); [simpl in Hn; lia|reflexivity|exact H2].
Qed.

(** After a bullet step every bullet is followed by at most one space. *)
Lemma bullet_out (s : text) : bullet_ok (re_sub re_bullet [RL (u "• ")] s) = true.
Proof.
  remember (length s) as n eqn:Hn.
  induction n as [n IH] using (well_founded_induction lt_wf) in s, Hn |- *.
  destruct s as [|c s']; [reflexivity|].
  rewrite re_sub_cons.
  destruct (mt re_bullet (c :: s') ([], [])) as [[rest cs]|] eqn:E.
  - destruct (bullet_match _ _ _ E) as (-> & Hl & s2 & [= -> ->] & Hsp & ->).
    rewrite (proj2 (Nat.ltb_lt _ _) Hl).
    change (expand [RL (u "• ")] ([], [])) with [8226; 32]. cbn [app].
    cbn [bullet_ok single_gap]. change (is_space 32) with true. cbn [N.eqb Pos.eqb andb negb].
    apply andb_true_intro. split.
    + rewrite head_space_head, bullet_sub_head, <- head_space_head.
      pose proof (span_drop_head is_space s2) as Hd.
      destruct (drop (span is_space s2) s2) as [|d t]; [reflexivity|]. simpl. by rewrite Hd.
    + apply (IH (length (drop (span is_space s2) s2))); [subst; exact Hl|reflexivity].
  - cbn [bullet_ok]. apply andb_true_intro. split.
    + destruct (N.eqb_spec c 8226) as [->|]; [|done].
      rewrite mt_bullet, N.eqb_refl in E.
      destruct (span is_space s' =? 0)%nat eqn:Z; [|discriminate]. apply Nat.eqb_eq in Z.
      destruct s' as [|d t]; [reflexivity|].
      rewrite re_sub_cons. 
      destruct (mt re_bullet (d :: t) ([], [])) as [[rest2 cs2]|] eqn:E2.
      * destruct (bullet_match _ _ _ E2) as (_ & Hl2 & s3 & [= -> ->] & _).
        rewrite (proj2 (Nat.ltb_lt _ _) Hl2), u_bullet_sp. reflexivity.
      * cbn [single_gap]. rewrite span_cons in Z. by destruct (is_space d).
    + apply (IH (length s')); [simpl in Hn; lia|reflexivity].
Qed.

Lemma bullet_ok_tail (a : N) (t : text) : bullet_ok (a :: t) = true -> bullet_ok t = true.
Proof. cbn [bullet_ok]. intros H. apply andb_prop in H. apply H. Qed.

Lemma bullet_ok_app (pre s : text) : bullet_ok (pre ++ s) = true -> bullet_ok s = true.
Proof. induction pre as [|a pre IH]; [done|]. intros H. apply IH. by eapply bullet_ok_tail. Qed.

Lemma ws_colon_id (s : text) : no_space_colon s = true -> re_sub re_ws_colon [RL (u ":")] s = s.
Proof.
  intros Hs. apply re_sub_id. intros pre s' -> _.
  apply nsc_app in Hs. rewrite mt_ws_colon.
  destruct (span is_space s' =? 0)%nat eqn:Z; [done|]. apply Nat.eqb_neq in Z.
  pose proof (nsc_after_spaces s' Hs Z) as H.
  destruct (drop (span is_space s') s') as [|c r]; [done|]. simpl in H. by rewrite H.
Qed.

Lemma bullet_id (s : text) : bullet_ok s = true -> re_sub re_bullet [RL (u "• ")] s = s.
Proof.
  intros Hs. apply re_sub_id. intros pre s' -> _.
  apply bullet_ok_app in Hs.
  destruct (mt re_bullet s' ([], [])) as [[rest cs]|] eqn:E; [|done].
  destruct (bullet_match _ _ _ E) as (-> & Hl & s2 & -> & Hsp & ->). split; [exact Hl|].
  cbn [bullet_ok] in Hs. rewrite N.eqb_refl in Hs. apply andb_prop in Hs as [Hg _].
  destruct s2 as [|b t]; [done|]. rewrite span_cons in Hsp |- *.
  cbn [single_gap] in Hg. destruct (is_space b) eqn:Eb; [|done].
  apply andb_prop in Hg as [Hb Ht]. apply N.eqb_eq in Hb as ->.
  destruct t as [|d t]; [reflexivity|]. cbn [head_space negb] in Ht.
  rewrite span_cons. destruct (is_space d); [done|]. reflexivity.
Qed.

(** The characters of a [re.sub] with a literal replacement come from the
    text or from the replacement. *)
Lemma re_sub_chars (r : regex) (t s : text) (c : N) :
  c ∈ re_sub r [RL t] s -> c ∈ s \/ c ∈ t.
Proof.
  remember (length s) as n eqn:Hn.
  induction n as [n IH] using (well_founded_induction lt_wf) in s, Hn |- *.
  destruct s as [|c0 s']; [rewrite re_sub_nil; intros H; by apply elem_of_nil in H|].
  rewrite re_sub_cons.
  assert (Hexp : forall cs, expand [RL t] cs = t) by (intros; apply app_nil_r).
  destruct (mt r (c0 :: s') ([], [])) as [[rest cs]|] eqn:E.
  - rewrite Hexp. destruct (mt_suffix _ _ _ _ _ E) as [pre Hpre].
    destruct (length rest <? length (c0 :: s'))%nat eqn:L.
    + apply Nat.ltb_lt in L. intros H. apply elem_of_app in H as [H|H]; [by right|].
      destruct (IH (length rest) ltac:(subst; exact L) rest eq_refl H) as [H'|H']; [|by right].
      left. rewrite Hpre. apply elem_of_app. by right.
    + intros H. apply elem_of_app in H as [H|H]; [by right|].
      apply elem_of_cons in H as [->|H]; [left; by left|].
      destruct (IH (length s') ltac:(simpl in Hn; lia) s' eq_refl H) as [H'|H']; [|by right].
      left. by right.
  - intros H. apply elem_of_cons in H as [->|H]; [left; by left|].
    destruct (IH (length s') ltac:(simpl in Hn; lia) s' eq_refl H) as [H'|H']; [|by right].
    left. by right.
Qed.

Lemma lit_in (c : N) (str : string) : c ∈ u str -> ALit c ∈ lit str.
Proof. intros H. unfold lit. apply list_elem_of_In, in_map, list_elem_of_In, H. Qed.

Lemma heading_lit : ALit 35 ∈ re_heading.
Proof.
  unfold re_heading. apply elem_of_app. left. apply lit_in.
  change (u "###") with [35; 35; 35]. left.
Qed.
Lemma bold_sp_lit : ALit 42 ∈ re_bold_sp.
Proof.
  unfold re_bold_sp. apply elem_of_app. left. apply lit_in.
  change (u "**") with [42; 42]. left.
Qed.
Lemma bold_lit : ALit 42 ∈ re_bold.
Proof.
  unfold re_bold. apply elem_of_app. left. apply lit_in.
  change (u "**") with [42; 42]. left.
Qed.
Lemma dash_lit : ALit 10 ∈ re_dash.
Proof. unfold re_dash. left. Qed.
Lemma num_b_lit : ALit 60 ∈ re_num_b.
Proof.
  unfold re_num_b. apply elem_of_app. right. apply elem_of_app. left. apply lit_in.
  change (u "<b>") with [60; 98; 62]. left.
Qed.

Lemma plain_sub (r : regex) (t s : text) (bad : list N) :
  (forall c, c ∈ t -> c ∉ bad) -> (forall c, c ∈ s -> c ∉ bad) ->
  forall c, c ∈ re_sub r [RL t] s -> c ∉ bad.
Proof.
  intros Ht Hs c Hc. destruct (re_sub_chars r t s c Hc) as [H|H]; auto.
Qed.

Lemma digit_range (lo : N) (n : nat) :
  forallb (fun i => negb (is_digit (lo + N.of_nat i))) (seq 0 n) = true ->
  forall c, lo <= c < lo + N.of_nat n -> is_digit c = false.
Proof.
  intros H c Hc. rewrite forallb_forall in H.
  specialize (H (N.to_nat (c - lo))).
  replace (lo + N.of_nat (N.to_nat (c - lo))) with c in H by lia.
  apply negb_true_iff, H. apply in_seq. lia.
Qed.

Lemma space_not_digit (c : N) : is_space c = true -> is_digit c = false.
Proof.
  unfold is_space. intros H.
  repeat match goal with
  | H : (_ || _) = true |- _ => apply orb_prop in H as [H|H]
  | H : (_ && _) = true |- _ => apply andb_prop in H as [? ?]
  | H : (_ <=? _) = true |- _ => apply N.leb_le in H
  | H : (_ =? _) = true |- _ => apply N.eqb_eq in H; subst; reflexivity
  end.
  - apply (digit_range 9 5); [vm_compute; reflexivity|lia].
  - apply (digit_range 28 5); [vm_compute; reflexivity|lia].
  - apply (digit_range 8192 11); [vm_compute; reflexivity|lia].
Qed.

Lemma span_le (p : N -> bool) (s : text) : (span p s <= length s)%nat.
Proof. induction s as [|c s IH]; simpl; [lia|]. destruct (p c); simpl; lia. Qed.

Lemma span_app_all (p : N -> bool) (l t : text) :
  Forall (fun c => p c = true) l -> span p (l ++ t) = (length l + span p t)%nat.
Proof. induction 1 as [|c l Hc _ IH]; [done|]. simpl. by rewrite Hc, IH. Qed.

Lemma take_span_all (p : N -> bool) (s : text) :
  Forall (fun c => p c = true) (take (span p s) s).
Proof.
  induction s as [|c s IH]; simpl; [constructor|].
  destruct (p c) eqn:E; simpl; [by constructor|constructor].
Qed.

Lemma span_stop (p : N -> bool) (l t : text) :
  Forall (fun c => p c = true) l -> (match t with c :: _ => p c = false | [] => True end) ->
  span p (l ++ t) = length l.
Proof.
  intros Hl Ht. rewrite span_app_all by exact Hl.
  destruct t as [|c t]; simpl; [lia|]. rewrite Ht. lia.
Qed.

Lemma strip_app (l t : text) : cut_prefix l (l ++ t) = Some t.
Proof. induction l as [|c l IH]; simpl; [done|]. by rewrite N.eqb_refl. Qed.

Lemma strip_some (l t r : text) : cut_prefix l t = Some r -> t = l ++ r.
Proof.
  revert t. induction l as [|c l IH]; intros t; simpl; [by intros [= ->]|].
  destruct t as [|d t]; [done|]. destruct (N.eqb_spec d c) as [->|]; [|done].
  intros H. by rewrite (IH _ H).
Qed.

Lemma mt_open g r s cs : mt (AOpen g :: r) s cs = mt r s ((g, s) :: cs.1, cs.2).
Proof. reflexivity. Qed.
Lemma mt_close g r s cs : mt (AClose g :: r) s cs = mt r s (cs.1, (g, s) :: cs.2).
Proof. reflexivity. Qed.
Lemma mt_lits (l : text) (r : regex) (s : text) cs :
  mt (map ALit l ++ r) s cs = match cut_prefix l s with Some t => mt r t cs | None => None end.
Proof.
  revert s. induction l as [|c l IH]; intros s; [reflexivity|].
  destruct s as [|d s]; [reflexivity|]. cbn [map app mt cut_prefix].
  rewrite N.eqb_sym. destruct (d =? c); [apply IH|reflexivity].
Qed.

Lemma mt_plus_stop (p : N -> bool) (r' : regex) (s : text) (cs : caps) :
  (forall m c t, (1 <= m < span p s)%nat -> drop m s = c :: t -> p c = true -> mt r' (c :: t) cs = None) ->
  mt (APlus p :: r') s cs = if (span p s =? 0)%nat then None else mt r' (drop (span p s) s) cs.
Proof.
  intros H. cbn [mt]. destruct (span p s =? 0)%nat; [done|].
  apply (try_down_top (fun n => mt r' (drop n s) cs)).
  intros m Hm. destruct (span_drop_lt p s m ltac:(lia)) as (c & t & E & Hc).
  rewrite E. eapply H; eauto.
Qed.

Lemma re_num_b_eq : re_num_b =
  AOpen 1 :: APlus is_digit :: AClose 1 :: (map ALit [46] ++ APlus is_space ::
  (map ALit [60; 98; 62] ++ AOpen 2 :: APlus (not_in [60]) :: AClose 2 ::
  (map ALit [60; 47; 98; 62; 58] ++ []))).
Proof. reflexivity. Qed.

Lemma re_dash_eq : re_dash = [ALit 10; AStar is_space; ALit 45; APlus is_space].
Proof. reflexivity. Qed.

Lemma num_b_tpl_eq : num_b_tpl = [RG 1; RL [46; 32; 60; 98; 62]; RG 2; RL [60; 47; 98; 62; 58]].
Proof. reflexivity. Qed.

Lemma dash_tpl_eq : dash_tpl = [RL [10; 8226; 32]].
Proof. reflexivity. Qed.

Lemma mt_numb (s : text) :
  match mt re_num_b s ([], []) with
  | Some (rest, cs) => exists ds w g, numb_fn s = Some (ds, w, g, rest) /\
      expand num_b_tpl cs = ds ++ [46; 32; 60; 98; 62] ++ g ++ [60; 47; 98; 62; 58]
  | None => numb_fn s = None
  end.
Proof.
  rewrite re_num_b_eq, mt_open. cbn [fst snd].
  rewrite mt_plus_stop.
  2:{ intros m c t _ _ Hc. rewrite mt_close, mt_lits. cbn [cut_prefix].
      destruct (N.eqb_spec c 46) as [->|]; [discriminate|reflexivity]. }
  unfold numb_fn. destruct (span is_digit s =? 0)%nat eqn:K; [reflexivity|].
  apply Nat.eqb_neq in K. pose proof (span_le is_digit s) as Hle.
  set (k := span is_digit s) in *.
  rewrite mt_close, mt_lits. cbn [fst snd]. unfold numb_rest.
  destruct (cut_prefix [46] (drop k s)) as [s1|] eqn:D1; [|reflexivity].
  rewrite mt_plus_stop.
  2:{ intros m c t _ _ Hc. rewrite mt_lits. cbn [cut_prefix].
      destruct (N.eqb_spec c 60) as [->|]; [discriminate|reflexivity]. }
  destruct (span is_space s1 =? 0)%nat eqn:J; [reflexivity|].
  rewrite mt_lits.
  destruct (cut_prefix [60; 98; 62] (drop (span is_space s1) s1)) as [s2|] eqn:D2; [|reflexivity].
  rewrite mt_open. cbn [fst snd].
  rewrite mt_plus_stop.
  2:{ intros m c t _ _ Hc. rewrite mt_close, mt_lits. cbn [cut_prefix].
      destruct (N.eqb_spec c 60) as [->|]; [discriminate|reflexivity]. }
  unfold numb_close. destruct (span (not_in [60%N]) s2 =? 0)%nat eqn:G; [reflexivity|].
  pose proof (span_le (not_in [60]) s2) as Hle2.
  rewrite mt_close, mt_lits. cbn [fst snd].
  destruct (cut_prefix [60; 47; 98; 62; 58] (drop (span (not_in [60]) s2) s2)) as [rest|] eqn:D3;
    [|reflexivity].
  cbn [mt]. eexists _, _, _. split; [reflexivity|].
  rewrite num_b_tpl_eq. unfold expand. cbn [flat_map group assoc fst snd Nat.eqb].
  rewrite !length_drop, ?app_nil_r, <- ?app_assoc.
  replace (length s - (length s - k))%nat with k by lia.
  replace (length s2 - (length s2 - span (not_in [60%N]) s2))%nat with (span (not_in [60%N]) s2) by lia.
  reflexivity.
Qed.

(** Suffixes and substitutions. *)

Lemma sfx_all_app (P : text -> Prop) (p q : text) :
  (forall i, (i < length p)%nat -> P (drop i p ++ q)) -> sfx_all P q -> sfx_all P (p ++ q).
Proof.
  induction p as [|a p IH]; intros Hp Hq; [exact Hq|]. cbn [app sfx_all]. split.
  - apply (Hp 0%nat). simpl. lia.
  - apply IH; [|exact Hq]. intros i Hi. apply (Hp (S i)). simpl. lia.
Qed.

Lemma sfx_all_app_r (P : text -> Prop) (p q : text) : sfx_all P (p ++ q) -> sfx_all P q.
Proof. induction p as [|a p IH]; [done|]. intros [_ H]. by apply IH. Qed.

Lemma sfx_all_at (P : text -> Prop) (pre s' : text) : sfx_all P (pre ++ s') -> s' <> [] -> P s'.
Proof.
  intros H Hne. apply sfx_all_app_r in H. destruct s' as [|c t]; [done|]. apply H.
Qed.

Lemma span_zero_head (p : N -> bool) (t : text) :
  (span p t =? 0)%nat = match head t with Some c => negb (p c) | None => true end.
Proof. destruct t as [|c t]; [done|]. simpl. by destruct (p c). Qed.

Lemma span_drop_head' (p : N -> bool) (s : text) :
  match head (drop (span p s) s) with Some c => p c = false | None => True end.
Proof. pose proof (span_drop_head p s) as H. by destruct (drop (span p s) s). Qed.

Lemma span_app_le (p : N -> bool) (t : text) (c : N) (y : text) :
  p c = false -> (span p (t ++ c :: y) <= length t)%nat.
Proof.
  intros Hc. induction t as [|a t IH]; simpl; [by rewrite Hc|].
  destruct (p a); simpl; lia.
Qed.

Lemma re_sub_prefix (r : regex) (tpl : list rpiece) (p q : text) :
  (forall i, (i < length p)%nat -> mt r (drop i p ++ q) ([], []) = None) ->
  re_sub r tpl (p ++ q) = p ++ re_sub r tpl q.
Proof.
  induction p as [|a p IH]; intros H; [reflexivity|].
  cbn [app]. rewrite re_sub_cons.
  rewrite (H 0%nat ltac:(simpl; lia) : mt r (a :: p ++ q) ([], []) = None). f_equal. apply IH.
  intros i Hi. apply (H (S i)). simpl. lia.
Qed.

(** Step 6, the dash items. *)

Lemma mt_star_stop (p : N -> bool) (r' : regex) (s : text) (cs : caps) :
  (forall m c t, (m < span p s)%nat -> drop m s = c :: t -> p c = true -> mt r' (c :: t) cs = None) ->
  mt (AStar p :: r') s cs = mt r' (drop (span p s) s) cs.
Proof.
  intros H. cbn [mt]. apply (try_down_top (fun n => mt r' (drop n s) cs)).
  intros m Hm. destruct (span_drop_lt p s m ltac:(lia)) as (c & t & E & Hc).
  rewrite E. eapply H; eauto. lia.
Qed.

Lemma re_dash_eq2 : re_dash = map ALit [10] ++ AStar is_space :: map ALit [45] ++ [APlus is_space].
Proof. reflexivity. Qed.

Lemma mt_dash (s : text) (cs : caps) :
  match mt re_dash s cs with
  | Some (rest, cs') => cs' = cs /\ dash_at s = true /\
      exists s1 s2, s = 10 :: s1 /\ drop (span is_space s1) s1 = 45 :: s2 /\
        rest = drop (span is_space s2) s2
  | None => dash_at s = false
  end.
Proof.
  rewrite re_dash_eq2, mt_lits. destruct s as [|c s1]; [reflexivity|]. cbn [cut_prefix]. unfold dash_at.
  destruct (N.eqb_spec c 10) as [->|]; [|reflexivity]. cbn [andb].
  rewrite mt_star_stop.
  2:{ intros m d t _ _ Hd. rewrite mt_lits. cbn [cut_prefix].
      destruct (N.eqb_spec d 45) as [->|]; [discriminate|reflexivity]. }
  rewrite mt_lits. unfold dash_tail.
  destruct (drop (span is_space s1) s1) as [|d s2] eqn:D; [reflexivity|]. cbn [cut_prefix].
  destruct (N.eqb_spec d 45) as [->|]; [|reflexivity].
  cbn [mt andb]. destruct (span is_space s2 =? 0)%nat eqn:Z; [reflexivity|].
  rewrite (try_down_first _ _ _ (drop (span is_space s2) s2, cs)) by reflexivity.
  split_and!; [done|done|]. by exists s1, s2.
Qed.

Lemma mt_dash_none (s : text) (cs : caps) : dash_at s = false -> mt re_dash s cs = None.
Proof.
  pose proof (mt_dash s cs) as M. destruct (mt re_dash s cs) as [[rest cs']|]; [|done].
  destruct M as (_ & H & _). congruence.
Qed.

Lemma dash_match (s rest : text) (cs : caps) :
  mt re_dash s ([], []) = Some (rest, cs) ->
  cs = ([], []) /\ (length rest < length s)%nat /\
  exists s1 s2, s = 10 :: s1 /\ drop (span is_space s1) s1 = 45 :: s2 /\
    (span is_space s2 <> 0)%nat /\ rest = drop (span is_space s2) s2.
Proof.
  intros E. pose proof (mt_dash s ([], [])) as M. rewrite E in M.
  destruct M as (-> & Ha & s1 & s2 & -> & D & ->). split; [done|].
  cbn [dash_at andb N.eqb Pos.eqb] in Ha. unfold dash_tail in Ha. rewrite D in Ha.
  cbn [N.eqb Pos.eqb andb] in Ha. apply negb_true_iff, Nat.eqb_neq in Ha.
  split; [|by exists s1, s2].
  assert (L : (length (drop (span is_space s1) s1) <= length s1)%nat) by (rewrite length_drop; lia).
  rewrite D in L. simpl in L. rewrite length_drop. simpl. lia.
Qed.

Lemma dash_tpl_expand (cs : caps) : expand dash_tpl cs = [10; 8226; 32].
Proof. reflexivity. Qed.

Lemma dash_sub_cons (c : N) (t : text) :
  c <> 10 -> re_sub re_dash dash_tpl (c :: t) = c :: re_sub re_dash dash_tpl t.
Proof.
  intros Hc. rewrite re_sub_cons, mt_dash_none; [reflexivity|].
  cbn [dash_at]. by rewrite (proj2 (N.eqb_neq c 10) Hc).
Qed.

Lemma dash_sub_head (t : text) : head (re_sub re_dash dash_tpl t) = head t.
Proof.
  destruct t as [|c t]; [reflexivity|].
  destruct (N.eqb_spec c 10) as [->|Hc]; [|by rewrite dash_sub_cons].
  rewrite re_sub_cons. destruct (mt re_dash (10 :: t) ([], [])) as [[rest cs]|]; [|reflexivity].
  rewrite dash_tpl_expand. by destruct (Nat.ltb (length rest) (length (10 :: t))).
Qed.

Lemma dash_tail_ws_app (w z : text) :
  Forall (fun c => is_space c = true) w ->
  match head z with Some c => is_space c = false | None => True end ->
  dash_tail (w ++ z) = dash_tail z.
Proof.
  intros Hw Hz. unfold dash_tail.
  rewrite span_stop; [|exact Hw|by destruct z].
  rewrite drop_app_length.
  assert (Z : span is_space z = 0%nat) by (destruct z as [|c z]; [done|]; simpl in *; by rewrite Hz).
  by rewrite Z, drop_0.
Qed.

Lemma dash_tail_head (d : N) (t : text) :
  is_space d = false -> dash_tail (d :: t) = (d =? 45) && negb (span is_space t =? 0)%nat.
Proof. intros Hd. unfold dash_tail. simpl. by rewrite Hd. Qed.

Lemma space_10 : is_space 10 = true.
Proof. reflexivity. Qed.

Lemma ws_split (s : text) :
  s = take (span is_space s) s ++ drop (span is_space s) s /\
  Forall (fun c => is_space c = true) (take (span is_space s) s) /\
  match head (drop (span is_space s) s) with Some c => is_space c = false | None => True end.
Proof. split_and!; [by rewrite take_drop|apply take_span_all|apply span_drop_head']. Qed.

(** After the dash step no dash item is left. *)
Lemma dash_out (s : text) : sfx_all (fun t => dash_at t = false) (re_sub re_dash dash_tpl s).
Proof.
  remember (length s) as n eqn:Hn.
  induction n as [n IH] using (well_founded_induction lt_wf) in s, Hn |- *.
  destruct s as [|c s']; [done|]. rewrite re_sub_cons.
  pose proof (mt_dash (c :: s') ([], [])) as M.
  destruct (mt re_dash (c :: s') ([], [])) as [[rest cs]|] eqn:E.
  - destruct (dash_match _ _ _ E) as (-> & Hl & _). rewrite (proj2 (Nat.ltb_lt _ _) Hl).
    rewrite dash_tpl_expand. cbn [app sfx_all].
    split_and!; [reflexivity|reflexivity|reflexivity|].
    apply (IH (length rest)); [subst; exact Hl|reflexivity].
  - cbn [sfx_all]. split; [|apply (IH (length s')); [simpl in Hn; lia|reflexivity]].
    cbn [dash_at]. destruct (N.eqb_spec c 10) as [->|]; [|reflexivity]. cbn [andb].
    cbn [dash_at andb] in M. rewrite N.eqb_refl in M. cbn [andb] in M.
    destruct (ws_split s') as (Hs & Hw & Hz).
    set (w := take (span is_space s') s') in *. set (z := drop (span is_space s') s') in *.
    rewrite Hs in M |- *. rewrite dash_tail_ws_app in M by assumption.
    rewrite re_sub_prefix.
    2:{ intros i Hi. apply mt_dash_none.
        destruct (drop i w) as [|d w'] eqn:D; [pose proof (length_drop w i) as L; rewrite D in L; simpl in L; lia|].
        assert (Hd : Forall (fun c => is_space c = true) (d :: w')) by (rewrite <- D; by apply Forall_drop).
        apply Forall_cons in Hd as [_ Hw']. cbn [app dash_at].
        rewrite dash_tail_ws_app by assumption. rewrite M. apply andb_false_r. }
    rewrite dash_tail_ws_app; [|exact Hw|by rewrite dash_sub_head].
    destruct z as [|d z']; [reflexivity|]. simpl in Hz.
    rewrite dash_sub_cons by (intros ->; by rewrite space_10 in Hz).
    rewrite dash_tail_head in M |- * by exact Hz.
    by rewrite span_zero_head, dash_sub_head, <- span_zero_head.
Qed.

Lemma single_gap_head (b : N) (t t' : text) :
  head t = head t' -> single_gap (b :: t) = single_gap (b :: t').
Proof. intros H. cbn [single_gap]. by rewrite !head_space_head, H. Qed.

Lemma dash_keeps_nsc (s : text) :
  no_space_colon s = true -> no_space_colon (re_sub re_dash dash_tpl s) = true.
Proof.
  remember (length s) as n eqn:Hn.
  induction n as [n IH] using (well_founded_induction lt_wf) in s, Hn |- *.
  intros Hs. destruct s as [|c s']; [reflexivity|]. rewrite re_sub_cons.
  destruct (mt re_dash (c :: s') ([], [])) as [[rest cs]|] eqn:E.
  - destruct (mt_suffix _ _ _ _ _ E) as [pre Hpre].
    destruct (dash_match _ _ _ E) as (-> & Hl & s1 & s2 & [= -> ->] & D & Hsp & ->).
    rewrite (proj2 (Nat.ltb_lt _ _) Hl), dash_tpl_expand. cbn [app no_space_colon].
    assert (N2 : no_space_colon s2 = true).
    { apply nsc_tail in Hs. apply (nsc_drop (span is_space s1)) in Hs. rewrite D in Hs.
      by apply nsc_tail in Hs. }
    rewrite (head_is_head 58 (re_sub _ _ _)), dash_sub_head, <- head_is_head.
    rewrite nsc_after_spaces by assumption. cbn.
    apply (IH (length (drop (span is_space s2) s2))); [subst; exact Hl|reflexivity|].
    by apply nsc_drop.
  - cbn [no_space_colon] in Hs |- *. apply andb_prop in Hs as [H1 H2].
    rewrite (head_is_head 58 (re_sub _ _ _)), dash_sub_head, <- head_is_head, H1. cbn [andb].
    apply (IH (length s')); [simpl in Hn; lia|reflexivity|exact H2].
Qed.

Lemma dash_keeps_bok (s : text) :
  bullet_ok s = true -> bullet_ok (re_sub re_dash dash_tpl s) = true.
Proof.
  remember (length s) as n eqn:Hn.
  induction n as [n IH] using (well_founded_induction lt_wf) in s, Hn |- *.
  intros Hs. destruct s as [|c s']; [reflexivity|]. rewrite re_sub_cons.
  destruct (mt re_dash (c :: s') ([], [])) as [[rest cs]|] eqn:E.
  - destruct (mt_suffix _ _ _ _ _ E) as [pre Hpre].
    destruct (dash_match _ _ _ E) as (-> & Hl & s1 & s2 & [= -> ->] & D & Hsp & ->).
    rewrite (proj2 (Nat.ltb_lt _ _) Hl), dash_tpl_expand. cbn [app bullet_ok single_gap].
    rewrite (head_space_head (re_sub _ _ _)), dash_sub_head, <- head_space_head.
    pose proof (span_drop_head' is_space s2) as Hh.
    replace (head_space (drop (span is_space s2) s2)) with false
      by (destruct (drop (span is_space s2) s2); simpl in *; congruence).
    cbn.
    apply (IH (length (drop (span is_space s2) s2))); [subst; exact Hl|reflexivity|].
    rewrite Hpre in Hs. by apply bullet_ok_app in Hs.
  - cbn [bullet_ok] in Hs |- *. apply andb_prop in Hs as [H1 H2].
    apply andb_true_intro. split; [|apply (IH (length s')); [simpl in Hn; lia|reflexivity|exact H2]].
    destruct (c =? 8226); [|done].
    destruct s' as [|b t]; [reflexivity|].
    assert (Hb : b <> 10).
    { intros ->. cbn [single_gap] in H1. by rewrite space_10 in H1. }
    rewrite dash_sub_cons by exact Hb.
    rewrite (single_gap_head b _ t); [exact H1|apply dash_sub_head].
Qed.

(** Step 7, the numbered bold items. *)


Lemma not_in60 (c : N) : not_in [60] c = negb (c =? 60).
Proof. unfold not_in. simpl. by rewrite orb_false_r. Qed.

Lemma numb_fn_nondigit (c : N) (t : text) : is_digit c = false -> numb_fn (c :: t) = None.
Proof. intros H. unfold numb_fn. cbn [span]. by rewrite H. Qed.

Lemma mt_numb_none (s : text) : numb_fn s = None -> mt re_num_b s ([], []) = None.
Proof.
  pose proof (mt_numb s) as M. destruct (mt re_num_b s ([], [])) as [[rest cs]|]; [|done].
  destruct M as (ds & w & g & E & _). congruence.
Qed.

Lemma numb_sub_cons (c : N) (t : text) :
  is_digit c = false -> re_sub re_num_b num_b_tpl (c :: t) = c :: re_sub re_num_b num_b_tpl t.
Proof. intros H. rewrite re_sub_cons, mt_numb_none; [reflexivity|]. by apply numb_fn_nondigit. Qed.

Lemma numb_sub_nondigits (p q : text) :
  Forall (fun c => is_digit c = false) p ->
  re_sub re_num_b num_b_tpl (p ++ q) = p ++ re_sub re_num_b num_b_tpl q.
Proof. induction 1 as [|c p Hc _ IH]; [done|]. cbn [app]. by rewrite numb_sub_cons, IH. Qed.

Lemma take_span_ne (p : N -> bool) (s : text) :
  (span p s <> 0)%nat -> take (span p s) s <> [].
Proof.
  intros H E. apply (f_equal length) in E. rewrite length_take in E.
  pose proof (span_le p s). simpl in E. lia.
Qed.

Lemma numb_shape (s ds w g rest : text) :
  numb_fn s = Some (ds, w, g, rest) ->
  s = ds ++ 46 :: w ++ 60 :: 98 :: 62 :: g ++ 60 :: 47 :: 98 :: 62 :: 58 :: rest /\
  ds <> [] /\ Forall (fun c => is_digit c = true) ds /\
  w <> [] /\ Forall (fun c => is_space c = true) w /\
  g <> [] /\ Forall (fun c => not_in [60] c = true) g.
Proof.
  unfold numb_fn, numb_rest, numb_close.
  destruct (span is_digit s =? 0)%nat eqn:K; [done|]. apply Nat.eqb_neq in K.
  destruct (cut_prefix [46] (drop (span is_digit s) s)) as [s1|] eqn:D1; [|done].
  destruct (span is_space s1 =? 0)%nat eqn:J; [done|]. apply Nat.eqb_neq in J.
  destruct (cut_prefix [60; 98; 62] (drop (span is_space s1) s1)) as [s2|] eqn:D2; [|done].
  destruct (span (not_in [60%N]) s2 =? 0)%nat eqn:G; [done|]. apply Nat.eqb_neq in G.
  destruct (cut_prefix [60; 47; 98; 62; 58] (drop (span (not_in [60%N]) s2) s2)) as [r|] eqn:D3; [|done].
  intros [= <- <- <- <-].
  apply strip_some in D1, D2, D3. cbn [app] in D1, D2, D3.
  split_and!; try apply take_span_ne; try apply take_span_all; try assumption.
  transitivity (take (span is_digit s) s ++ drop (span is_digit s) s); [by rewrite take_drop|].
  rewrite D1. f_equal. f_equal.
  transitivity (take (span is_space s1) s1 ++ drop (span is_space s1) s1); [by rewrite take_drop|].
  rewrite D2. f_equal. cbn [app]. do 3 f_equal.
  transitivity (take (span (not_in [60%N]) s2) s2 ++ drop (span (not_in [60%N]) s2) s2);
    [by rewrite take_drop|].
  by rewrite D3.
Qed.

Lemma numb_fn_digits (ds r : text) :
  Forall (fun c => is_digit c = true) ds -> ds <> [] ->
  match head r with Some c => is_digit c = false | None => True end ->
  numb_fn (ds ++ r) = match numb_rest r with Some (w, g, rest) => Some (ds, w, g, rest) | None => None end.
Proof.
  intros Hd Hne Hr. unfold numb_fn.
  rewrite span_stop; [|exact Hd|by destruct r].
  destruct (length ds =? 0)%nat eqn:L; [apply Nat.eqb_eq, length_zero_iff_nil in L; done|].
  by rewrite drop_app_length, take_app_length.
Qed.

Lemma numb_rest_shape (w g rest : text) :
  w <> [] -> Forall (fun c => is_space c = true) w ->
  g <> [] -> Forall (fun c => not_in [60] c = true) g ->
  numb_rest (46 :: w ++ 60 :: 98 :: 62 :: g ++ 60 :: 47 :: 98 :: 62 :: 58 :: rest) = Some (w, g, rest).
Proof.
  intros Hw Hw' Hg Hg'. unfold numb_rest, numb_close. cbn [cut_prefix N.eqb Pos.eqb].
  rewrite span_stop by (done || exact Hw').
  destruct (length w =? 0)%nat eqn:L; [apply Nat.eqb_eq, length_zero_iff_nil in L; done|].
  rewrite drop_app_length. cbn [cut_prefix N.eqb Pos.eqb].
  rewrite span_stop by (done || exact Hg').
  destruct (length g =? 0)%nat eqn:L2; [apply Nat.eqb_eq, length_zero_iff_nil in L2; done|].
  rewrite drop_app_length. cbn [cut_prefix N.eqb Pos.eqb].
  by rewrite !take_app_length.
Qed.

Lemma numb_shape_inv (ds w g rest : text) :
  ds <> [] -> Forall (fun c => is_digit c = true) ds ->
  w <> [] -> Forall (fun c => is_space c = true) w ->
  g <> [] -> Forall (fun c => not_in [60] c = true) g ->
  numb_fn (ds ++ 46 :: w ++ 60 :: 98 :: 62 :: g ++ 60 :: 47 :: 98 :: 62 :: 58 :: rest) =
  Some (ds, w, g, rest).
Proof.
  intros. rewrite numb_fn_digits by (done || reflexivity).
  by rewrite numb_rest_shape.
Qed.

Lemma numb_match (s rest : text) (cs : caps) :
  mt re_num_b s ([], []) = Some (rest, cs) ->
  exists ds w g, numb_fn s = Some (ds, w, g, rest) /\
    expand num_b_tpl cs = ds ++ [46; 32; 60; 98; 62] ++ g ++ [60; 47; 98; 62; 58] /\
    (length rest < length s)%nat.
Proof.
  intros E. pose proof (mt_numb s) as M. rewrite E in M.
  destruct M as (ds & w & g & F & X). exists ds, w, g. split_and!; [done|done|].
  destruct (numb_shape _ _ _ _ _ F) as (-> & _). rewrite length_app. simpl.
  rewrite !length_app. simpl. rewrite ?length_app. simpl. lia.
Qed.

Lemma numb_sub_head (d : N) (t : text) :
  exists x, re_sub re_num_b num_b_tpl (d :: t) = d :: x.
Proof.
  rewrite re_sub_cons. destruct (mt re_num_b (d :: t) ([], [])) as [[rest cs]|] eqn:E; [|by eexists].
  destruct (numb_match _ _ _ E) as (ds & w & g & F & X & _). rewrite X.
  destruct (numb_shape _ _ _ _ _ F) as (S & Hne & _).
  destruct ds as [|e ds']; [done|]. injection S as Hde _. subst e.
  by destruct (length rest <? length (d :: t))%nat; eexists.
Qed.

Lemma numb_sub_head_eq (t : text) : head (re_sub re_num_b num_b_tpl t) = head t.
Proof.
  destruct t as [|d t]; [reflexivity|]. by destruct (numb_sub_head d t) as [x ->].
Qed.

Lemma numb_sub_strip (l t : text) :
  Forall (fun c => is_digit c = false) l ->
  cut_prefix l (re_sub re_num_b num_b_tpl t) = option_map (re_sub re_num_b num_b_tpl) (cut_prefix l t).
Proof.
  intros Hl. revert t. induction Hl as [|c l Hc _ IH]; intros t; [reflexivity|].
  destruct t as [|d t]; [reflexivity|].
  destruct (N.eqb_spec d c) as [->|Hd].
  - rewrite numb_sub_cons by exact Hc. cbn [cut_prefix]. rewrite N.eqb_refl. apply IH.
  - destruct (numb_sub_head d t) as [x ->]. cbn [cut_prefix].
    by rewrite (proj2 (N.eqb_neq d c) Hd).
Qed.

Lemma nondigit_lits_close : Forall (fun c => is_digit c = false) [60; 47; 98; 62; 58].
Proof. repeat constructor. Qed.
Lemma nondigit_lits_open : Forall (fun c => is_digit c = false) [60; 98; 62].
Proof. repeat constructor. Qed.

Lemma app_first_60 (p1 p2 q1 q2 : text) :
  Forall (fun c => not_in [60] c = true) p1 -> Forall (fun c => not_in [60] c = true) p2 ->
  match head q1 with Some c => c = 60 | None => True end ->
  p1 ++ q1 = p2 ++ 60 :: q2 -> p1 = p2 /\ q1 = 60 :: q2.
Proof.
  intros H1. revert p2. induction H1 as [|a p1 Ha _ IH]; intros p2 H2 Hq E.
  - destruct p2 as [|b p2]; [done|]. cbn [app] in E. subst q1. simpl in Hq. subst b.
    apply Forall_cons in H2 as [Hb _]. discriminate.
  - destruct p2 as [|b p2].
    + cbn [app] in E. injection E as -> _. discriminate.
    + apply Forall_cons in H2 as [_ H2]. cbn [app] in E. injection E as -> E.
      destruct (IH p2 H2 Hq E) as [-> ->]. done.
Qed.

Lemma digit_not60 (c : N) : is_digit c = true -> not_in [60] c = true.
Proof. intros H. rewrite not_in60. destruct (N.eqb_spec c 60) as [->|]; [discriminate|reflexivity]. Qed.

Lemma space_not60 (c : N) : is_space c = true -> not_in [60] c = true.
Proof. intros H. rewrite not_in60. destruct (N.eqb_spec c 60) as [->|]; [discriminate|reflexivity]. Qed.

Lemma numb_sub_split (g r4 : text) :
  Forall (fun c => not_in [60] c = true) g ->
  match head r4 with Some c => c = 60 | None => True end ->
  exists g' r4', re_sub re_num_b num_b_tpl (g ++ r4) = g' ++ r4' /\
    Forall (fun c => not_in [60] c = true) g' /\ (g' = [] <-> g = []) /\
    match head r4' with Some c => c = 60 | None => True end /\
    (cut_prefix [60; 47; 98; 62; 58] r4 = None -> cut_prefix [60; 47; 98; 62; 58] r4' = None).
Proof.
  intros Hg Hr. induction Hg as [|a g Ha Hg IH].
  - exists [], (re_sub re_num_b num_b_tpl r4). cbn [app]. split_and!; try done.
    + by rewrite numb_sub_head_eq.
    + rewrite numb_sub_strip by exact nondigit_lits_close. by intros ->.
  - cbn [app]. rewrite re_sub_cons.
    destruct (mt re_num_b (a :: g ++ r4) ([], [])) as [[rest cs]|] eqn:E.
    + destruct (numb_match _ _ _ E) as (ds & w & g2 & F & X & Hl).
      rewrite (proj2 (Nat.ltb_lt _ _) Hl), X.
      destruct (numb_shape _ _ _ _ _ F) as (S & Hne & Hd & Hw & Hw' & Hg2 & Hg2').
      assert (P : Forall (fun c => not_in [60] c = true) (ds ++ 46 :: w)).
      { apply Forall_app_2; [|constructor; [reflexivity|]].
        - eapply Forall_impl; [exact Hd|]. apply digit_not60.
        - eapply Forall_impl; [exact Hw'|]. apply space_not60. }
      assert (S' : (a :: g) ++ r4 =
        (ds ++ 46 :: w) ++ 60 :: 98 :: 62 :: g2 ++ 60 :: 47 :: 98 :: 62 :: 58 :: rest)
        by (rewrite <- app_assoc; exact S).
      destruct (app_first_60 _ _ _ _ (Forall_cons_2 _ _ _ Ha Hg) P Hr S') as [Hp ->].
      exists (ds ++ [46; 32]),
        (60 :: 98 :: 62 :: g2 ++ [60; 47; 98; 62; 58] ++ re_sub re_num_b num_b_tpl rest).
      split_and!.
      * by rewrite <- !app_assoc.
      * apply Forall_app_2; [eapply Forall_impl; [exact Hd|]; apply digit_not60|].
        repeat constructor.
      * split; [intros H; by destruct ds|discriminate].
      * reflexivity.
      * intros _. reflexivity.
    + destruct IH as (g' & r4' & Eq & Hg' & Hiff & Hh & Hs).
      exists (a :: g'), r4'. rewrite Eq. split_and!; try done.
      by constructor.
Qed.

Lemma span_stop_h (p : N -> bool) (l t : text) :
  Forall (fun c => p c = true) l -> (match head t with Some c => p c = false | None => True end) ->
  span p (l ++ t) = length l.
Proof. intros Hl Ht. apply span_stop; [exact Hl|by destruct t]. Qed.

Lemma numb_close_sub (s2 : text) :
  numb_close s2 = None -> numb_close (re_sub re_num_b num_b_tpl s2) = None.
Proof.
  unfold numb_close. cbv zeta. intros H.
  assert (Hs : s2 = take (span (not_in [60%N]) s2) s2 ++ drop (span (not_in [60%N]) s2) s2)
    by (symmetry; apply take_drop).
  assert (Hg : Forall (fun c => not_in [60] c = true) (take (span (not_in [60%N]) s2) s2))
    by apply take_span_all.
  assert (Hr : match head (drop (span (not_in [60%N]) s2) s2) with Some c => c = 60 | None => True end).
  { pose proof (span_drop_head' (not_in [60]) s2) as X.
    destruct (head (drop (span (not_in [60%N]) s2) s2)) as [c|]; [|done].
    rewrite not_in60 in X. destruct (N.eqb_spec c 60); [done|discriminate]. }
  destruct (numb_sub_split _ _ Hg Hr) as (g' & r4' & Eq & Hg' & Hiff & Hh & Hst).
  rewrite Hs, Eq.
  rewrite span_stop_h; [|exact Hg'|destruct (head r4'); [subst; reflexivity|done]].
  destruct (length g' =? 0)%nat eqn:L; [reflexivity|].
  rewrite drop_app_length.
  assert (Hn : (span (not_in [60%N]) s2 =? 0)%nat = false).
  { apply Nat.eqb_neq. intros Hn0. apply Nat.eqb_neq in L. apply L.
    apply length_zero_iff_nil, Hiff. rewrite Hn0. reflexivity. }
  rewrite Hn in H. rewrite Hst; [reflexivity|].
  destruct (cut_prefix _ (drop (span (not_in [60%N]) s2) s2)); [discriminate|reflexivity].
Qed.

Lemma strip_one (a c : N) (t : text) : cut_prefix [a] (c :: t) = if c =? a then Some t else None.
Proof. simpl. by destruct (c =? a). Qed.

Lemma numb_rest_sub (r : text) :
  numb_rest r = None -> match head r with Some c => is_digit c = false | None => True end ->
  numb_rest (re_sub re_num_b num_b_tpl r) = None.
Proof.
  destruct r as [|c s1]; [done|]. intros H Hc. simpl in Hc. rewrite numb_sub_cons by exact Hc.
  unfold numb_rest in H |- *. cbv zeta in H |- *. rewrite strip_one in H |- *.
  destruct (c =? 46); [|reflexivity].
  destruct (ws_split s1) as (Hs & Hw & Hz).
  assert (Hj : length (take (span is_space s1) s1) = span is_space s1)
    by (rewrite length_take; pose proof (span_le is_space s1); lia).
  set (w := take (span is_space s1) s1) in *. set (z := drop (span is_space s1) s1) in *.
  assert (E1 : re_sub re_num_b num_b_tpl s1 = w ++ re_sub re_num_b num_b_tpl z).
  { rewrite Hs at 1. apply numb_sub_nondigits. eapply Forall_impl; [exact Hw|].
    intros; by apply space_not_digit. }
  rewrite E1, span_stop_h; [|exact Hw|by rewrite numb_sub_head_eq].
  rewrite drop_app_length, Hj.
  destruct (span is_space s1 =? 0)%nat; [reflexivity|].
  rewrite numb_sub_strip by exact nondigit_lits_open.
  destruct (cut_prefix [60; 98; 62] z) as [s2|]; [|reflexivity]. cbn [option_map].
  destruct (numb_close s2) as [[g rest]|] eqn:C; [discriminate|].
  by rewrite (numb_close_sub s2 C).
Qed.

Lemma strip_open_none (v y : text) :
  Forall (fun c => not_in [60] c = true) v -> cut_prefix [60; 98; 62] (v ++ 60 :: 47 :: y) = None.
Proof.
  destruct v as [|e v]; [reflexivity|]. intros Hv. apply Forall_cons in Hv as [He _].
  rewrite not_in60 in He. cbn [cut_prefix app]. destruct (N.eqb_spec e 60); [discriminate|reflexivity].
Qed.

Lemma numb_rest_close_none (v y : text) :
  Forall (fun c => not_in [60] c = true) v -> numb_rest (v ++ 60 :: 47 :: y) = None.
Proof.
  destruct v as [|e v]; [reflexivity|]. intros Hv. apply Forall_cons in Hv as [_ Hv].
  unfold numb_rest. cbv zeta. cbn [app]. rewrite strip_one. destruct (e =? 46); [|reflexivity].
  destruct (Nat.eqb (span is_space (v ++ 60 :: 47 :: y)) 0); [reflexivity|].
  rewrite drop_app_le by (apply span_app_le; reflexivity).
  rewrite strip_open_none; [reflexivity|]. by apply Forall_drop.
Qed.

Lemma numb_none_close (t y : text) :
  Forall (fun c => not_in [60] c = true) t -> numb_fn (t ++ 60 :: 47 :: y) = None.
Proof.
  intros Ht. unfold numb_fn. cbv zeta.
  destruct (Nat.eqb (span is_digit (t ++ 60 :: 47 :: y)) 0); [reflexivity|].
  rewrite drop_app_le by (apply span_app_le; reflexivity).
  rewrite numb_rest_close_none; [reflexivity|]. by apply Forall_drop.
Qed.

Lemma numb_ok_nondigit (c : N) (t : text) : is_digit c = false -> numb_ok (c :: t).
Proof. intros H. unfold numb_ok. by rewrite numb_fn_nondigit. Qed.

Lemma drop_cons_lt {A} (l : list A) (i : nat) :
  (i < length l)%nat -> exists e l', drop i l = e :: l'.
Proof.
  intros Hi. destruct (drop i l) as [|e l'] eqn:D; [|by exists e, l'].
  pose proof (length_drop l i) as L. rewrite D in L. simpl in L. lia.
Qed.

(** After step 7 every numbered bold item has one plain space after its number. *)
Lemma numb_out (s : text) : sfx_all numb_ok (re_sub re_num_b num_b_tpl s).
Proof.
  remember (length s) as n eqn:Hn.
  induction n as [n IH] using (well_founded_induction lt_wf) in s, Hn |- *.
  destruct s as [|c s']; [done|]. rewrite re_sub_cons.
  destruct (mt re_num_b (c :: s') ([], [])) as [[rest cs]|] eqn:E.
  - destruct (numb_match _ _ _ E) as (ds & w & g & F & X & Hl).
    rewrite (proj2 (Nat.ltb_lt _ _) Hl), X.
    destruct (numb_shape _ _ _ _ _ F) as (S & Hne & Hd & Hw & Hw' & Hg & Hg').
    assert (IHr : sfx_all numb_ok (re_sub re_num_b num_b_tpl rest))
      by (apply (IH (length rest)); [subst; exact Hl|reflexivity]).
    set (o := re_sub re_num_b num_b_tpl rest) in *. clearbody o.
    rewrite <- !app_assoc. apply sfx_all_app.
    { intros i Hi. destruct (drop_cons_lt ds i Hi) as (e & ds' & D). rewrite D.
      assert (Hd' : Forall (fun c => is_digit c = true) (e :: ds')) by (rewrite <- D; by apply Forall_drop).
      unfold numb_ok. cbn [app].
      pose proof (numb_shape_inv (e :: ds') [32] g o ltac:(done) Hd' ltac:(done)
        ltac:(by repeat constructor) Hg Hg') as Q.
      cbn [app] in Q. by rewrite Q. }
    cbn [app sfx_all]. split_and!; try (apply numb_ok_nondigit; reflexivity).
    apply sfx_all_app.
    { intros i Hi. unfold numb_ok. cbn [app]. rewrite numb_none_close; [done|]. by apply Forall_drop. }
    cbn [app sfx_all]. split_and!; try (apply numb_ok_nondigit; reflexivity). exact IHr.
  - cbn [sfx_all]. split; [|apply (IH (length s')); [simpl in Hn; lia|reflexivity]].
    pose proof (mt_numb (c :: s')) as M. rewrite E in M.
    destruct (is_digit c) eqn:Hc; [|by apply numb_ok_nondigit].
    assert (Hs : s' = take (span is_digit s') s' ++ drop (span is_digit s') s') by (symmetry; apply take_drop).
    set (ds' := take (span is_digit s') s') in *. set (r1 := drop (span is_digit s') s') in *.
    assert (Hd : Forall (fun c => is_digit c = true) (c :: ds')) by (constructor; [done|apply take_span_all]).
    assert (Hr1 : match head r1 with Some c => is_digit c = false | None => True end)
      by apply span_drop_head'.
    rewrite Hs in M. change (c :: ds' ++ r1) with ((c :: ds') ++ r1) in M.
    rewrite numb_fn_digits in M by done.
    assert (R : numb_rest r1 = None) by (destruct (numb_rest r1) as [[[? ?] ?]|]; done).
    rewrite Hs, re_sub_prefix.
    2:{ intros i Hi. apply mt_numb_none. destruct (drop_cons_lt ds' i Hi) as (e & d' & D).
        rewrite D. assert (He : Forall (fun c => is_digit c = true) (e :: d'))
          by (rewrite <- D; apply Forall_drop; apply take_span_all).
        rewrite numb_fn_digits by done. by rewrite R. }
    unfold numb_ok. change (c :: ds' ++ re_sub re_num_b num_b_tpl r1) with
      ((c :: ds') ++ re_sub re_num_b num_b_tpl r1).
    rewrite numb_fn_digits; [|done|done|by rewrite numb_sub_head_eq].
    by rewrite numb_rest_sub.
Qed.

Lemma numb_id (s : text) : sfx_all numb_ok s -> re_sub re_num_b num_b_tpl s = s.
Proof.
  intros Hs. apply re_sub_id. intros pre s' -> Hne.
  pose proof (sfx_all_at _ _ _ Hs Hne) as Ok.
  destruct (mt re_num_b s' ([], [])) as [[rest cs]|] eqn:E; [|done].
  destruct (numb_match _ _ _ E) as (ds & w & g & F & X & Hl). split; [exact Hl|].
  unfold numb_ok in Ok. rewrite F in Ok. subst w.
  destruct (numb_shape _ _ _ _ _ F) as (S & _). rewrite X, S, <- !app_assoc. reflexivity.
Qed.

(** What steps 7 and 8 keep. *)

Ltac app_norm := repeat progress (rewrite <- ?app_assoc, <- ?app_comm_cons; cbn [app]).
Ltac app_norm_in H := repeat progress (rewrite <- ?app_assoc, <- ?app_comm_cons in H; cbn [app] in H).

Lemma nsc_swap (p x y : text) :
  head x = head y -> no_space_colon (p ++ y) = true -> no_space_colon x = true ->
  no_space_colon (p ++ x) = true.
Proof.
  intros Hh. induction p as [|a p IH]; [done|]. cbn [app no_space_colon].
  intros H Hx. apply andb_prop in H as [H1 H2]. apply andb_true_intro. split; [|by apply IH].
  rewrite head_is_head in H1 |- *.
  assert (E : head (p ++ x) = head (p ++ y)) by (destruct p; [exact Hh|reflexivity]).
  by rewrite E.
Qed.

Lemma numb_keeps_nsc (s : text) :
  no_space_colon s = true -> no_space_colon (re_sub re_num_b num_b_tpl s) = true.
Proof.
  remember (length s) as n eqn:Hn.
  induction n as [n IH] using (well_founded_induction lt_wf) in s, Hn |- *.
  intros Hs. destruct s as [|c s']; [reflexivity|]. rewrite re_sub_cons.
  destruct (mt re_num_b (c :: s') ([], [])) as [[rest cs]|] eqn:E.
  - destruct (numb_match _ _ _ E) as (ds & w & g & F & X & Hl).
    rewrite (proj2 (Nat.ltb_lt _ _) Hl), X.
    destruct (numb_shape _ _ _ _ _ F) as (S & _).
    assert (IHr : no_space_colon (re_sub re_num_b num_b_tpl rest) = true).
    { apply (IH (length rest)); [subst; exact Hl|reflexivity|].
      rewrite S in Hs. apply (nsc_app (ds ++ 46 :: w ++ 60 :: 98 :: 62 :: g ++ [60; 47; 98; 62; 58])).
      app_norm. exact Hs. }
    rewrite S in Hs. app_norm.
    eapply (nsc_swap ds _ (46 :: w ++ 60 :: 98 :: 62 :: g ++ 60 :: 47 :: 98 :: 62 :: 58 :: rest));
      [reflexivity|exact Hs|].
    assert (Hs2 : no_space_colon ((60 :: 98 :: 62 :: g ++ [60; 47; 98; 62]) ++ 58 :: rest) = true).
    { apply (nsc_app (ds ++ 46 :: w)). app_norm. exact Hs. }
    pose proof (nsc_swap (60 :: 98 :: 62 :: g ++ [60; 47; 98; 62]) (58 :: re_sub re_num_b num_b_tpl rest)
      (58 :: rest) eq_refl Hs2) as Q.
    app_norm_in Q.
    cbn [no_space_colon]. change (is_space 46) with false. change (is_space 32) with true.
    cbn [andb negb head_is]. change (60 =? 58) with false. cbn [negb andb].
    apply Q. cbn [no_space_colon]. change (is_space 58) with false. exact IHr.
  - cbn [no_space_colon]. cbn [no_space_colon] in Hs. apply andb_prop in Hs as [H1 H2].
    apply andb_true_intro. split.
    + by rewrite head_is_head, numb_sub_head_eq, <- head_is_head.
    + apply (IH (length s')); [simpl in Hn; lia|reflexivity|exact H2].
Qed.


Lemma dash_tail_sp (c : N) (t : text) : is_space c = true -> dash_tail (c :: t) = dash_tail t.
Proof. intros Hc. unfold dash_tail. cbn [span]. by rewrite Hc. Qed.

(** A transformation that keeps the first character and copies white space
    and dashes keeps the shape after a newline. *)
Lemma dash_tail_sub (f : text -> text) :
  (forall t, head (f t) = head t) ->
  (forall c t, is_space c = true -> f (c :: t) = c :: f t) ->
  (forall t, f (45 :: t) = 45 :: f t) ->
  forall s, dash_tail (f s) = dash_tail s.
Proof.
  intros Hh Hsp H45. induction s as [|c t IH].
  - specialize (Hh []). by destruct (f []).
  - destruct (is_space c) eqn:Hc.
    + rewrite Hsp, !dash_tail_sp by exact Hc. exact IH.
    + destruct (N.eqb_spec c 45) as [->|Hne].
      * rewrite H45, !dash_tail_head by reflexivity. by rewrite !span_zero_head, Hh.
      * specialize (Hh (c :: t)). destruct (f (c :: t)) as [|d x]; [done|].
        injection Hh as ->. rewrite !dash_tail_head by exact Hc.
        by rewrite (proj2 (N.eqb_neq c 45) Hne).
Qed.

Lemma dash_tail_stop (t y y' : text) (c : N) :
  is_space c = false -> c <> 45 -> dash_tail (t ++ c :: y) = dash_tail (t ++ c :: y').
Proof.
  intros Hc H45. induction t as [|a t IH].
  - cbn [app]. rewrite !dash_tail_head by exact Hc. by rewrite (proj2 (N.eqb_neq c 45) H45).
  - cbn [app]. destruct (is_space a) eqn:Ha.
    + rewrite !dash_tail_sp by exact Ha. exact IH.
    + rewrite !dash_tail_head by exact Ha. rewrite !span_zero_head.
      by destruct t.
Qed.

Lemma dash_at_stop (t y y' : text) (c : N) :
  is_space c = false -> c <> 45 -> dash_at (t ++ c :: y) = dash_at (t ++ c :: y').
Proof.
  intros Hc H45. destruct t as [|a t].
  - cbn [app dash_at]. destruct (N.eqb_spec c 10) as [->|]; [discriminate|reflexivity].
  - cbn [app dash_at]. by rewrite (dash_tail_stop t y y' c).
Qed.

Lemma dash_free_nonl (p q : text) :
  Forall (fun c => c <> 10) p -> dash_free q -> dash_free (p ++ q).
Proof.
  intros Hp Hq. apply sfx_all_app; [|exact Hq]. intros i Hi.
  destruct (drop_cons_lt p i Hi) as (e & p' & D). rewrite D. cbn [app dash_at].
  assert (He : e <> 10) by (eapply (Forall_forall (fun c => c <> 10)); [exact Hp|];
    apply (subseteq_drop i p); rewrite D; left).
  by rewrite (proj2 (N.eqb_neq e 10) He).
Qed.

Lemma digit_not10 (c : N) : is_digit c = true -> c <> 10.
Proof. intros H ->. discriminate. Qed.

Lemma numb_keeps_dash_free (s : text) :
  dash_free s -> dash_free (re_sub re_num_b num_b_tpl s).
Proof.
  unfold dash_free. remember (length s) as n eqn:Hn.
  induction n as [n IH] using (well_founded_induction lt_wf) in s, Hn |- *.
  intros Hs. destruct s as [|c s']; [done|]. rewrite re_sub_cons.
  destruct (mt re_num_b (c :: s') ([], [])) as [[rest cs]|] eqn:E.
  - destruct (numb_match _ _ _ E) as (ds & w & g & F & X & Hl).
    rewrite (proj2 (Nat.ltb_lt _ _) Hl), X.
    destruct (numb_shape _ _ _ _ _ F) as (S & _ & Hd & _ & _ & _ & Hg').
    rewrite S in Hs.
    assert (IHr : sfx_all (fun t => dash_at t = false) (re_sub re_num_b num_b_tpl rest)).
    { apply (IH (length rest)); [subst; exact Hl|reflexivity|].
      apply (sfx_all_app_r _ (ds ++ 46 :: w ++ 60 :: 98 :: 62 :: g ++ [60; 47; 98; 62; 58])).
      app_norm. exact Hs. }
    rewrite <- !app_assoc. apply dash_free_nonl.
    { eapply Forall_impl; [exact Hd|]. apply digit_not10. }
    app_norm. apply (dash_free_nonl [46; 32; 60; 98; 62]); [repeat constructor; discriminate|].
    apply sfx_all_app.
    + intros i Hi.
      rewrite (dash_at_stop (drop i g) _ (47 :: 98 :: 62 :: 58 :: rest)) by (done || discriminate).
      apply (sfx_all_at (fun t => dash_at t = false) (ds ++ 46 :: w ++ 60 :: 98 :: 62 :: take i g)).
      * app_norm. rewrite <- (take_drop i g) in Hs. app_norm_in Hs. exact Hs.
      * by destruct (drop i g).
    + apply (dash_free_nonl [60; 47; 98; 62; 58]); [repeat constructor; discriminate|exact IHr].
  - destruct Hs as [H0 Hs]. cbn [sfx_all].
    split; [|apply (IH (length s')); [simpl in Hn; lia|reflexivity|exact Hs]].
    cbn [dash_at] in H0 |- *. rewrite dash_tail_sub; [exact H0|apply numb_sub_head_eq| |].
    + intros d t Hd. apply numb_sub_cons. by apply space_not_digit.
    + intros t. by apply numb_sub_cons.
Qed.

(** Step 8, the bullets. *)

Lemma bsub_cons (c : N) (t : text) :
  c <> 8226 -> re_sub re_bullet [RL (u "• ")] (c :: t) = c :: re_sub re_bullet [RL (u "• ")] t.
Proof. intros H. rewrite re_sub_cons, mt_bullet, (proj2 (N.eqb_neq c 8226) H). reflexivity. Qed.

Lemma bsub_head_cons (d : N) (t : text) :
  exists x, re_sub re_bullet [RL (u "• ")] (d :: t) = d :: x.
Proof.
  pose proof (bullet_sub_head (d :: t)) as H.
  destruct (re_sub re_bullet [RL (u "• ")] (d :: t)) as [|e x]; [done|].
  injection H as ->. by exists x.
Qed.

Lemma bsub_strip (l t : text) :
  Forall (fun c => c <> 8226) l ->
  cut_prefix l (re_sub re_bullet [RL (u "• ")] t) = option_map (re_sub re_bullet [RL (u "• ")]) (cut_prefix l t).
Proof.
  intros Hl. revert t. induction Hl as [|c l Hc _ IH]; intros t; [reflexivity|].
  destruct t as [|d t]; [reflexivity|].
  destruct (N.eqb_spec d c) as [->|Hd].
  - rewrite bsub_cons by exact Hc. cbn [cut_prefix]. rewrite N.eqb_refl. apply IH.
  - destruct (bsub_head_cons d t) as [x ->]. cbn [cut_prefix].
    by rewrite (proj2 (N.eqb_neq d c) Hd).
Qed.

Lemma bsub_nonbullets (p q : text) :
  Forall (fun c => c <> 8226) p ->
  re_sub re_bullet [RL (u "• ")] (p ++ q) = p ++ re_sub re_bullet [RL (u "• ")] q.
Proof. induction 1 as [|c p Hc _ IH]; [done|]. cbn [app]. by rewrite bsub_cons, IH. Qed.

Lemma span_app_stop_c (p : N -> bool) (l t : text) (c : N) :
  p c = false -> span p (l ++ c :: t) = span p l.
Proof.
  intros Hc. induction l as [|a l IH]; cbn [app span]; [by rewrite Hc|].
  by rewrite IH.
Qed.

Lemma drop_lt_cons (k : nat) (a : N) (l : text) :
  (length (drop k l) <? length (a :: l))%nat = true.
Proof. apply Nat.ltb_lt. rewrite length_drop. simpl. lia. Qed.

(** A bullet step works on both sides of a character that is neither a
    bullet nor white space on its own. *)
Lemma bsub_split (c : N) (q : text) :
  is_space c = false -> c <> 8226 -> forall p,
  re_sub re_bullet [RL (u "• ")] (p ++ c :: q) =
  re_sub re_bullet [RL (u "• ")] p ++ c :: re_sub re_bullet [RL (u "• ")] q.
Proof.
  intros Hc Hb p. remember (length p) as n eqn:Hn.
  induction n as [n IH] using (well_founded_induction lt_wf) in p, Hn |- *.
  destruct p as [|a p'].
  - cbn [app]. by rewrite bsub_cons, re_sub_nil.
  - cbn [app]. rewrite (re_sub_cons _ _ a (p' ++ c :: q)), (re_sub_cons _ _ a p'), !mt_bullet.
    destruct (N.eqb_spec a 8226) as [->|Ha].
    + rewrite span_app_stop_c by exact Hc.
      destruct (span is_space p' =? 0)%nat eqn:Z.
      * rewrite (IH (length p')); [reflexivity|simpl in Hn; lia|reflexivity].
      * rewrite !drop_lt_cons. rewrite drop_app_le by apply span_le.
        rewrite (IH (length (drop (span is_space p') p'))); [by rewrite app_assoc| |reflexivity].
        rewrite length_drop. simpl in Hn. lia.
    + rewrite (IH (length p')); [reflexivity|simpl in Hn; lia|reflexivity].
Qed.

Lemma bullet_keeps_dash_free (s : text) :
  dash_free s -> dash_free (re_sub re_bullet [RL (u "• ")] s).
Proof.
  unfold dash_free. remember (length s) as n eqn:Hn.
  induction n as [n IH] using (well_founded_induction lt_wf) in s, Hn |- *.
  intros Hs. destruct s as [|c s']; [done|]. rewrite re_sub_cons.
  destruct (mt re_bullet (c :: s') ([], [])) as [[rest cs]|] eqn:E.
  - destruct (bullet_match _ _ _ E) as (-> & Hl & s2 & [= -> ->] & Hsp & ->).
    rewrite (proj2 (Nat.ltb_lt _ _) Hl).
    change (expand [RL (u "• ")] ([], [])) with [8226; 32]. cbn [app sfx_all dash_at].
    split_and!; [reflexivity|reflexivity|].
    apply (IH (length (drop (span is_space s2) s2))); [subst; exact Hl|reflexivity|].
    destruct Hs as [_ Hs]. rewrite <- (take_drop (span is_space s2) s2) in Hs.
    by apply sfx_all_app_r in Hs.
  - destruct Hs as [H0 Hs]. cbn [sfx_all].
    split; [|apply (IH (length s')); [simpl in Hn; lia|reflexivity|exact Hs]].
    cbn [dash_at] in H0 |- *. rewrite dash_tail_sub; [exact H0|apply bullet_sub_head| |].
    + intros d t Hd. apply bsub_cons. intros ->. discriminate.
    + intros t. by apply bsub_cons.
Qed.

Lemma dash_id (s : text) : dash_free s -> re_sub re_dash dash_tpl s = s.
Proof.
  intros Hs. apply re_sub_id. intros pre s' -> Hne.
  rewrite mt_dash_none; [done|]. exact (sfx_all_at (fun t => dash_at t = false) pre s' Hs Hne).
Qed.

Lemma bsub_not60 (g : text) :
  Forall (fun c => not_in [60] c = true) g ->
  Forall (fun c => not_in [60] c = true) (re_sub re_bullet [RL (u "• ")] g).
Proof.
  intros Hg. apply Forall_forall. intros c Hc.
  destruct (re_sub_chars _ _ _ _ Hc) as [H|H].
  - by apply (proj1 (Forall_forall _ _) Hg).
  - rewrite u_bullet_sp in H. rewrite not_in60.
    repeat (apply elem_of_cons in H as [->|H]; [reflexivity|]). by apply elem_of_nil in H.
Qed.

Lemma bsub_nil_iff (g : text) : re_sub re_bullet [RL (u "• ")] g = [] <-> g = [].
Proof.
  split; [|intros ->; apply re_sub_nil].
  intros H. pose proof (bullet_sub_head g) as Hh. rewrite H in Hh. by destruct g.
Qed.

Lemma numb_close_bsub (s2 : text) :
  numb_close (re_sub re_bullet [RL (u "• ")] s2) =
  match numb_close s2 with
  | Some (g, r) => Some (re_sub re_bullet [RL (u "• ")] g, re_sub re_bullet [RL (u "• ")] r)
  | None => None
  end.
Proof.
  unfold numb_close. cbv zeta.
  assert (Hg : Forall (fun c => not_in [60] c = true) (take (span (not_in [60%N]) s2) s2))
    by apply take_span_all.
  assert (Hn : length (take (span (not_in [60%N]) s2) s2) = span (not_in [60%N]) s2)
    by (rewrite length_take; pose proof (span_le (not_in [60%N]) s2); lia).
  pose proof (span_drop_head (not_in [60]) s2) as Hz.
  pose proof (take_drop (span (not_in [60%N]) s2) s2) as Hs.
  set (g0 := take (span (not_in [60%N]) s2) s2) in *.
  set (z := drop (span (not_in [60%N]) s2) s2) in *.
  pose proof (bsub_not60 g0 Hg) as Hg'.
  assert (L : (length (re_sub re_bullet [RL (u "• ")] g0) =? 0)%nat = (length g0 =? 0)%nat).
  { destruct (length g0 =? 0)%nat eqn:E.
    - apply Nat.eqb_eq, length_zero_iff_nil in E. rewrite E, re_sub_nil. reflexivity.
    - apply Nat.eqb_neq. intros Z. apply length_zero_iff_nil, (proj1 (bsub_nil_iff g0)) in Z.
      rewrite Z in E. discriminate. }
  destruct z as [|d z'] eqn:Ez.
  - rewrite <- Hs, app_nil_r.
    pose proof (span_stop _ _ [] Hg' I) as Sp. rewrite app_nil_r in Sp. rewrite Sp, drop_all.
    replace (cut_prefix [60; 47; 98; 62; 58] []) with (@None text) by reflexivity. by repeat case_match.
  - rewrite not_in60 in Hz. destruct (N.eqb_spec d 60) as [->|]; [|discriminate].
    rewrite <- Hn.
    assert (Eb : re_sub re_bullet [RL (u "• ")] s2 =
      re_sub re_bullet [RL (u "• ")] g0 ++ 60 :: re_sub re_bullet [RL (u "• ")] z')
      by (rewrite <- Hs; apply bsub_split; done || discriminate).
    rewrite Eb.
    rewrite span_stop by (done || exact Hg').
    rewrite L. destruct (length g0 =? 0)%nat; [reflexivity|].
    rewrite drop_app_length, take_app_length.
    rewrite <- (bsub_cons 60 z') by discriminate.
    rewrite bsub_strip by (repeat constructor; discriminate).
    by destruct (cut_prefix _ (60 :: z')).
Qed.

Lemma numb_rest_bsub (r : text) :
  numb_rest (re_sub re_bullet [RL (u "• ")] r) =
  match numb_rest r with
  | Some (w, g, rest) => Some (w, re_sub re_bullet [RL (u "• ")] g, re_sub re_bullet [RL (u "• ")] rest)
  | None => None
  end.
Proof.
  unfold numb_rest. cbv zeta.
  rewrite bsub_strip by (repeat constructor; discriminate).
  destruct (cut_prefix [46] r) as [s1|]; [|reflexivity]. cbn [option_map].
  destruct (ws_split s1) as (Hs & Hw & Hz).
  assert (Hj : length (take (span is_space s1) s1) = span is_space s1)
    by (rewrite length_take; pose proof (span_le is_space s1); lia).
  set (w := take (span is_space s1) s1) in *. set (z := drop (span is_space s1) s1) in *.
  assert (E1 : re_sub re_bullet [RL (u "• ")] s1 = w ++ re_sub re_bullet [RL (u "• ")] z).
  { rewrite Hs at 1. apply bsub_nonbullets. eapply Forall_impl; [exact Hw|].
    intros c Hc ->. discriminate. }
  rewrite E1, span_stop_h; [|exact Hw|by rewrite bullet_sub_head].
  rewrite drop_app_length, take_app_length, Hj.
  destruct (span is_space s1 =? 0)%nat; [reflexivity|].
  rewrite bsub_strip by (repeat constructor; discriminate).
  destruct (cut_prefix [60; 98; 62] z) as [s2|]; [|reflexivity]. cbn [option_map].
  rewrite numb_close_bsub. by destruct (numb_close s2) as [[g rest]|].
Qed.

Lemma digit_not_bullet (c : N) : is_digit c = true -> c <> 8226.
Proof. intros H ->. discriminate. Qed.

(** A bullet step does not change the gap after the number of a numbered
    bold item. *)
Lemma numb_fn_bsub (x : text) :
  numb_fn (re_sub re_bullet [RL (u "• ")] x) =
  match numb_fn x with
  | Some (ds, w, g, r) => Some (ds, w, re_sub re_bullet [RL (u "• ")] g, re_sub re_bullet [RL (u "• ")] r)
  | None => None
  end.
Proof.
  unfold numb_fn. cbv zeta.
  pose proof (take_drop (span is_digit x) x) as Hs.
  assert (Hd : Forall (fun c => is_digit c = true) (take (span is_digit x) x)) by apply take_span_all.
  pose proof (span_drop_head' is_digit x) as Hz.
  assert (Hj : length (take (span is_digit x) x) = span is_digit x)
    by (rewrite length_take; pose proof (span_le is_digit x); lia).
  set (ds := take (span is_digit x) x) in *. set (z := drop (span is_digit x) x) in *.
  assert (E1 : re_sub re_bullet [RL (u "• ")] x = ds ++ re_sub re_bullet [RL (u "• ")] z).
  { rewrite <- Hs at 1. apply bsub_nonbullets. eapply Forall_impl; [exact Hd|].
    apply digit_not_bullet. }
  rewrite E1, span_stop_h; [|exact Hd|by rewrite bullet_sub_head].
  rewrite drop_app_length, take_app_length, Hj.
  destruct (span is_digit x =? 0)%nat; [reflexivity|].
  rewrite numb_rest_bsub. by destruct (numb_rest z) as [[[w g] rest]|].
Qed.

Lemma bullet_keeps_numb_ok (s : text) :
  sfx_all numb_ok s -> sfx_all numb_ok (re_sub re_bullet [RL (u "• ")] s).
Proof.
  remember (length s) as n eqn:Hn.
  induction n as [n IH] using (well_founded_induction lt_wf) in s, Hn |- *.
  intros Hs. destruct s as [|c s']; [done|].
  destruct Hs as [H0 Hs].
  destruct (N.eqb_spec c 8226) as [->|Hc].
  - rewrite re_sub_cons.
    destruct (mt re_bullet (8226 :: s') ([], [])) as [[rest cs]|] eqn:E.
    + destruct (bullet_match _ _ _ E) as (-> & Hl & s2 & [= <-] & Hsp & ->).
      rewrite (proj2 (Nat.ltb_lt _ _) Hl).
      change (expand [RL (u "• ")] ([], [])) with [8226; 32]. cbn [app sfx_all].
      split_and!; [by apply numb_ok_nondigit|by apply numb_ok_nondigit|].
      apply (IH (length (drop (span is_space s') s'))); [subst; exact Hl|reflexivity|].
      rewrite <- (take_drop (span is_space s') s') in Hs. by apply sfx_all_app_r in Hs.
    + cbn [sfx_all]. split; [by apply numb_ok_nondigit|].
      apply (IH (length s')); [simpl in Hn; lia|reflexivity|exact Hs].
  - rewrite bsub_cons by exact Hc. cbn [sfx_all]. split.
    + unfold numb_ok in H0 |- *. rewrite <- (bsub_cons c s') by exact Hc. rewrite numb_fn_bsub.
      by destruct (numb_fn (c :: s')) as [[[[ds w] g] r]|].
    + apply (IH (length s')); [simpl in Hn; lia|reflexivity|exact Hs].
Qed.

(** The characters of step 7's output come from its input or from the
    replacement's literal parts. *)
Lemma numb_sub_chars (s : text) (c : N) :
  c ∈ re_sub re_num_b num_b_tpl s -> c ∈ s \/ c ∈ [46; 32; 60; 98; 62; 47; 58].
Proof.
  remember (length s) as n eqn:Hn.
  induction n as [n IH] using (well_founded_induction lt_wf) in s, Hn |- *.
  destruct s as [|c0 s']; [rewrite re_sub_nil; intros H; by apply elem_of_nil in H|].
  rewrite re_sub_cons.
  destruct (mt re_num_b (c0 :: s') ([], [])) as [[rest cs]|] eqn:E.
  - destruct (numb_match _ _ _ E) as (ds & w & g & F & X & Hl).
    rewrite (proj2 (Nat.ltb_lt _ _) Hl), X.
    destruct (numb_shape _ _ _ _ _ F) as (S & _). rewrite S.
    intros H. rewrite <- !app_assoc in H.
    repeat (apply elem_of_app in H as [H|H]).
    + left. apply elem_of_app. by left.
    + right. set_solver.
    + left. apply elem_of_app. right. set_solver.
    + right. set_solver.
    + destruct (IH (length rest) ltac:(subst; exact Hl) rest eq_refl H) as [H'|H']; [|by right].
      left. apply elem_of_app. right. set_solver.
  - intros H. apply elem_of_cons in H as [->|H]; [left; by left|].
    destruct (IH (length s') ltac:(simpl in Hn; lia) s' eq_refl H) as [H'|H']; [|by right].
    left. by right.
Qed.

Lemma not_bad_numb (c : N) : c ∈ [46; 32; 60; 98; 62; 47; 58] -> c ∉ [35; 42; 38].
Proof.
  intros Hc H. repeat (apply elem_of_cons in Hc as [->|Hc];
    [repeat (apply elem_of_cons in H as [H|H]; [discriminate|]); by apply elem_of_nil in H|]).
  by apply elem_of_nil in Hc.
Qed.

Lemma not_bad_tpl (t : text) (c : N) :
  t = [58] \/ t = [8226; 32] \/ t = [10; 8226; 32] -> c ∈ t -> c ∉ [35; 42; 38].
Proof.
  intros Ht Hc H. destruct Ht as [-> | [-> | ->]];
  repeat (apply elem_of_cons in Hc as [->|Hc];
    [repeat (apply elem_of_cons in H as [H|H]; [discriminate|]); by apply elem_of_nil in H|]);
  by apply elem_of_nil in Hc.
Qed.

(** Without '#', '*' and '&', steps 1, 2 and 8 leave the text as it is:
    the result is steps 3 to 7 applied in turn. *)
Lemma prepare_steps (x : text) :
  (forall c, c ∈ x -> c ∉ [35; 42; 38]) ->
  prepare_text_for_html x =
  re_sub re_bullet [RL (u "• ")] (re_sub re_num_b num_b_tpl (re_sub re_dash dash_tpl
    (re_sub re_bullet [RL (u "• ")] (re_sub re_ws_colon [RL (u ":")] x)))) /\
  (forall c, c ∈ prepare_text_for_html x -> c ∉ [35; 42; 38]).
Proof.
  intros Hx.
  assert (Hn : forall (c : N) (s : text), (forall d, d ∈ s -> d ∉ [35; 42; 38]) ->
                 c ∈ [35; 42; 38] -> c ∉ s).
  { intros c s Hs Hc Hin. exact (Hs c Hin Hc). }
  set (a := re_sub re_ws_colon [RL (u ":")] x).
  set (b := re_sub re_bullet [RL (u "• ")] a).
  set (d := re_sub re_dash dash_tpl b).
  set (e := re_sub re_num_b num_b_tpl d).
  set (y := re_sub re_bullet [RL (u "• ")] e).
  assert (Ha : forall c, c ∈ a -> c ∉ [35; 42; 38]).
  { apply plain_sub; [|exact Hx]. intros c. rewrite u_colon. apply not_bad_tpl. by left. }
  assert (Hb : forall c, c ∈ b -> c ∉ [35; 42; 38]).
  { apply plain_sub; [|exact Ha]. intros c. rewrite u_bullet_sp. apply not_bad_tpl. by right; left. }
  assert (Hd : forall c, c ∈ d -> c ∉ [35; 42; 38]).
  { apply plain_sub; [|exact Hb]. intros c. apply not_bad_tpl. by right; right. }
  assert (He : forall c, c ∈ e -> c ∉ [35; 42; 38]).
  { intros c Hc. destruct (numb_sub_chars d c Hc) as [H|H]; [by apply Hd|by apply not_bad_numb]. }
  assert (Hy : forall c, c ∈ y -> c ∉ [35; 42; 38]).
  { apply plain_sub; [|exact He]. intros c. rewrite u_bullet_sp. apply not_bad_tpl. by right; left. }
  assert (E : prepare_text_for_html x = y).
  { unfold prepare_text_for_html. cbv zeta.
    rewrite (re_sub_absent re_heading [] x 35 heading_lit) by (apply Hn; [exact Hx|left]).
    rewrite (re_sub_absent re_bold_sp _ x 42 bold_sp_lit) by (apply Hn; [exact Hx|right; left]).
    rewrite (re_sub_absent re_bold _ x 42 bold_lit) by (apply Hn; [exact Hx|right; left]).
    change [RL (10 :: u "• ")] with dash_tpl.
    change [RG 1; RL (u ". <b>"); RG 2; RL (u "</b>:")] with num_b_tpl.
    fold a b d e y.
    assert (H38 : 38 ∉ y) by (apply Hn; [exact Hy|right; right; left]).
    rewrite (str_replace_absent y (u "&lt;b&gt;") _ 38 _ eq_refl H38).
    rewrite (str_replace_absent y (u "&lt;/b&gt;") _ 38 _ eq_refl H38).
    rewrite (str_replace_absent y (u "&lt;i&gt;") _ 38 _ eq_refl H38).
    rewrite (str_replace_absent y (u "&lt;/i&gt;") _ 38 _ eq_refl H38).
    reflexivity. }
  split; [exact E|]. rewrite E. exact Hy.
Qed.

(** C6 (corrected). [prepare_text_for_html] is idempotent on every text
    without the characters '#', '*' and '&': on such a text steps 1, 2 and
    8 leave it as it is, and the output of steps 3 to 7 has no white space
    before a colon, no bullet followed by more than one space, no dash item
    and no numbered bold item whose gap is not one plain space, so that a
    second application changes nothing. *)
Theorem prepare_text_for_html_idempotent_plain (x : text) :
  ch "#" ∉ x -> ch "*" ∉ x -> ch "&" ∉ x ->
  prepare_text_for_html (prepare_text_for_html x) = prepare_text_for_html x.
Proof.
  intros H1 H2 H3.
  assert (Hx : forall c, c ∈ x -> c ∉ [35; 42; 38]).
  { intros c Hc Hb. repeat (apply elem_of_cons in Hb as [->|Hb]; [by auto|]).
    by apply elem_of_nil in Hb. }
  destruct (prepare_steps x Hx) as [E Hy].
  destruct (prepare_steps _ Hy) as [E2 _].
  rewrite E2, E.
  set (y := re_sub re_bullet [RL (u "• ")] (re_sub re_num_b num_b_tpl (re_sub re_dash dash_tpl
    (re_sub re_bullet [RL (u "• ")] (re_sub re_ws_colon [RL (u ":")] x))))).
  assert (Ny : no_space_colon y = true).
  { apply bullet_keeps_nsc, numb_keeps_nsc, dash_keeps_nsc, bullet_keeps_nsc, ws_colon_out. }
  assert (By : bullet_ok y = true) by apply bullet_out.
  assert (Dy : dash_free y) by apply bullet_keeps_dash_free, numb_keeps_dash_free, dash_out.
  assert (Oy : sfx_all numb_ok y) by apply bullet_keeps_numb_ok, numb_out.
  rewrite (ws_colon_id y Ny), (bullet_id y By), (dash_id y Dy), (numb_id y Oy), (bullet_id y By).
  reflexivity.
Qed.

(** C6 counterexample: the heading step removes one marker ['### '] of
    ["#### ## x"] and leaves ["### x"], whose marker a second pass removes:
    the transformation is not idempotent. *)
Lemma prepare_text_for_html_not_idempotent :
  prepare_text_for_html (u "#### ## x") = u "### x" /\
  prepare_text_for_html (prepare_text_for_html (u "#### ## x")) = u "x".
Proof. split; vm_compute; reflexivity. Qed.

(** The other two excluded characters are needed as well: the bold step
    leaves a new pair of ['**'] around a bold label, and the last step
    writes a [<b>] tag that step 7 reads on the second pass. *)
Lemma prepare_text_for_html_star_not_idempotent :
  prepare_text_for_html (u "****a****") = u "**<b>a</b>**" /\
  prepare_text_for_html (prepare_text_for_html (u "****a****")) = u "<b><b>a</b></b>".
Proof. split; vm_compute; reflexivity. Qed.

Lemma prepare_text_for_html_amp_not_idempotent :
  prepare_text_for_html (u "1.  &lt;b&gt;x&lt;/b&gt;:") = u "1.  <b>x</b>:" /\
  prepare_text_for_html (prepare_text_for_html (u "1.  &lt;b&gt;x&lt;/b&gt;:")) =
  u "1. <b>x</b>:".
Proof. split; vm_compute; reflexivity. Qed.

(** The C6 theorem at a two-line text with a numbered bold item whose gap
    is two spaces, a dash item, a spaced colon and a wide bullet. *)
Lemma prepare_text_for_html_idempotent_plain_witness :
  prepare_text_for_html (u "12.  <b>Hora</b>:" ++ 10 :: u "  -   a :  •   b") =
    u "12. <b>Hora</b>:" ++ 10 :: u "• a:  • b" /\
  prepare_text_for_html (prepare_text_for_html (u "12.  <b>Hora</b>:" ++ 10 :: u "  -   a :  •   b")) =
  prepare_text_for_html (u "12.  <b>Hora</b>:" ++ 10 :: u "  -   a :  •   b").
Proof.
  split; [vm_compute; reflexivity|].
  apply prepare_text_for_html_idempotent_plain;
    apply (bool_decide_unpack _); vm_compute; reflexivity.
Defined.

(** ** The manager's store *)

Module ManagerFacts.
Import Manager.

Lemma dict_at_update (s : mstate) (l l' : loc) (f : dict -> dict) :
  dict_at (dict_update l f s).2 l' = if decide (l' = l) then f (dict_at s l) else dict_at s l'.
Proof.
  unfold dict_at, dict_update; simpl.
  destruct (decide (l' = l)) as [->|Hne].
  - by rewrite lookup_insert_eq.
  - by rewrite lookup_insert_ne by congruence.
Qed.

Lemma dict_update_frame (s : mstate) (l : loc) (f : dict -> dict) :
  ms_cm (dict_update l f s).2 = ms_cm s /\
  ms_creates (dict_update l f s).2 = ms_creates s /\
  ms_provider (dict_update l f s).2 = ms_provider s.
Proof. done. Qed.

Lemma sync_bots_cons (nm : text) (l : loc) (bs : list (text * loc)) (g : Z) (t : text) s :
  (sync_bots ((nm, l) :: bs) g t s).2 = (sync_bots bs g t (dict_update l (insert g t) s).2).2.
Proof. reflexivity. Qed.

Lemma del_from_bots_cons (nm : text) (l : loc) (bs : list (text * loc)) (g : Z) s :
  (del_from_bots ((nm, l) :: bs) g s).2 =
  (del_from_bots bs g (if bool_decide (is_Some (dict_at s l !! g))
                       then (dict_update l (delete g) s).2 else s)).2.
Proof. simpl. unfold mbind, MS_bind, get_state. by case_bool_decide. Qed.

Lemma sync_bots_spec (bots : list (text * loc)) (g : Z) (t : text) (s : mstate) :
  ms_cm (sync_bots bots g t s).2 = ms_cm s /\
  ms_creates (sync_bots bots g t s).2 = ms_creates s /\
  ms_provider (sync_bots bots g t s).2 = ms_provider s /\
  (forall l, dict_at s l !! g = Some t -> dict_at (sync_bots bots g t s).2 l !! g = Some t) /\
  (forall nm l, (nm, l) ∈ bots -> dict_at (sync_bots bots g t s).2 l !! g = Some t).
Proof.
  revert s. induction bots as [|[nm0 l0] bs IH]; intros s.
  - split_and!; auto. intros nm l Hin. by apply elem_of_nil in Hin.
  - rewrite !sync_bots_cons.
    destruct (IH (dict_update l0 (insert g t) s).2) as (H1 & H2 & H3 & H4 & H5).
    split_and!; auto.
    + intros l Hl. apply H4. rewrite dict_at_update.
      destruct (decide (l = l0)) as [->|]; [by rewrite lookup_insert_eq|done].
    + intros nm l Hin. apply elem_of_cons in Hin as [[= -> ->]|Hin]; [|eauto].
      apply H4. rewrite dict_at_update, decide_True by done. by rewrite lookup_insert_eq.
Qed.

Lemma del_from_bots_spec (bots : list (text * loc)) (g : Z) (s : mstate) :
  ms_cm (del_from_bots bots g s).2 = ms_cm s /\
  ms_creates (del_from_bots bots g s).2 = ms_creates s /\
  ms_provider (del_from_bots bots g s).2 = ms_provider s /\
  (forall l, dict_at s l !! g = None -> dict_at (del_from_bots bots g s).2 l !! g = None) /\
  (forall nm l, (nm, l) ∈ bots -> dict_at (del_from_bots bots g s).2 l !! g = None).
Proof.
  revert s. induction bots as [|[nm0 l0] bs IH]; intros s.
  - split_and!; auto. intros nm l Hin. by apply elem_of_nil in Hin.
  - rewrite !del_from_bots_cons. case_bool_decide as Hin0.
    + destruct (IH (dict_update l0 (delete g) s).2) as (H1 & H2 & H3 & H4 & H5).
      split_and!; auto.
      * intros l Hl. apply H4. rewrite dict_at_update.
        destruct (decide (l = l0)) as [->|]; [by rewrite lookup_delete_eq|done].
      * intros nm l Hin. apply elem_of_cons in Hin as [[= -> ->]|Hin]; [|eauto].
        apply H4. rewrite dict_at_update, decide_True by done. by rewrite lookup_delete_eq.
    + destruct (IH s) as (H1 & H2 & H3 & H4 & H5). split_and!; auto.
      intros nm l Hin. apply elem_of_cons in Hin as [[= -> ->]|Hin]; [|eauto].
      apply H4. by apply eq_None_not_Some.
Qed.

End ManagerFacts.

Module ManagerClaims.
Import Manager ManagerFacts.

Lemma end_conversation_eq (g : Z) (s : mstate) :
  end_conversation g s =
  if bool_decide (is_Some (dict_at s (cm_threads (ms_cm s)) !! g))
  then (true, (del_from_bots (cm_bots (ms_cm s)) g
                 (dict_update (cm_threads (ms_cm s)) (delete g) s).2).2)
  else (false, s).
Proof.
  unfold end_conversation, mbind, MS_bind, get_state.
  case_bool_decide; [|reflexivity].
  cbn -[del_from_bots]. destruct (del_from_bots _ g _). reflexivity.
Qed.

Lemma truthy_nonempty (t : text) : t <> [] -> truthy_str (Some t) = Some t.
Proof. destruct t; [congruence|reflexivity]. Qed.

Lemma set_thread_body_existing (g : Z) (hint : option text) (s : mstate) (e : text) :
  truthy_str (dict_at s (cm_threads (ms_cm s)) !! g) = Some e ->
  set_thread_body g hint s = (Some e, s).
Proof.
  intros He. unfold set_thread_body.
  cbv beta iota delta [mbind MS_bind get_thread_id]. rewrite He. reflexivity.
Qed.

(** Recording [t] for [g] in the store and in every bot's map. *)
Lemma record_spec (g : Z) (t : text) (s : mstate) :
  let s' := (sync_bots (cm_bots (ms_cm s)) g t
               (dict_update (cm_threads (ms_cm s)) (insert g t) s).2).2 in
  ms_cm s' = ms_cm s /\ ms_creates s' = ms_creates s /\ ms_provider s' = ms_provider s /\
  dict_at s' (cm_threads (ms_cm s)) !! g = Some t /\
  (forall nm l, (nm, l) ∈ cm_bots (ms_cm s) -> dict_at s' l !! g = Some t).
Proof.
  set (s1 := (dict_update (cm_threads (ms_cm s)) (insert g t) s).2).
  destruct (sync_bots_spec (cm_bots (ms_cm s)) g t s1) as (H1 & H2 & H3 & H4 & H5).
  simpl. split_and!; auto.
  apply H4. unfold s1. rewrite dict_at_update, decide_True by done. apply lookup_insert_eq.
Qed.

Lemma set_thread_body_hint (g : Z) (t : text) (s : mstate) :
  truthy_str (dict_at s (cm_threads (ms_cm s)) !! g) = None -> t <> [] ->
  set_thread_body g (Some t) s =
  (Some t, (sync_bots (cm_bots (ms_cm s)) g t
              (dict_update (cm_threads (ms_cm s)) (insert g t) s).2).2).
Proof.
  intros Hn Ht. unfold set_thread_body.
  cbv beta iota zeta delta [mbind MS_bind get_thread_id get_state]. rewrite Hn.
  rewrite truthy_nonempty by done. cbn -[sync_bots].
  destruct (sync_bots _ g t _). reflexivity.
Qed.

Lemma set_thread_body_create (g : Z) (s : mstate) (h : text) :
  truthy_str (dict_at s (cm_threads (ms_cm s)) !! g) = None ->
  cm_bots (ms_cm s) <> [] ->
  ms_provider s (ms_creates s) = Some h -> h <> [] ->
  set_thread_body g None s =
  (Some h, (sync_bots (cm_bots (ms_cm s)) g h
              (dict_update (cm_threads (ms_cm s)) (insert g h)
                 (mkMState (ms_cm s) (ms_heap s) (S (ms_creates s)) (ms_provider s))).2).2).
Proof.
  intros Hn Hb Hp Hh. unfold set_thread_body.
  cbv beta iota zeta delta [mbind MS_bind get_thread_id get_state]. rewrite Hn.
  destruct (cm_bots (ms_cm s)) as [|b bs] eqn:Eb; [congruence|].
  cbv beta iota delta [create_thread truthy_str]. rewrite Hp.
  destruct h as [|c h']; [congruence|].
  cbn -[sync_bots]. destruct (sync_bots _ g _ _). reflexivity.
Qed.

Lemma set_locks_fields (f : gmap Z bool -> gmap Z bool) (s : mstate) :
  let s' := (set_locks f s).2 in
  ms_heap s' = ms_heap s /\ ms_creates s' = ms_creates s /\ ms_provider s' = ms_provider s /\
  cm_threads (ms_cm s') = cm_threads (ms_cm s) /\ cm_bots (ms_cm s') = cm_bots (ms_cm s) /\
  cm_user_data (ms_cm s') = cm_user_data (ms_cm s) /\ cm_locks (ms_cm s') = f (cm_locks (ms_cm s)).
Proof. done. Qed.

Lemma get_thread_lock_fields (g : Z) (s : mstate) :
  let s' := (get_thread_lock g s).2 in
  ms_heap s' = ms_heap s /\ ms_creates s' = ms_creates s /\ ms_provider s' = ms_provider s /\
  cm_threads (ms_cm s') = cm_threads (ms_cm s) /\ cm_bots (ms_cm s') = cm_bots (ms_cm s) /\
  cm_user_data (ms_cm s') = cm_user_data (ms_cm s) /\
  is_Some (cm_locks (ms_cm s') !! g).
Proof.
  unfold get_thread_lock. cbv beta iota delta [mbind MS_bind get_state].
  destruct (cm_locks (ms_cm s) !! g) eqn:E; simpl.
  - split_and!; eauto.
  - split_and!; auto. rewrite lookup_insert_eq. eauto.
Qed.

Lemma set_thread_id_eq (g : Z) (hint : option text) (s : mstate) :
  set_thread_id g hint s =
  let s1 := (acquire g (get_thread_lock g s).2).2 in
  ((set_thread_body g hint s1).1, (release g (set_thread_body g hint s1).2).2).
Proof.
  unfold set_thread_id. cbv beta iota zeta delta [mbind MS_bind].
  destruct (get_thread_lock g s) as [[] s0]. cbn -[set_thread_body].
  destruct (set_thread_body _ _ _). reflexivity.
Qed.

(** Taking and releasing a free lock leaves the state as it was. *)
Lemma lock_round_trip (g : Z) (s : mstate) :
  cm_locks (ms_cm s) !! g = Some false ->
  (release g (acquire g (get_thread_lock g s).2).2).2 = s.
Proof.
  intros Hl. destruct s as [[th bots ud locks] heap cr pv]. simpl in *.
  unfold get_thread_lock. cbv beta iota delta [mbind MS_bind get_state]. simpl.
  rewrite Hl. simpl. rewrite insert_insert_eq, insert_id by done. reflexivity.
Qed.

Lemma dict_at_heap (s s' : mstate) : ms_heap s' = ms_heap s -> dict_at s' = dict_at s.
Proof. unfold dict_at. by intros ->. Qed.

(** The state in which the body of [set_thread_id] runs. *)
Lemma locked_state_fields (g : Z) (s : mstate) :
  let s1 := (acquire g (get_thread_lock g s).2).2 in
  dict_at s1 = dict_at s /\ ms_creates s1 = ms_creates s /\ ms_provider s1 = ms_provider s /\
  cm_threads (ms_cm s1) = cm_threads (ms_cm s) /\ cm_bots (ms_cm s1) = cm_bots (ms_cm s) /\
  cm_user_data (ms_cm s1) = cm_user_data (ms_cm s).
Proof.
  pose proof (get_thread_lock_fields g s) as (H1 & H2 & H3 & H4 & H5 & H6 & _).
  cbv zeta. unfold acquire.
  pose proof (set_locks_fields (insert g true) (get_thread_lock g s).2)
    as (K1 & K2 & K3 & K4 & K5 & K6 & _).
  cbv zeta in *. split_and!; try congruence. apply dict_at_heap. congruence.
Qed.

Lemma release_fields (g : Z) (s : mstate) :
  let s' := (release g s).2 in
  dict_at s' = dict_at s /\ ms_creates s' = ms_creates s /\ ms_provider s' = ms_provider s /\
  cm_threads (ms_cm s') = cm_threads (ms_cm s) /\ cm_bots (ms_cm s') = cm_bots (ms_cm s) /\
  cm_user_data (ms_cm s') = cm_user_data (ms_cm s) /\ cm_locks (ms_cm s') !! g = Some false.
Proof.
  cbv zeta. unfold release.
  pose proof (set_locks_fields (insert g false) s) as (K1 & K2 & K3 & K4 & K5 & K6 & K7).
  cbv zeta in *. split_and!; try congruence.
  - apply dict_at_heap. congruence.
  - rewrite K7. apply lookup_insert_eq.
Qed.

(** A group that already has a thread keeps it: the call returns it and
    writes nothing to the dicts. *)
Lemma set_thread_id_existing (s : mstate) (g : Z) (hint : option text) (e : text) :
  truthy_str (dict_at s (cm_threads (ms_cm s)) !! g) = Some e ->
  (set_thread_id g hint s).1 = Some e /\
  dict_at (set_thread_id g hint s).2 = dict_at s /\
  ms_creates (set_thread_id g hint s).2 = ms_creates s /\
  cm_locks (ms_cm (set_thread_id g hint s).2) !! g = Some false.
Proof.
  intros He. rewrite set_thread_id_eq. cbv zeta.
  pose proof (locked_state_fields g s) as (L1 & L2 & L3 & L4 & L5 & L6). cbv zeta in *.
  rewrite (set_thread_body_existing g hint _ e) by (rewrite L1, L4; exact He). cbn [fst snd].
  pose proof (release_fields g (acquire g (get_thread_lock g s).2).2)
    as (R1 & R2 & R3 & R4 & R5 & R6 & R7). cbv zeta in *.
  split_and!; congruence.
Qed.

(** C8 (corrected). For a non-empty hint [t]: if [g] has no thread yet,
    [set_thread_id(g, t)] records [t] in the store and in every bot's
    map, returns [t], calls no provider, and calling it again returns [t]
    and changes nothing; if [g] already has a thread [e], it returns [e]
    and the dicts are left as they were. *)
Theorem set_thread_id_with_hint (s : mstate) (g : Z) (t : text) :
  t <> [] ->
  (truthy_str (dict_at s (cm_threads (ms_cm s)) !! g) = None ->
     (set_thread_id g (Some t) s).1 = Some t /\
     ms_creates (set_thread_id g (Some t) s).2 = ms_creates s /\
     (get_thread_id g (set_thread_id g (Some t) s).2).1 = Some t /\
     (forall nm l, (nm, l) ∈ cm_bots (ms_cm s) ->
        dict_at (set_thread_id g (Some t) s).2 l !! g = Some t) /\
     set_thread_id g (Some t) (set_thread_id g (Some t) s).2
       = (Some t, (set_thread_id g (Some t) s).2)) /\
  (forall e, truthy_str (dict_at s (cm_threads (ms_cm s)) !! g) = Some e ->
     (set_thread_id g (Some t) s).1 = Some e /\
     dict_at (set_thread_id g (Some t) s).2 = dict_at s /\
     ms_creates (set_thread_id g (Some t) s).2 = ms_creates s).
Proof.
  intros Ht. split.
  - intros Hn.
    assert (Hfirst : set_thread_id g (Some t) s =
      (Some t, (release g (sync_bots (cm_bots (ms_cm (acquire g (get_thread_lock g s).2).2)) g t
         (dict_update (cm_threads (ms_cm (acquire g (get_thread_lock g s).2).2)) (insert g t)
            (acquire g (get_thread_lock g s).2).2).2).2).2)).
    { rewrite set_thread_id_eq. cbv zeta.
      pose proof (locked_state_fields g s) as (L1 & _ & _ & L4 & _). cbv zeta in *.
      rewrite set_thread_body_hint by (try rewrite L1, L4; done). reflexivity. }
    rewrite Hfirst. cbn [fst snd].
    set (s1 := (acquire g (get_thread_lock g s).2).2).
    pose proof (locked_state_fields g s) as (L1 & L2 & L3 & L4 & L5 & L6). cbv zeta in *.
    fold s1 in L1, L2, L3, L4, L5, L6.
    pose proof (record_spec g t s1) as (P1 & P2 & P3 & P4 & P5). cbv zeta in *.
    set (s2 := (sync_bots (cm_bots (ms_cm s1)) g t
                 (dict_update (cm_threads (ms_cm s1)) (insert g t) s1).2).2) in *.
    pose proof (release_fields g s2) as (R1 & R2 & R3 & R4 & R5 & R6 & R7). cbv zeta in *.
    set (s3 := (release g s2).2) in *.
    assert (Hs3 : dict_at s3 (cm_threads (ms_cm s3)) !! g = Some t) by congruence.
    split_and!.
    + reflexivity.
    + congruence.
    + unfold get_thread_id. simpl. exact Hs3.
    + intros nm l Hin. rewrite R1. apply (P5 nm). congruence.
    + destruct (set_thread_id_existing s3 g (Some t) t) as (E1 & E2 & E3 & E4).
      { rewrite Hs3. by apply truthy_nonempty. }
      rewrite set_thread_id_eq. cbv zeta.
      rewrite (set_thread_body_existing g (Some t) _ t).
      * cbn [fst snd]. f_equal. by apply lock_round_trip.
      * pose proof (locked_state_fields g s3) as (M1 & _ & _ & M4 & _). cbv zeta in *.
        rewrite M1, M4, Hs3. by apply truthy_nonempty.
  - intros e He. destruct (set_thread_id_existing s g (Some t) e He) as (E1 & E2 & E3 & _).
    auto.
Qed.

(** C8: a counterexample. Group 5 already uses "thread_a"; with the hint
    "thread_b" the call returns "thread_a" and records nothing. *)
Lemma set_thread_id_hint_ignored :
  (set_thread_id 5 (Some (u "thread_b")) (group5_state (u "thread_a"))).1
    = Some (u "thread_a") /\
  (get_thread_id 5 (set_thread_id 5 (Some (u "thread_b")) (group5_state (u "thread_a"))).2).1
    = Some (u "thread_a").
Proof. vm_compute. split; reflexivity. Qed.

(** The C8 theorem on a one-bot manager where group 5 has no thread. *)
Lemma set_thread_id_with_hint_witness :
  truthy_str (dict_at (Concurrent.one_bot_state Concurrent.steady_provider)
     (cm_threads (ms_cm (Concurrent.one_bot_state Concurrent.steady_provider))) !! 5%Z) = None /\
  (set_thread_id 5 (Some (u "thread_b")) (Concurrent.one_bot_state Concurrent.steady_provider)).1
    = Some (u "thread_b").
Proof.
  assert (Hn : truthy_str (dict_at (Concurrent.one_bot_state Concurrent.steady_provider)
     (cm_threads (ms_cm (Concurrent.one_bot_state Concurrent.steady_provider))) !! 5%Z) = None)
    by (vm_compute; reflexivity).
  split; [exact Hn|].
  assert (Ht : u "thread_b" <> []) by (vm_compute; intros H; discriminate H).
  exact (proj1 (proj1 (set_thread_id_with_hint
    (Concurrent.one_bot_state Concurrent.steady_provider) 5 (u "thread_b") Ht) Hn)).
Defined.


(** C9. [end_conversation(g)]: when [g] has a thread, it returns [True],
    the manager's store and every registered bot's handler map no longer
    map [g] (so [get_thread_id(g)] is [None]), and the manager's other
    fields, [user_data] and [_thread_locks] among them, are unchanged; when
    [g] has none, it returns [False] and changes nothing. *)
Theorem end_conversation_spec (s : mstate) (g : Z) :
  (is_Some (dict_at s (cm_threads (ms_cm s)) !! g) ->
     (end_conversation g s).1 = true /\
     (get_thread_id g (end_conversation g s).2).1 = None /\
     (forall nm l, (nm, l) ∈ cm_bots (ms_cm s) ->
        dict_at (end_conversation g s).2 l !! g = None) /\
     cm_user_data (ms_cm (end_conversation g s).2) = cm_user_data (ms_cm s) /\
     cm_locks (ms_cm (end_conversation g s).2) = cm_locks (ms_cm s) /\
     ms_cm (end_conversation g s).2 = ms_cm s) /\
  (dict_at s (cm_threads (ms_cm s)) !! g = None ->
     end_conversation g s = (false, s)).
Proof.
  rewrite end_conversation_eq. split.
  - intros Hin. rewrite bool_decide_eq_true_2 by done.
    set (s1 := (dict_update (cm_threads (ms_cm s)) (delete g) s).2).
    destruct (del_from_bots_spec (cm_bots (ms_cm s)) g s1) as (H1 & _ & _ & H4 & H5).
    assert (Hcm : ms_cm s1 = ms_cm s) by reflexivity.
    assert (Hg : dict_at s1 (cm_threads (ms_cm s)) !! g = None).
    { unfold s1. rewrite dict_at_update, decide_True by done. apply lookup_delete_eq. }
    destruct (del_from_bots (cm_bots (ms_cm s)) g s1) as [u2 s2]. simpl in *.
    split_and!; try congruence; auto.
    unfold get_thread_id. simpl. rewrite H1. auto.
  - intros Hnone. rewrite bool_decide_eq_false_2; [done|].
    rewrite Hnone. apply is_Some_None.
Qed.

Lemma end_conversation_spec_witness :
  (end_conversation 5 (group5_state (u "thread_a"))).1 = true /\
  (get_thread_id 5 (end_conversation 5 (group5_state (u "thread_a"))).2).1 = None.
Proof.
  destruct (end_conversation_spec (group5_state (u "thread_a")) 5) as [H _].
  destruct H as (H1 & H2 & _).
  - vm_compute. eauto.
  - split; [exact H1 | exact H2].
Defined.


End ManagerClaims.

Module ConcurrentFacts.
Import Manager ManagerFacts ManagerClaims Concurrent.

Lemma rtc_invariant (g : Z) (P : sys -> Prop) (x y : sys) :
  (forall a b, P a -> step g a b -> P b) -> P x -> rtc (step g) x y -> P y.
Proof. intros Hs Hx Hr. induction Hr; eauto. Qed.

Lemma run_body_eq (g : Z) (s : mstate) :
  run_body g s = ((set_thread_body g None s).1, (release g (set_thread_body g None s).2).2).
Proof.
  unfold run_body. cbv beta iota zeta delta [mbind MS_bind].
  destruct (set_thread_body g None s). reflexivity.
Qed.

Lemma truthy_some (o : option text) (h : text) :
  truthy_str o = Some h -> o = Some h /\ h <> [].
Proof. destruct o as [[|c t]|]; simpl; intros E; try discriminate. injection E as <-. done. Qed.

(** [set_thread_id] without a hint, when no bot is registered:
    [next(iter({}.values()))] raises, and the call returns [None]. *)
Lemma set_thread_body_nobots (g : Z) (s : mstate) :
  truthy_str (dict_at s (cm_threads (ms_cm s)) !! g) = None ->
  cm_bots (ms_cm s) = [] ->
  set_thread_body g None s = (None, s).
Proof.
  intros Hn Hb. unfold set_thread_body.
  cbv beta iota zeta delta [mbind MS_bind get_thread_id get_state]. rewrite Hn, Hb.
  reflexivity.
Qed.

(** ... and when [threads.create()] fails or gives no id: the creation is
    counted and the call returns [None]. *)
Lemma set_thread_body_fail (g : Z) (s : mstate) :
  truthy_str (dict_at s (cm_threads (ms_cm s)) !! g) = None ->
  cm_bots (ms_cm s) <> [] ->
  truthy_str (ms_provider s (ms_creates s)) = None ->
  set_thread_body g None s =
  (None, mkMState (ms_cm s) (ms_heap s) (S (ms_creates s)) (ms_provider s)).
Proof.
  intros Hn Hb Hp. unfold set_thread_body.
  cbv beta iota zeta delta [mbind MS_bind get_thread_id get_state]. rewrite Hn.
  destruct (cm_bots (ms_cm s)) as [|b bs] eqn:Eb; [congruence|].
  change (truthy_str None) with (@None text).
  cbv beta iota delta [create_thread]. rewrite Hp. reflexivity.
Qed.

Lemma set_thread_body_frame (g : Z) (s : mstate) :
  ms_cm (set_thread_body g None s).2 = ms_cm s /\
  ms_provider (set_thread_body g None s).2 = ms_provider s.
Proof.
  destruct (truthy_str (dict_at s (cm_threads (ms_cm s)) !! g)) as [e|] eqn:He.
  { by rewrite (set_thread_body_existing g None s e He). }
  destruct (cm_bots (ms_cm s)) as [|b bs] eqn:Eb.
  { by rewrite set_thread_body_nobots. }
  destruct (truthy_str (ms_provider s (ms_creates s))) as [h|] eqn:Ep.
  - destruct (truthy_some _ _ Ep) as [Hp Hh].
    rewrite (set_thread_body_create g s h) by (rewrite ?Eb; done).
    set (s' := mkMState (ms_cm s) (ms_heap s) (S (ms_creates s)) (ms_provider s)).
    pose proof (record_spec g h s') as (P1 & _ & P3 & _). cbv zeta in *.
    exact (conj P1 P3).
  - rewrite set_thread_body_fail by (rewrite ?Eb; done). done.
Qed.

(** Creating the lock and taking it change none of the dicts. *)
Lemma lock_steps_fields (g : Z) (s s' : mstate) :
  s' = (get_thread_lock g s).2 \/ s' = (acquire g s).2 ->
  dict_at s' = dict_at s /\ ms_creates s' = ms_creates s /\ ms_provider s' = ms_provider s /\
  cm_threads (ms_cm s') = cm_threads (ms_cm s) /\ cm_bots (ms_cm s') = cm_bots (ms_cm s).
Proof.
  intros [-> | ->].
  - pose proof (get_thread_lock_fields g s) as (H1 & H2 & H3 & H4 & H5 & _).
    cbv zeta in *. split_and!; first [by apply dict_at_heap | auto].
  - unfold acquire.
    pose proof (set_locks_fields (insert g true) s) as (K1 & K2 & K3 & K4 & K5 & _).
    cbv zeta in *. split_and!; first [by apply dict_at_heap | auto].
Qed.

Lemma step_frame (g : Z) T B pv (a b : sys) :
  frame T B pv a -> step g a b -> frame T B pv b /\ length (sy_tasks b) = length (sy_tasks a).
Proof.
  intros (F1 & F2 & F3) Hs. unfold frame.
  destruct Hs as [i s ts Hi | i s ts Hi Hl | i s ts Hi]; cbn [sy_st sy_tasks] in *;
    rewrite ?length_insert.
  - destruct (lock_steps_fields g s _ (or_introl eq_refl)) as (_ & _ & H3 & H4 & H5).
    split_and!; congruence.
  - destruct (lock_steps_fields g s _ (or_intror eq_refl)) as (_ & _ & H3 & H4 & H5).
    split_and!; congruence.
  - rewrite run_body_eq. simpl.
    destruct (set_thread_body_frame g s) as [S1 S2].
    pose proof (release_fields g (set_thread_body g None s).2) as (_ & _ & R3 & R4 & R5 & _).
    cbv zeta in *. split_and!; congruence.
Qed.

(** Once [g] has thread [h], every later call returns [h] and creates nothing. *)
Lemma resolved_step (g : Z) (h : text) (c : nat) (a b : sys) :
  resolved g h c a -> step g a b -> resolved g h c b.
Proof.
  intros (H1 & H2 & H3) Hs. unfold resolved.
  destruct Hs as [i s ts Hi | i s ts Hi Hl | i s ts Hi]; cbn [sy_st sy_tasks] in *.
  - destruct (lock_steps_fields g s _ (or_introl eq_refl)) as (D1 & D2 & _ & D4 & _).
    split_and!; [congruence|congruence|]. apply Forall_insert; [done|]. right. exact I.
  - destruct (lock_steps_fields g s _ (or_intror eq_refl)) as (D1 & D2 & _ & D4 & _).
    split_and!; [congruence|congruence|]. apply Forall_insert; [done|]. right. exact I.
  - rewrite run_body_eq, (set_thread_body_existing g None s h H1). cbn [fst snd sy_st sy_tasks].
    pose proof (release_fields g s) as (R1 & R2 & _ & R4 & _). cbv zeta in *.
    split_and!; [congruence|congruence|]. apply Forall_insert; [done|]. by left.
Qed.

(** Before [g] has a thread, the first body to run creates it with the
    provider's next answer [h]. *)
Lemma unresolved_step (g : Z) (h : text) (c : nat) T B pv (a b : sys) :
  B <> [] -> pv c = Some h -> h <> [] -> frame T B pv a ->
  unresolved g c a -> step g a b -> unresolved g c b \/ resolved g h (S c) b.
Proof.
  intros HB Hp Hh (F1 & F2 & F3) (H1 & H2 & H3) Hs. unfold unresolved, resolved.
  destruct Hs as [i s ts Hi | i s ts Hi Hl | i s ts Hi]; cbn [sy_st sy_tasks] in *.
  - destruct (lock_steps_fields g s _ (or_introl eq_refl)) as (D1 & D2 & _ & D4 & _).
    left. split_and!; [congruence|congruence|]. apply Forall_insert; [done|]. exact I.
  - destruct (lock_steps_fields g s _ (or_intror eq_refl)) as (D1 & D2 & _ & D4 & _).
    left. split_and!; [congruence|congruence|]. apply Forall_insert; [done|]. exact I.
  - right. rewrite run_body_eq.
    rewrite (set_thread_body_create g s h) by congruence. cbn [fst snd sy_st sy_tasks].
    set (s' := mkMState (ms_cm s) (ms_heap s) (S (ms_creates s)) (ms_provider s)).
    pose proof (record_spec g h s') as (P1 & P2 & _ & P4 & _). cbv zeta in *.
    change (ms_cm s') with (ms_cm s) in *.
    set (s2 := (sync_bots (cm_bots (ms_cm s)) g h
                 (dict_update (cm_threads (ms_cm s)) (insert g h) s').2).2) in *.
    pose proof (release_fields g s2) as (R1 & R2 & _ & R4 & _). cbv zeta in *.
    split_and!.
    + rewrite R1, R4, P1, P4. by apply truthy_nonempty.
    + rewrite R2, P2. simpl. congruence.
    + apply Forall_insert; [|by left]. eapply Forall_impl; [exact H3|]. intros p Hn. by right.
Qed.

Lemma step_fun_step (g : Z) (i : nat) (x y : sys) : step_fun g i x = Some y -> step g x y.
Proof.
  destruct x as [s ts]. unfold step_fun. cbn [sy_st sy_tasks].
  destruct (ts !! i) as [[| | |r]|] eqn:Ei; try discriminate.
  - intros [= <-]. by apply step_lock.
  - destruct (cm_locks (ms_cm s) !! g) as [[]|] eqn:El; try discriminate.
    intros [= <-]. by apply step_acquire.
  - intros [= <-]. by apply step_body.
Qed.

Lemma run_sched_rtc (g : Z) (sched : list nat) (x y : sys) :
  run_sched g sched x = Some y -> rtc (step g) x y.
Proof.
  revert x. induction sched as [|i sched IH]; intros x; simpl.
  - intros [= ->]. apply rtc_refl.
  - destruct (step_fun g i x) as [x'|] eqn:E; [|discriminate].
    intros H. eapply rtc_l; [apply (step_fun_step g i x x' E)| by apply IH].
Qed.

Lemma run_to_rtc (g : Z) (sched : list nat) (x : sys) :
  is_Some (run_sched g sched x) -> rtc (step g) x (run_to g sched x).
Proof.
  intros [y Hy]. unfold run_to. rewrite Hy. by apply (run_sched_rtc g sched).
Qed.

End ConcurrentFacts.

Module ConcurrentClaims.
Import Manager ManagerFacts ManagerClaims Concurrent ConcurrentFacts.

(** C2 (corrected). [N > 0] concurrent calls [set_thread_id(g)] without a
    hint, under any interleaving that lets them all return: if [g] already
    has a thread [e], no provider thread is created and all [N] calls
    return [e]; otherwise, provided some bot is registered and the
    provider's next [threads.create()] succeeds with a non-empty id [h],
    exactly one thread is created and all [N] calls return [h]. *)
Theorem concurrent_resolution (s0 : mstate) (g : Z) (n : nat) (x : sys) :
  (0 < n)%nat -> rtc (step g) (init s0 n) x -> all_done (sy_tasks x) ->
  length (sy_tasks x) = n /\
  (forall e, truthy_str (dict_at s0 (cm_threads (ms_cm s0)) !! g) = Some e ->
     ms_creates (sy_st x) = ms_creates s0 /\ Forall (eq (PDone (Some e))) (sy_tasks x)) /\
  (truthy_str (dict_at s0 (cm_threads (ms_cm s0)) !! g) = None ->
   cm_bots (ms_cm s0) <> [] ->
   forall h, ms_provider s0 (ms_creates s0) = Some h -> h <> [] ->
     ms_creates (sy_st x) = S (ms_creates s0) /\ Forall (eq (PDone (Some h))) (sy_tasks x)).
Proof.
  intros Hn Hr Hd.
  set (T := cm_threads (ms_cm s0)). set (B := cm_bots (ms_cm s0)).
  set (pv := ms_provider s0). set (c0 := ms_creates s0).
  assert (Hfr : frame T B pv x /\ length (sy_tasks x) = n).
  { apply (rtc_invariant g (fun y => frame T B pv y /\ length (sy_tasks y) = n) (init s0 n));
      [| |exact Hr].
    - intros a b [Fa La] Hs. destruct (step_frame g T B pv a b Fa Hs). split; congruence.
    - split; [done|]. apply length_replicate. }
  destruct Hfr as [Hfr Hlen].
  assert (Hfin : forall h c, resolved g h c x -> Forall (eq (PDone (Some h))) (sy_tasks x)).
  { intros h c (_ & _ & Hf). unfold all_done in Hd. rewrite Forall_forall in *.
    intros p Hp. specialize (Hf p Hp). specialize (Hd p Hp).
    destruct Hf as [-> | Hnd]; [done|]. destruct p; done. }
  split_and!; [exact Hlen| |].
  - intros e He.
    assert (Hres : resolved g e c0 x).
    { apply (rtc_invariant g (resolved g e c0) (init s0 n)); [| |exact Hr].
      - intros a b. apply resolved_step.
      - split_and!; [exact He|reflexivity|]. apply Forall_replicate. by right. }
    split; [apply Hres | exact (Hfin e c0 Hres)].
  - intros Hnone HB h Hp Hh.
    assert (Hinv : unresolved g c0 x \/ resolved g h (S c0) x).
    { apply (rtc_invariant g (fun y => frame T B pv y /\
               (unresolved g c0 y \/ resolved g h (S c0) y)) (init s0 n)); [| |exact Hr].
      - intros a b [Fa [Ua | Ra]] Hs.
        + split; [apply (step_frame g T B pv a b Fa Hs)|].
          eapply unresolved_step; eauto.
        + split; [apply (step_frame g T B pv a b Fa Hs)|].
          right. eapply resolved_step; eauto.
      - split; [done|]. left. split_and!; [exact Hnone|reflexivity|].
        apply Forall_replicate. exact I. }
    destruct Hinv as [(_ & _ & Hu) | Hres].
    + exfalso. destruct (sy_tasks x) as [|p ps] eqn:Et; [simpl in Hlen; lia|].
      unfold all_done in Hd. inversion Hd; subst. inversion Hu; subst.
      destruct p; done.
    + split; [apply Hres | exact (Hfin h (S c0) Hres)].
Qed.

(** C2: a counterexample. The provider's first [threads.create()] raises
    and the second succeeds; two calls run one after the other. The first
    returns [None], the second creates a second thread and returns it: two
    creations and two different results. *)
Lemma concurrent_two_creations :
  rtc (step 5) (init (one_bot_state flaky_provider) 2)
      (run_to 5 sched_serial (init (one_bot_state flaky_provider) 2)) /\
  all_done (sy_tasks (run_to 5 sched_serial (init (one_bot_state flaky_provider) 2))) /\
  sy_tasks (run_to 5 sched_serial (init (one_bot_state flaky_provider) 2))
    = [PDone None; PDone (Some (u "thread_2"))] /\
  ms_creates (sy_st (run_to 5 sched_serial (init (one_bot_state flaky_provider) 2))) = 2%nat.
Proof.
  split_and!.
  - apply run_to_rtc. vm_compute. eauto.
  - vm_compute. repeat constructor.
  - vm_compute. reflexivity.
  - vm_compute. reflexivity.
Qed.

Lemma concurrent_resolution_witness :
  length (sy_tasks (run_to 5 sched_mixed (init (one_bot_state steady_provider) 2))) = 2%nat /\
  (forall e, truthy_str (dict_at (one_bot_state steady_provider)
       (cm_threads (ms_cm (one_bot_state steady_provider))) !! 5%Z) = Some e ->
     ms_creates (sy_st (run_to 5 sched_mixed (init (one_bot_state steady_provider) 2)))
       = ms_creates (one_bot_state steady_provider) /\
     Forall (eq (PDone (Some e)))
       (sy_tasks (run_to 5 sched_mixed (init (one_bot_state steady_provider) 2)))) /\
  (truthy_str (dict_at (one_bot_state steady_provider)
       (cm_threads (ms_cm (one_bot_state steady_provider))) !! 5%Z) = None ->
   cm_bots (ms_cm (one_bot_state steady_provider)) <> [] ->
   forall h, ms_provider (one_bot_state steady_provider)
               (ms_creates (one_bot_state steady_provider)) = Some h -> h <> [] ->
     ms_creates (sy_st (run_to 5 sched_mixed (init (one_bot_state steady_provider) 2)))
       = S (ms_creates (one_bot_state steady_provider)) /\
     Forall (eq (PDone (Some h)))
       (sy_tasks (run_to 5 sched_mixed (init (one_bot_state steady_provider) 2)))).
Proof.
  apply (concurrent_resolution (one_bot_state steady_provider) 5 2
           (run_to 5 sched_mixed (init (one_bot_state steady_provider) 2))).
  - lia.
  - apply run_to_rtc. vm_compute. eauto.
  - vm_compute. repeat constructor.
Defined.

End ConcurrentClaims.

(** * Further properties of the manager and the handlers *)

Module ManagerExtra.
Import Manager ManagerFacts ManagerClaims ConcurrentFacts Ops.

(** [save_user_info] then [get_user_name]: the name comes back; the other
    groups' names, the other fields of the group's [user_data] entry, the
    thread dicts and the locks are unchanged. *)
Theorem save_user_info_round_trip (s : mstate) (g : Z) (name : text) :
  let s' := (save_user_info g name s).2 in
  (get_user_name g s').1 = name /\
  (forall g', g' <> g -> (get_user_name g' s').1 = (get_user_name g' s).1) /\
  (forall k, k <> u "name" ->
     default ∅ (cm_user_data (ms_cm s') !! g) !! k = default ∅ (cm_user_data (ms_cm s) !! g) !! k) /\
  dict_at s' = dict_at s /\ cm_threads (ms_cm s') = cm_threads (ms_cm s) /\
  cm_bots (ms_cm s') = cm_bots (ms_cm s) /\ cm_locks (ms_cm s') = cm_locks (ms_cm s).
Proof.
  cbv zeta. unfold save_user_info, get_user_name; cbn [fst snd ms_cm ms_heap cm_user_data cm_threads cm_bots cm_locks].
  split_and!; try reflexivity.
  - by rewrite !lookup_insert_eq.
  - intros g' Hne. by rewrite lookup_insert_ne by congruence.
  - intros k Hk. rewrite lookup_insert_eq. simpl.
    rewrite lookup_insert_ne by congruence. by destruct (cm_user_data (ms_cm s) !! g).
Qed.

(** [get_user_name] of a group with no saved name is the empty string. *)
Lemma get_user_name_default (s : mstate) (g : Z) :
  default ∅ (cm_user_data (ms_cm s) !! g) !! u "name" = None -> (get_user_name g s).1 = [].
Proof.
  unfold get_user_name. simpl. destruct (cm_user_data (ms_cm s) !! g); simpl; intros H.
  - by rewrite H.
  - reflexivity.
Qed.

Lemma set_thread_body_locks (g : Z) (hint : option text) (s : mstate) :
  cm_locks (ms_cm (set_thread_body g hint s).2) = cm_locks (ms_cm s).
Proof.
  destruct (truthy_str (dict_at s (cm_threads (ms_cm s)) !! g)) as [e|] eqn:He.
  { by rewrite (set_thread_body_existing g hint s e He). }
  destruct (truthy_str hint) as [t|] eqn:Ht.
  - destruct (truthy_some _ _ Ht) as [-> Hne].
    rewrite set_thread_body_hint by done.
    pose proof (record_spec g t s) as (P1 & _). cbv zeta in *. cbn [snd]. by rewrite P1.
  - destruct hint as [[|c t]|]; try discriminate.
    + (* an empty hint is falsy: the same path as no hint *)
      unfold set_thread_body.
      cbv beta iota zeta delta [mbind MS_bind get_thread_id get_state]. rewrite He.
      change (truthy_str (Some [])) with (@None text).
      pose proof (set_thread_body_frame g s) as [F _].
      unfold set_thread_body in F.
      cbv beta iota zeta delta [mbind MS_bind get_thread_id get_state] in F. rewrite He in F.
      change (truthy_str None) with (@None text) in F. by rewrite F.
    + pose proof (set_thread_body_frame g s) as [F _]. by rewrite F.
Qed.

(** [set_thread_id(g, hint)] run on its own returns with the lock of [g]
    present and free, and creates or changes no other group's lock. *)
Theorem set_thread_id_lock_free (s : mstate) (g : Z) (hint : option text) :
  cm_locks (ms_cm (set_thread_id g hint s).2) = <[g := false]> (cm_locks (ms_cm s)).
Proof.
  rewrite set_thread_id_eq. cbv zeta. cbn [snd].
  set (s1 := (acquire g (get_thread_lock g s).2).2).
  pose proof (set_locks_fields (insert g false) (set_thread_body g hint s1).2) as (_ & _ & _ & _ & _ & _ & K).
  cbv zeta in K. unfold release. rewrite K, set_thread_body_locks.
  pose proof (set_locks_fields (insert g true) (get_thread_lock g s).2) as (_ & _ & _ & _ & _ & _ & K').
  cbv zeta in K'. unfold s1, acquire. rewrite K'.
  unfold get_thread_lock. cbv beta iota delta [mbind MS_bind get_state].
  destruct (cm_locks (ms_cm s) !! g) eqn:E; simpl.
  - by rewrite insert_insert_eq.
  - by rewrite !insert_insert_eq.
Qed.

End ManagerExtra.

Module TurnEq.
Import Manager ManagerFacts ManagerClaims ConcurrentFacts Ops.

Lemma handle_turn_eq (g : Z) (m : text) (s : mstate) :
  handle_turn g m s =
  let p := match re_search re_user_name m with
           | Some cs => (re_sub re_user_tag [] m, (save_user_info g (group cs 1) s).2)
           | None => (m, s) end in
  let s1 := p.2 in
  let r := set_thread_id g (dict_at s1 (cm_threads (ms_cm s1)) !! g) s1 in
  let s2 := r.2 in
  match truthy_str r.1 with
  | None => (None, s2)
  | Some t =>
      match cm_bots (ms_cm s2) with
      | [] => (None, s2)
      | (nm, l) :: _ =>
          match truthy_str (Some nm) with
          | None => (None, s2)
          | Some _ =>
              (Some (l, t, p.1, (get_user_name g s2).1),
               if bool_decide (dict_at s2 l !! g = Some t) then s2
               else (dict_update l (insert g t) s2).2)
          end
      end
  end.
Proof.
  unfold handle_turn. cbv beta iota zeta delta [mbind MS_bind mret MS_ret get_thread_id get_next_bot get_state].
  destruct (re_search re_user_name m) as [cs|].
  - destruct (save_user_info g (group cs 1) s) as [[] s0]. cbn [fst snd].
    destruct (set_thread_id _ _ s0) as [r s2]. cbn [fst snd].
    destruct (truthy_str r) as [t|]; [|reflexivity].
    destruct (cm_bots (ms_cm s2)) as [|[nm l] bs] eqn:Eb; [reflexivity|].
    destruct (truthy_str (Some nm)) as [nm'|] eqn:En; [|reflexivity].
    destruct (truthy_some _ _ En) as [[= <-] _].
    simpl. rewrite Eb. simpl. rewrite bool_decide_true by done.
    unfold get_user_name. simpl. case_bool_decide; [reflexivity|].
    reflexivity.
  - cbn [fst snd].
    destruct (set_thread_id _ _ s) as [r s2]. cbn [fst snd].
    destruct (truthy_str r) as [t|]; [|reflexivity].
    destruct (cm_bots (ms_cm s2)) as [|[nm l] bs] eqn:Eb; [reflexivity|].
    destruct (truthy_str (Some nm)) as [nm'|] eqn:En; [|reflexivity].
    destruct (truthy_some _ _ En) as [[= <-] _].
    simpl. rewrite Eb. simpl. rewrite bool_decide_true by done.
    unfold get_user_name. simpl. case_bool_decide; [reflexivity|].
    reflexivity.
Qed.
End TurnEq.

Module ThreadIdFacts.
Import Manager ManagerFacts ManagerClaims ConcurrentFacts Ops.

(** An empty hint takes the path of no hint. *)
Lemma set_thread_body_empty_hint (g : Z) (s : mstate) :
  set_thread_body g (Some []) s = set_thread_body g None s.
Proof. reflexivity. Qed.

Lemma set_thread_body_cm (g : Z) (hint : option text) (s : mstate) :
  ms_cm (set_thread_body g hint s).2 = ms_cm s /\
  ms_provider (set_thread_body g hint s).2 = ms_provider s.
Proof.
  destruct (truthy_str (dict_at s (cm_threads (ms_cm s)) !! g)) as [e|] eqn:He.
  { by rewrite (set_thread_body_existing g hint s e He). }
  destruct (truthy_str hint) as [t|] eqn:Ht.
  - destruct (truthy_some _ _ Ht) as [-> Hne].
    rewrite set_thread_body_hint by done.
    pose proof (record_spec g t s) as (P1 & _ & P3 & _). cbv zeta in *. cbn [snd]. done.
  - destruct hint as [[|c t]|]; try discriminate.
    + rewrite set_thread_body_empty_hint. apply set_thread_body_frame.
    + apply set_thread_body_frame.
Qed.

Lemma set_thread_body_result (g : Z) (hint : option text) (s : mstate) (t : text) :
  (set_thread_body g hint s).1 = Some t ->
  t <> [] /\ dict_at (set_thread_body g hint s).2 (cm_threads (ms_cm s)) !! g = Some t.
Proof.
  destruct (truthy_str (dict_at s (cm_threads (ms_cm s)) !! g)) as [e|] eqn:He.
  { rewrite (set_thread_body_existing g hint s e He). cbn [fst snd]. intros [= <-].
    by destruct (truthy_some _ _ He) as [-> ?]. }
  assert (Hnone : (set_thread_body g None s).1 = Some t ->
    t <> [] /\ dict_at (set_thread_body g None s).2 (cm_threads (ms_cm s)) !! g = Some t).
  { destruct (cm_bots (ms_cm s)) as [|b bs] eqn:Eb.
    { rewrite set_thread_body_nobots by done. discriminate. }
    destruct (truthy_str (ms_provider s (ms_creates s))) as [h|] eqn:Ep.
    - destruct (truthy_some _ _ Ep) as [Hp Hh].
      rewrite (set_thread_body_create g s h) by (rewrite ?Eb; done). cbn [fst snd].
      intros [= <-].
      set (s' := mkMState (ms_cm s) (ms_heap s) (S (ms_creates s)) (ms_provider s)).
      pose proof (record_spec g h s') as (_ & _ & _ & P4 & _). cbv zeta in *. done.
    - rewrite set_thread_body_fail by (rewrite ?Eb; done). discriminate. }
  destruct (truthy_str hint) as [t'|] eqn:Ht.
  - destruct (truthy_some _ _ Ht) as [-> Hne].
    rewrite set_thread_body_hint by done. cbn [fst]. intros [= <-].
    pose proof (record_spec g t' s) as (_ & _ & _ & P4 & _). cbv zeta in *. done.
  - destruct hint as [[|c t']|]; try discriminate.
    + rewrite set_thread_body_empty_hint. exact Hnone.
    + exact Hnone.
Qed.

Lemma set_thread_id_fields (g : Z) (hint : option text) (s : mstate) :
  let s' := (set_thread_id g hint s).2 in
  cm_threads (ms_cm s') = cm_threads (ms_cm s) /\ cm_bots (ms_cm s') = cm_bots (ms_cm s) /\
  cm_user_data (ms_cm s') = cm_user_data (ms_cm s) /\ ms_provider s' = ms_provider s.
Proof.
  rewrite set_thread_id_eq. cbv zeta. cbn [snd].
  pose proof (locked_state_fields g s) as (L1 & L2 & L3 & L4 & L5 & L6). cbv zeta in *.
  set (s1 := (acquire g (get_thread_lock g s).2).2) in *.
  pose proof (release_fields g (set_thread_body g hint s1).2) as (R1 & R2 & R3 & R4 & R5 & R6 & _).
  cbv zeta in *. destruct (set_thread_body_cm g hint s1) as [C1 C2].
  rewrite R4, R5, R6, R3, C1, C2. done.
Qed.

Lemma set_thread_id_result_aux (g : Z) (hint : option text) (s : mstate) (t : text) :
  (set_thread_id g hint s).1 = Some t ->
  t <> [] /\ dict_at (set_thread_id g hint s).2 (cm_threads (ms_cm s)) !! g = Some t.
Proof.
  rewrite set_thread_id_eq. cbv zeta. cbn [fst snd].
  pose proof (locked_state_fields g s) as (L1 & L2 & L3 & L4 & L5 & L6). cbv zeta in *.
  set (s1 := (acquire g (get_thread_lock g s).2).2) in *.
  pose proof (release_fields g (set_thread_body g hint s1).2) as (R1 & _). cbv zeta in *.
  intros E. destruct (set_thread_body_result g hint s1 t E) as [Ht Hd].
  rewrite R1, <- L4. done.
Qed.

(** When [set_thread_id(g, hint)] returns an id [t] (not [None]), [t] is a
    non-empty string and [self.threads] maps [g] to [t] afterwards. *)
Theorem set_thread_id_result (g : Z) (hint : option text) (s : mstate) (t : text) :
  (set_thread_id g hint s).1 = Some t ->
  t <> [] /\ dict_at (set_thread_id g hint s).2 (cm_threads (ms_cm s)) !! g = Some t.
Proof. apply set_thread_id_result_aux. Qed.
End ThreadIdFacts.

Module TurnCall.
Import Manager ManagerFacts ManagerClaims ConcurrentFacts Ops TurnEq ThreadIdFacts.

Lemma save_user_info_fields (g : Z) (name : text) (s : mstate) :
  let s' := (save_user_info g name s).2 in
  dict_at s' = dict_at s /\ cm_threads (ms_cm s') = cm_threads (ms_cm s) /\
  cm_bots (ms_cm s') = cm_bots (ms_cm s) /\ cm_locks (ms_cm s') = cm_locks (ms_cm s) /\
  ms_creates s' = ms_creates s /\ ms_provider s' = ms_provider s.
Proof. done. Qed.

Lemma handle_turn_pre_fields (g : Z) (m : text) (s : mstate) (m1 : text) (s1 : mstate) :
  match re_search re_user_name m with
  | Some cs => (re_sub re_user_tag [] m, (save_user_info g (group cs 1) s).2)
  | None => (m, s) end = (m1, s1) ->
  dict_at s1 = dict_at s /\ cm_threads (ms_cm s1) = cm_threads (ms_cm s) /\
  cm_bots (ms_cm s1) = cm_bots (ms_cm s) /\ cm_locks (ms_cm s1) = cm_locks (ms_cm s) /\
  ms_creates s1 = ms_creates s /\ ms_provider s1 = ms_provider s.
Proof.
  destruct (re_search re_user_name m) as [cs|]; intros [= <- <-]; [|done].
  apply save_user_info_fields.
Qed.

(** When [handle_turn] gets as far as calling [stream_response] (result
    [Some (l, t, m', n')]), the bot called is the first registered one [nm]
    (a non-empty name, with dict [l]), the thread [t] is a non-empty id that
    both [self.threads] and the bot's dict map the group to afterwards, and
    [n'] is the user name saved for the group. *)
Theorem handle_turn_call_synced (g : Z) (m : text) (s : mstate) (l : loc) (t m' n' : text) :
  (handle_turn g m s).1 = Some (l, t, m', n') ->
  let s' := (handle_turn g m s).2 in
  t <> [] /\ dict_at s' l !! g = Some t /\ dict_at s' (cm_threads (ms_cm s)) !! g = Some t /\
  (exists nm bs, cm_bots (ms_cm s) = (nm, l) :: bs /\ nm <> []) /\
  n' = (get_user_name g s').1.
Proof.
  rewrite handle_turn_eq. cbv zeta.
  destruct (match re_search re_user_name m with
            | Some cs => (re_sub re_user_tag [] m, (save_user_info g (group cs 1) s).2)
            | None => (m, s) end) as [m1 s1] eqn:Ep. cbn [fst snd].
  destruct (handle_turn_pre_fields g m s m1 s1 Ep) as (P1 & P2 & P3 & P4 & P5 & P6).
  set (hint := dict_at s1 (cm_threads (ms_cm s1)) !! g).
  pose proof (set_thread_id_result_aux g hint s1) as SR.
  pose proof (set_thread_id_fields g hint s1) as (F1 & F2 & F3 & F4). cbv zeta in F1, F2, F3, F4.
  destruct (set_thread_id g hint s1) as [r s2] eqn:Er. cbn [fst snd] in *.
  destruct (truthy_str r) as [t0|] eqn:Et; [|discriminate].
  destruct (truthy_some _ _ Et) as [-> Ht0].
  destruct (SR t0 eq_refl) as [_ Hd]. rewrite P2 in Hd.
  destruct (cm_bots (ms_cm s2)) as [|[nm l0] bs] eqn:Eb; [discriminate|].
  destruct (truthy_str (Some nm)) as [nm'|] eqn:En; [|discriminate].
  destruct (truthy_some _ _ En) as [[= <-] Hnm].
  intros [= <- <- <- <-].
  case_bool_decide as Hl; cbn [fst snd].
  - split_and!; try done.
    + exists nm, bs. split; [|exact Hnm]. rewrite <- P3, <- F2. reflexivity.
  - split_and!; try done.
    + rewrite dict_at_update, decide_True by done. apply lookup_insert_eq.
    + rewrite dict_at_update. destruct (decide _) as [E|].
      * apply lookup_insert_eq.
      * exact Hd.
    + exists nm, bs. split; [|exact Hnm]. rewrite <- P3, <- F2. reflexivity.
Qed.
End TurnCall.

Module TurnThread.
Import Manager ManagerFacts ManagerClaims ConcurrentFacts Ops TurnEq ThreadIdFacts TurnCall.

Lemma set_thread_body_falsy_hint (g : Z) (hint : option text) (s : mstate) :
  truthy_str hint = None -> set_thread_body g hint s = set_thread_body g None s.
Proof. destruct hint as [[|c t]|]; [reflexivity|discriminate|reflexivity]. Qed.

Lemma set_thread_id_via_body (g : Z) (hint : option text) (s : mstate) :
  let s1 := (acquire g (get_thread_lock g s).2).2 in
  (set_thread_id g hint s).1 = (set_thread_body g hint s1).1 /\
  ms_creates (set_thread_id g hint s).2 = ms_creates (set_thread_body g hint s1).2 /\
  dict_at (set_thread_id g hint s).2 = dict_at (set_thread_body g hint s1).2.
Proof.
  rewrite set_thread_id_eq. cbv zeta. cbn [fst snd].
  pose proof (release_fields g (set_thread_body g hint (acquire g (get_thread_lock g s).2).2).2)
    as (R1 & R2 & _). cbv zeta in *. split_and!; auto.
Qed.

Lemma set_thread_id_unbound (g : Z) (hint : option text) (s : mstate) :
  truthy_str (dict_at s (cm_threads (ms_cm s)) !! g) = None -> truthy_str hint = None ->
  (cm_bots (ms_cm s) = [] ->
     (set_thread_id g hint s).1 = None /\ ms_creates (set_thread_id g hint s).2 = ms_creates s /\
     dict_at (set_thread_id g hint s).2 = dict_at s) /\
  (forall h, cm_bots (ms_cm s) <> [] -> ms_provider s (ms_creates s) = Some h -> h <> [] ->
     (set_thread_id g hint s).1 = Some h /\ ms_creates (set_thread_id g hint s).2 = S (ms_creates s)) /\
  (cm_bots (ms_cm s) <> [] -> truthy_str (ms_provider s (ms_creates s)) = None ->
     (set_thread_id g hint s).1 = None /\ ms_creates (set_thread_id g hint s).2 = S (ms_creates s)).
Proof.
  intros Hn Hh.
  pose proof (set_thread_id_via_body g hint s) as (V1 & V2 & V3). cbv zeta in *.
  pose proof (locked_state_fields g s) as (L1 & L2 & L3 & L4 & L5 & L6). cbv zeta in *.
  set (s1 := (acquire g (get_thread_lock g s).2).2) in *.
  rewrite V1, V2, V3, (set_thread_body_falsy_hint g hint s1 Hh).
  assert (Hn1 : truthy_str (dict_at s1 (cm_threads (ms_cm s1)) !! g) = None) by (rewrite L1, L4; exact Hn).
  split_and!.
  - intros Hb. rewrite set_thread_body_nobots by (rewrite ?L5; done). cbn [fst snd]. done.
  - intros h Hb Hp Hne.
    rewrite (set_thread_body_create g s1 h) by (rewrite ?L5, ?L2, ?L3; done). cbn [fst snd].
    set (s' := mkMState (ms_cm s1) (ms_heap s1) (S (ms_creates s1)) (ms_provider s1)).
    pose proof (record_spec g h s') as (_ & P2 & _). cbv zeta in P2.
    assert (Ecm : ms_cm s' = ms_cm s1) by reflexivity. rewrite Ecm in P2.
    split; [reflexivity|]. rewrite P2. unfold s'. cbn [ms_creates]. by rewrite L2.
  - intros Hb Hp.
    rewrite set_thread_body_fail by (rewrite ?L5, ?L2, ?L3; done). cbn [fst snd]. by rewrite L2.
Qed.

Lemma handle_turn_thread_cases (g : Z) (m : text) (s : mstate) (nm : text) (l : loc) bs :
  cm_bots (ms_cm s) = (nm, l) :: bs -> nm <> [] ->
  (forall e, truthy_str (dict_at s (cm_threads (ms_cm s)) !! g) = Some e ->
     (exists m' n', (handle_turn g m s).1 = Some (l, e, m', n')) /\
     ms_creates (handle_turn g m s).2 = ms_creates s) /\
  (forall h, truthy_str (dict_at s (cm_threads (ms_cm s)) !! g) = None ->
     ms_provider s (ms_creates s) = Some h -> h <> [] ->
     (exists m' n', (handle_turn g m s).1 = Some (l, h, m', n')) /\
     ms_creates (handle_turn g m s).2 = S (ms_creates s)) /\
  (truthy_str (dict_at s (cm_threads (ms_cm s)) !! g) = None ->
     truthy_str (ms_provider s (ms_creates s)) = None ->
     (handle_turn g m s).1 = None /\ ms_creates (handle_turn g m s).2 = S (ms_creates s)).
Proof.
  intros Hb Hnm. rewrite handle_turn_eq. cbv zeta.
  destruct (match re_search re_user_name m with
            | Some cs => (re_sub re_user_tag [] m, (save_user_info g (group cs 1) s).2)
            | None => (m, s) end) as [m1 s1] eqn:Ep. cbn [fst snd].
  destruct (handle_turn_pre_fields g m s m1 s1 Ep) as (P1 & P2 & P3 & P4 & P5 & P6).
  set (hint := dict_at s1 (cm_threads (ms_cm s1)) !! g).
  pose proof (set_thread_id_fields g hint s1) as (F1 & F2 & F3 & F4). cbv zeta in F1, F2, F3, F4.
  assert (Hhint : hint = dict_at s (cm_threads (ms_cm s)) !! g) by (unfold hint; by rewrite P1, P2).
  assert (Hfin : forall t s2, cm_bots (ms_cm s2) = cm_bots (ms_cm s1) ->
     ms_creates (match cm_bots (ms_cm s2) with
      | [] => (None, s2)
      | (nm, l) :: _ =>
          match truthy_str (Some nm) with
          | None => (None, s2)
          | Some _ =>
              (Some (l, t, m1, (get_user_name g s2).1),
               if bool_decide (dict_at s2 l !! g = Some t) then s2
               else (dict_update l (insert g t) s2).2)
          end
      end).2 = ms_creates s2 /\
     exists m' n', (match cm_bots (ms_cm s2) with
      | [] => (None, s2)
      | (nm, l) :: _ =>
          match truthy_str (Some nm) with
          | None => (None, s2)
          | Some _ =>
              (Some (l, t, m1, (get_user_name g s2).1),
               if bool_decide (dict_at s2 l !! g = Some t) then s2
               else (dict_update l (insert g t) s2).2)
          end
      end).1 = Some (l, t, m', n')).
  { intros t s2 E. rewrite E, P3, Hb. rewrite truthy_nonempty by exact Hnm. cbn [fst snd].
    split; [by case_bool_decide|eauto]. }
  split_and!.
  - intros e He.
    pose proof (set_thread_id_existing s1 g hint e) as (E1 & _ & E3 & _).
    { by rewrite P1, P2. }
    destruct (set_thread_id g hint s1) as [r s2]. cbn [fst snd] in *. subst r.
    rewrite truthy_nonempty by (by destruct (truthy_some _ _ He)).
    destruct (Hfin e s2) as [C [m' [n' R]]]; [congruence|].
    split; [eauto|]. rewrite C. congruence.
  - intros h Hn Hp Hne.
    pose proof (set_thread_id_unbound g hint s1) as (_ & U2 & _).
    { by rewrite P1, P2. } { by rewrite Hhint. }
    destruct (U2 h) as [E1 E3]; [by rewrite P3, Hb|by rewrite P5, P6|exact Hne|].
    destruct (set_thread_id g hint s1) as [r s2]. cbn [fst snd] in *. subst r.
    rewrite truthy_nonempty by exact Hne.
    destruct (Hfin h s2) as [C [m' [n' R]]]; [congruence|].
    split; [eauto|]. rewrite C, E3. congruence.
  - intros Hn Hp.
    pose proof (set_thread_id_unbound g hint s1) as (_ & _ & U3).
    { by rewrite P1, P2. } { by rewrite Hhint. }
    destruct U3 as [E1 E3]; [by rewrite P3, Hb|by rewrite P5, P6|].
    destruct (set_thread_id g hint s1) as [r s2]. cbn [fst snd] in *. subst r.
    simpl. split; [done|]. rewrite E3. congruence.
Qed.
(** [handle_turn] with a first registered bot [nm] (non-empty name, dict
    [l]): if the group already has a thread [e] it calls the bot with [e]
    and creates no thread; if it has none and the provider creates the
    non-empty id [h], it calls the bot with [h] after one creation; if the
    creation gives no id, it stops before the call after one creation. *)
Theorem handle_turn_thread (g : Z) (m : text) (s : mstate) (nm : text) (l : loc) bs :
  cm_bots (ms_cm s) = (nm, l) :: bs -> nm <> [] ->
  (forall e, truthy_str (dict_at s (cm_threads (ms_cm s)) !! g) = Some e ->
     (exists m' n', (handle_turn g m s).1 = Some (l, e, m', n')) /\
     ms_creates (handle_turn g m s).2 = ms_creates s) /\
  (forall h, truthy_str (dict_at s (cm_threads (ms_cm s)) !! g) = None ->
     ms_provider s (ms_creates s) = Some h -> h <> [] ->
     (exists m' n', (handle_turn g m s).1 = Some (l, h, m', n')) /\
     ms_creates (handle_turn g m s).2 = S (ms_creates s)) /\
  (truthy_str (dict_at s (cm_threads (ms_cm s)) !! g) = None ->
     truthy_str (ms_provider s (ms_creates s)) = None ->
     (handle_turn g m s).1 = None /\ ms_creates (handle_turn g m s).2 = S (ms_creates s)).
Proof. apply handle_turn_thread_cases. Qed.
End TurnThread.

Module UserTagFacts.
Import Manager ManagerFacts ManagerClaims ConcurrentFacts Ops TurnEq ThreadIdFacts TurnCall TurnThread Handlers.

Lemma mt_lit_app (p : text) (r : regex) (s : text) (cs : caps) :
  mt (map ALit p ++ r) (p ++ s) cs = mt r s cs.
Proof. induction p as [|c p IH]; simpl; [done|]. by rewrite N.eqb_refl. Qed.

Lemma span_app_stop (p : N -> bool) (n rest : text) (c : N) :
  (forall x, x ∈ n -> p x = true) -> p c = false -> span p (n ++ c :: rest) = length n.
Proof.
  induction n as [|x n IH]; intros Hn Hc; simpl; [by rewrite Hc|].
  rewrite (Hn x) by (apply elem_of_cons; by left). f_equal. apply IH; [|done].
  intros y Hy. apply Hn. apply elem_of_cons. by right.
Qed.

Lemma not_in_close (n : text) : ch "]" ∉ n -> forall x, x ∈ n -> not_in (u "]") x = true.
Proof.
  intros Hn x Hx. change (u "]") with [93]. change (ch "]") with 93 in Hn.
  unfold not_in. simpl. destruct (N.eqb_spec x 93) as [->|]; [done|reflexivity].
Qed.

Lemma tag_open_eq : u tag_open = 91 :: tail (u tag_open).
Proof. vm_compute. reflexivity. Qed.

Lemma elem_of_drop_1 (x : N) (k : nat) (l : text) : x ∈ drop k l -> x ∈ l.
Proof. intros H. rewrite <- (take_drop k l). apply elem_of_app. by right. Qed.

Lemma user_context_app (n m : text) :
  user_context n ++ m = u tag_open ++ n ++ 93 :: 10 :: 10 :: m.
Proof. unfold user_context. change (u "]") with [93]. unfold nn. by rewrite <- !app_assoc. Qed.

Lemma search_fuel_hit (f : nat) (r : regex) (s : text) (rest : text) (cs : caps) :
  mt r s ([], []) = Some (rest, cs) -> search_fuel f r s = Some cs.
Proof. intros H. destruct f; simpl; by rewrite H. Qed.

Lemma re_search_user_context (n m : text) :
  n <> [] -> ch "]" ∉ n ->
  exists cs, re_search re_user_name (user_context n ++ m) = Some cs /\ group cs 1 = n.
Proof.
  intros Hne Hn. rewrite user_context_app. unfold re_search.
  eexists. split.
  { eapply search_fuel_hit. unfold re_user_name, lit.
    rewrite mt_lit_app. cbn [mt].
    rewrite (span_app_stop _ n _ 93 (not_in_close n Hn) eq_refl).
    destruct (length n =? 0)%nat eqn:L; [apply Nat.eqb_eq, length_zero_iff_nil in L; congruence|].
    apply try_down_first. rewrite drop_app_length. cbn [mt]. change (ch "]") with 93.
    rewrite N.eqb_refl. reflexivity. }
  unfold group. simpl.
  rewrite length_app. cbn [length].
  replace (length n + S (S (S (length m))) - S (S (S (length m))))%nat with (length n) by lia.
  apply take_app_length.
Qed.

Lemma re_sub_hit (r : regex) (tpl : list rpiece) (s rest : text) (cs : caps) :
  mt r s ([], []) = Some (rest, cs) -> (length rest < length s)%nat ->
  re_sub r tpl s = expand tpl cs ++ re_sub r tpl rest.
Proof.
  intros H L. destruct s as [|c s']; [simpl in L; lia|].
  rewrite re_sub_cons, H. apply Nat.ltb_lt in L. by rewrite L.
Qed.

Lemma mt_user_tag_context (n m : text) :
  n <> [] -> ch "]" ∉ n ->
  mt re_user_tag (u tag_open ++ n ++ 93 :: 10 :: 10 :: m) ([], []) =
  Some (drop (span is_space m) m, ([], [])).
Proof.
  intros Hne Hn.
  unfold re_user_tag, lit. rewrite mt_lit_app. cbn [mt].
  rewrite (span_app_stop _ n _ 93 (not_in_close n Hn) eq_refl).
  destruct (length n =? 0)%nat eqn:L; [apply Nat.eqb_eq, length_zero_iff_nil in L; congruence|].
  apply try_down_first. rewrite drop_app_length. cbn [mt]. change (ch "]") with 93. rewrite N.eqb_refl.
  apply try_down_first. cbn [span]. replace (is_space 10) with true by reflexivity.
  cbn [drop]. cbn [mt].
  pose proof (span_drop_head is_space m) as Hh.
  assert (Z0 : span (N.eqb 10) (drop (span is_space m) m) = 0%nat).
  { destruct (drop (span is_space m) m) as [|c t] eqn:E; [done|]. cbn [span].
    destruct (N.eqb_spec 10 c) as [<-|Hc]; [vm_compute in Hh; discriminate|reflexivity]. }
  rewrite Z0. reflexivity.
Qed.

Lemma user_tag_open_lit : ALit (ch "[") ∈ re_user_tag.
Proof.
  assert (E : re_user_tag = ALit 91 :: tail re_user_tag) by (vm_compute; reflexivity).
  assert (C : ch "[" = 91) by (vm_compute; reflexivity).
  rewrite E, C. apply elem_of_cons. by left.
Qed.

Lemma re_sub_user_context (n m : text) :
  n <> [] -> ch "]" ∉ n -> ch "[" ∉ m ->
  re_sub re_user_tag [] (user_context n ++ m) = drop (span is_space m) m.
Proof.
  intros Hne Hn Hm. rewrite user_context_app.
  pose proof (mt_user_tag_context n m Hne Hn) as HM.
  assert (Hin : ch "[" ∉ drop (span is_space m) m).
  { intros H. apply Hm. by apply elem_of_drop_1 in H. }
  assert (Hlen : (length (drop (span is_space m) m) < length (u tag_open ++ n ++ 93%N :: 10%N :: 10%N :: m))%nat).
  { rewrite length_drop, !length_app. cbn [length]. lia. }
  rewrite (re_sub_hit _ _ _ _ _ HM Hlen). cbn [expand flat_map app].
  exact (re_sub_absent _ _ _ _ user_tag_open_lit Hin).
Qed.
End UserTagFacts.

Module TurnUserTag.
Import Manager ManagerFacts ManagerClaims ConcurrentFacts Ops TurnEq ThreadIdFacts TurnCall TurnThread UserTagFacts Handlers.

Lemma get_user_name_ud (g : Z) (a b : mstate) :
  cm_user_data (ms_cm a) = cm_user_data (ms_cm b) -> (get_user_name g a).1 = (get_user_name g b).1.
Proof. unfold get_user_name. simpl. by intros ->. Qed.

Lemma save_then_get (g : Z) (name : text) (s : mstate) :
  (get_user_name g (save_user_info g name s).2).1 = name.
Proof. unfold save_user_info, get_user_name. simpl. by rewrite !lookup_insert_eq. Qed.

Lemma handle_turn_user_context (g : Z) (n m : text) (s : mstate) :
  n <> [] -> ch "]" ∉ n -> ch "[" ∉ m ->
  (get_user_name g (handle_turn g (user_context n ++ m) s).2).1 = n /\
  (forall l t m' n', (handle_turn g (user_context n ++ m) s).1 = Some (l, t, m', n') ->
     m' = drop (span is_space m) m /\ n' = n).
Proof.
  intros Hne Hn Hm. rewrite handle_turn_eq.
  destruct (re_search_user_context n m Hne Hn) as [cs [E G]]. rewrite E, G.
  rewrite (re_sub_user_context n m Hne Hn Hm). cbv zeta. cbn [fst snd].
  set (s1 := (save_user_info g n s).2).
  set (hint := dict_at s1 (cm_threads (ms_cm s1)) !! g).
  pose proof (set_thread_id_fields g hint s1) as (F1 & F2 & F3 & F4). cbv zeta in F1, F2, F3, F4.
  pose proof (save_then_get g n s) as Sv. fold s1 in Sv.
  destruct (set_thread_id g hint s1) as [r s2]. cbn [fst snd] in *.
  assert (U : (get_user_name g s2).1 = n) by (rewrite (get_user_name_ud g s2 s1 F3); exact Sv).
  destruct (truthy_str r) as [t|]; [|split; [exact U|discriminate]].
  destruct (cm_bots (ms_cm s2)) as [|[nm l0] bs]; [split; [exact U|discriminate]|].
  destruct (truthy_str (Some nm)); [|split; [exact U|discriminate]].
  cbn [fst snd]. split.
  - case_bool_decide; [exact U|]. rewrite (get_user_name_ud g _ s2); [exact U|reflexivity].
  - intros l1 t1 m1 n1 [= _ _ <- <-]. split; [reflexivity|exact U].
Qed.
(** [handle_turn] on a message that starts with the user tag written by
    [process_message] ([n] non-empty and without ']', the rest [m] without
    '['): the name [n] is saved as the group's user name, and the message
    passed on to [stream_response] is [m] without its leading whitespace. *)
Theorem handle_turn_user_tag (g : Z) (n m : text) (s : mstate) :
  n <> [] -> ch "]" ∉ n -> ch "[" ∉ m ->
  (get_user_name g (handle_turn g (user_context n ++ m) s).2).1 = n /\
  (forall l t m' n', (handle_turn g (user_context n ++ m) s).1 = Some (l, t, m', n') ->
     m' = drop (span is_space m) m /\ n' = n).
Proof. apply handle_turn_user_context. Qed.
End TurnUserTag.

Module TurnKeys.
Import Manager ManagerFacts ManagerClaims ConcurrentFacts Ops TurnEq ThreadIdFacts TurnCall TurnThread.

Lemma dict_update_insert_keeps (l0 : loc) (g : Z) (t : text) (s : mstate) (l : loc) (k : Z) :
  is_Some (dict_at s l !! k) -> is_Some (dict_at (dict_update l0 (insert g t) s).2 l !! k).
Proof.
  intros H. rewrite dict_at_update. destruct (decide (l = l0)) as [->|]; [|exact H].
  destruct (decide (k = g)) as [->|]; [rewrite lookup_insert_eq; eauto|].
  by rewrite lookup_insert_ne by congruence.
Qed.

Lemma sync_bots_keeps (bots : list (text * loc)) (g : Z) (t : text) (s : mstate) (l : loc) (k : Z) :
  is_Some (dict_at s l !! k) -> is_Some (dict_at (sync_bots bots g t s).2 l !! k).
Proof.
  revert s. induction bots as [|[nm0 l0] bs IH]; intros s H; [exact H|].
  rewrite sync_bots_cons. apply IH. by apply dict_update_insert_keeps.
Qed.

Lemma record_keeps (g : Z) (t : text) (s : mstate) (l : loc) (k : Z) :
  is_Some (dict_at s l !! k) ->
  is_Some (dict_at (sync_bots (cm_bots (ms_cm s)) g t
                      (dict_update (cm_threads (ms_cm s)) (insert g t) s).2).2 l !! k).
Proof. intros H. apply sync_bots_keeps. by apply dict_update_insert_keeps. Qed.

Lemma set_thread_body_keeps (g : Z) (hint : option text) (s : mstate) (l : loc) (k : Z) :
  is_Some (dict_at s l !! k) -> is_Some (dict_at (set_thread_body g hint s).2 l !! k).
Proof.
  intros H.
  destruct (truthy_str (dict_at s (cm_threads (ms_cm s)) !! g)) as [e|] eqn:He.
  { by rewrite (set_thread_body_existing g hint s e He). }
  assert (Hnone : is_Some (dict_at (set_thread_body g None s).2 l !! k)).
  { destruct (cm_bots (ms_cm s)) as [|b bs] eqn:Eb.
    { by rewrite set_thread_body_nobots. }
    destruct (truthy_str (ms_provider s (ms_creates s))) as [h|] eqn:Ep.
    - destruct (truthy_some _ _ Ep) as [Hp Hh].
      rewrite (set_thread_body_create g s h) by (rewrite ?Eb; done).
      set (s' := mkMState (ms_cm s) (ms_heap s) (S (ms_creates s)) (ms_provider s)).
      assert (Ecm : ms_cm s = ms_cm s') by reflexivity. rewrite Ecm.
      apply record_keeps. exact H.
    - rewrite set_thread_body_fail by (rewrite ?Eb; done). exact H. }
  destruct (truthy_str hint) as [t|] eqn:Ht.
  - destruct (truthy_some _ _ Ht) as [-> Hne].
    rewrite set_thread_body_hint by done. by apply record_keeps.
  - by rewrite set_thread_body_falsy_hint.
Qed.

Lemma set_thread_id_keeps (g : Z) (hint : option text) (s : mstate) (l : loc) (k : Z) :
  is_Some (dict_at s l !! k) -> is_Some (dict_at (set_thread_id g hint s).2 l !! k).
Proof.
  intros H.
  pose proof (set_thread_id_via_body g hint s) as (_ & _ & V3). cbv zeta in V3.
  pose proof (locked_state_fields g s) as (L1 & _). cbv zeta in L1.
  rewrite V3. apply set_thread_body_keeps. by rewrite L1.
Qed.

Lemma handle_turn_keeps (g : Z) (m : text) (s : mstate) (l : loc) (k : Z) :
  is_Some (dict_at s l !! k) -> is_Some (dict_at (handle_turn g m s).2 l !! k).
Proof.
  intros H. rewrite handle_turn_eq. cbv zeta.
  destruct (match re_search re_user_name m with
            | Some cs => (re_sub re_user_tag [] m, (save_user_info g (group cs 1) s).2)
            | None => (m, s) end) as [m1 s1] eqn:Ep. cbn [fst snd].
  destruct (handle_turn_pre_fields g m s m1 s1 Ep) as (P1 & _).
  set (hint := dict_at s1 (cm_threads (ms_cm s1)) !! g).
  pose proof (set_thread_id_keeps g hint s1 l k) as K.
  rewrite P1 in K. specialize (K H).
  destruct (set_thread_id g hint s1) as [r s2]. cbn [fst snd] in *.
  destruct (truthy_str r) as [t|]; [|exact K].
  destruct (cm_bots (ms_cm s2)) as [|[nm l0] bs]; [exact K|].
  destruct (truthy_str (Some nm)); cbn [snd]; [|exact K].
  case_bool_decide; [exact K|]. by apply dict_update_insert_keeps.
Qed.

Lemma handle_turn_threads (g : Z) (m : text) (s : mstate) :
  cm_threads (ms_cm (handle_turn g m s).2) = cm_threads (ms_cm s) /\
  cm_bots (ms_cm (handle_turn g m s).2) = cm_bots (ms_cm s).
Proof.
  rewrite handle_turn_eq. cbv zeta.
  destruct (match re_search re_user_name m with
            | Some cs => (re_sub re_user_tag [] m, (save_user_info g (group cs 1) s).2)
            | None => (m, s) end) as [m1 s1] eqn:Ep. cbn [fst snd].
  destruct (handle_turn_pre_fields g m s m1 s1 Ep) as (_ & P2 & P3 & _).
  set (hint := dict_at s1 (cm_threads (ms_cm s1)) !! g).
  pose proof (set_thread_id_fields g hint s1) as (F1 & F2 & _).
  cbv zeta in F1, F2.
  destruct (set_thread_id g hint s1) as [r s2]. cbn [fst snd] in *.
  destruct (truthy_str r) as [t|]; cbn [snd]; [|split; congruence].
  destruct (cm_bots (ms_cm s2)) as [|[nm l0] bs] eqn:Eb; cbn [snd]; [rewrite Eb; split; congruence|].
  destruct (truthy_str (Some nm)); cbn [snd]; [|rewrite Eb; split; congruence].
  case_bool_decide; cbn [ms_cm dict_update snd]; rewrite Eb; split; congruence.
Qed.

(** [handle_turn] never removes an entry: every key of every thread dict
    (the manager's [self.threads] and the bots' dicts) is still there after
    the turn, and the manager's thread dict and bot list stay the same. *)
Theorem handle_turn_no_delete (g : Z) (m : text) (s : mstate) :
  (forall l k, is_Some (dict_at s l !! k) -> is_Some (dict_at (handle_turn g m s).2 l !! k)) /\
  cm_threads (ms_cm (handle_turn g m s).2) = cm_threads (ms_cm s) /\
  cm_bots (ms_cm (handle_turn g m s).2) = cm_bots (ms_cm s).
Proof.
  split; [intros l k; apply handle_turn_keeps|apply handle_turn_threads].
Qed.
End TurnKeys.

Module GroupFacts.
Import Manager ManagerFacts ManagerClaims ConcurrentFacts Ops Handlers TurnEq ThreadIdFacts TurnCall TurnThread UserTagFacts TurnUserTag TurnKeys.

Lemma hs_eta (h : hstate) : mkH (hs_ms h) (hs_log h) (hs_env h) (hs_chat h) = h.
Proof. by destruct h. Qed.

Lemma lift_is_active (g : Z) (h : hstate) :
  lift (is_active g) h =
  (Ret (bool_decide (is_Some (dict_at (hs_ms h) (cm_threads (ms_cm (hs_ms h))) !! g))), h).
Proof. unfold lift, is_active. simpl. by rewrite hs_eta. Qed.

Lemma group_mentions_cons (g : Z) (enh mtxt bu : text) (e : entity) (es : list entity) (h : hstate) :
  group_mentions g enh mtxt bu (e :: es) h =
  if names_bot bu mtxt e then
    if bool_decide (is_Some (dict_at (hs_ms h) (cm_threads (ms_cm (hs_ms h))) !! g)) then
      let (c, s') := handle_turn g enh (hs_ms h) in
      group_mentions g enh mtxt bu es (mkH s' (ATurn g enh c :: hs_log h) (hs_env h) (hs_chat h))
    else (Exn dict_call_error, h)
  else group_mentions g enh mtxt bu es h.
Proof.
  cbn [group_mentions]. unfold mbind, HM_bind.
  destruct (names_bot bu mtxt e); [|reflexivity].
  rewrite lift_is_active. case_bool_decide; [|reflexivity].
  unfold run_turn. destruct (handle_turn g enh (hs_ms h)). reflexivity.
Qed.

Lemma group_mentions_inactive (g : Z) (enh mtxt bu : text) (es : list entity) (h : hstate) :
  dict_at (hs_ms h) (cm_threads (ms_cm (hs_ms h))) !! g = None ->
  group_mentions g enh mtxt bu es h =
  (if existsb (names_bot bu mtxt) es then Exn dict_call_error else Ret (), h).
Proof.
  intros Hn. induction es as [|e es IH]; [reflexivity|].
  rewrite group_mentions_cons. cbn [existsb].
  destruct (names_bot bu mtxt e); [|exact IH].
  rewrite Hn, bool_decide_false by (intros [? ?]; discriminate). reflexivity.
Qed.

Lemma group_mentions_active (g : Z) (enh mtxt bu : text) (es : list entity) (h : hstate) :
  is_Some (dict_at (hs_ms h) (cm_threads (ms_cm (hs_ms h))) !! g) ->
  let r := group_mentions g enh mtxt bu es h in
  r.1 = Ret () /\ hs_env r.2 = hs_env h /\
  exists calls, hs_log r.2 = calls ++ hs_log h /\
    length calls = length (filter (names_bot bu mtxt) es) /\
    Forall (fun a => exists c, a = ATurn g enh c) calls.
Proof.
  revert h. induction es as [|e es IH]; intros h Hs; cbv zeta.
  { split_and!; try reflexivity. exists []. split_and!; done. }
  rewrite group_mentions_cons, filter_cons.
  destruct (names_bot bu mtxt e).
  - rewrite bool_decide_true by exact Hs.
    destruct (handle_turn g enh (hs_ms h)) as [c s'] eqn:Ht.
    set (h' := mkH s' (ATurn g enh c :: hs_log h) (hs_env h) (hs_chat h)).
    assert (Hs' : is_Some (dict_at (hs_ms h') (cm_threads (ms_cm (hs_ms h'))) !! g)).
    { unfold h'; cbn [hs_ms].
      pose proof (handle_turn_keeps g enh (hs_ms h) _ g Hs) as K.
      pose proof (handle_turn_threads g enh (hs_ms h)) as [T _].
      rewrite Ht in K, T. cbn [snd] in K, T. by rewrite T. }
    destruct (IH h' Hs') as (R1 & R2 & calls & R3 & R4 & R5). cbv zeta in *.
    split_and!; [exact R1|exact R2|].
    exists (calls ++ [ATurn g enh c]). split_and!.
    + rewrite R3, <- app_assoc. reflexivity.
    + rewrite length_app, R4. simpl. lia.
    + apply Forall_app. split; [exact R5|]. constructor; [eauto|constructor].
  - exact (IH h Hs).
Qed.
End GroupFacts.

Module HandlersExtra.
Import Manager ManagerFacts ManagerClaims ConcurrentFacts Ops Handlers TurnEq ThreadIdFacts TurnCall TurnThread UserTagFacts TurnUserTag TurnKeys GroupFacts.

Lemma process_message_group (ac : gset Z) (bu um ct : text) (g : Z) (mtxt : text)
    (es : list entity) (h : hstate) :
  ct <> u "private" ->
  process_message ac bu true false um ct g mtxt es h =
  group_mentions g (user_context um ++ mtxt) mtxt bu es
    (mkH (hs_ms h) (hs_log h) (hs_env h) (<[g := um]> (hs_chat h))).
Proof. intros Hc. unfold process_message. cbn [negb]. by rewrite bool_decide_false. Qed.

(** [process_message] on a group chat whose group has no thread: if an
    entity of the message mentions the bot, it raises (the call
    [self.manager.active_conversation(...)] calls a dict) before any turn or
    reply; otherwise it does nothing more. Either way the one write is the
    sender's first name [um], saved as the chat's
    [chat_data['user_info']['name']] before the branch; the manager state,
    the replies and turns, and the pending send outcomes are unchanged. *)
Theorem process_message_group_inactive (ac : gset Z) (bu um ct : text) (g : Z) (mtxt : text)
    (es : list entity) (h : hstate) :
  ct <> u "private" ->
  dict_at (hs_ms h) (cm_threads (ms_cm (hs_ms h))) !! g = None ->
  process_message ac bu true false um ct g mtxt es h =
  (if existsb (names_bot bu mtxt) es then Exn dict_call_error else Ret (),
   mkH (hs_ms h) (hs_log h) (hs_env h) (<[g := um]> (hs_chat h))).
Proof. intros Hc Hn. rewrite process_message_group by exact Hc. by apply group_mentions_inactive. Qed.

(** [process_message] on a group chat whose group has a thread: it
    returns normally, sends no reply, and runs one [handle_turn] with the
    user-tagged message per entity that mentions the bot, and nothing
    else. *)
Theorem process_message_group_active (ac : gset Z) (bu um ct : text) (g : Z) (mtxt : text)
    (es : list entity) (h : hstate) :
  ct <> u "private" ->
  is_Some (dict_at (hs_ms h) (cm_threads (ms_cm (hs_ms h))) !! g) ->
  let r := process_message ac bu true false um ct g mtxt es h in
  r.1 = Ret () /\ hs_env r.2 = hs_env h /\
  exists calls, hs_log r.2 = calls ++ hs_log h /\
    length calls = length (filter (names_bot bu mtxt) es) /\
    Forall (fun a => exists c, a = ATurn g (user_context um ++ mtxt) c) calls.
Proof.
  intros Hc Hs. cbv zeta. rewrite process_message_group by exact Hc.
  exact (group_mentions_active g _ mtxt bu es
           (mkH (hs_ms h) (hs_log h) (hs_env h) (<[g := um]> (hs_chat h))) Hs).
Qed.

Lemma process_message_private (ac : gset Z) (bu um : text) (g : Z) (mtxt : text)
    (es : list entity) (h : hstate) :
  g ∉ ac ->
  process_message ac bu true false um (u "private") g mtxt es h =
  (Ret (), mkH (handle_turn g (user_context um ++ mtxt) (hs_ms h)).2
               (ATurn g (user_context um ++ mtxt) (handle_turn g (user_context um ++ mtxt) (hs_ms h)).1
                  :: hs_log h) (hs_env h) (<[g := um]> (hs_chat h))).
Proof.
  intros Hg. unfold process_message. cbn [negb]. unfold mbind, HM_bind at 1, save_user_name.
  cbv beta iota. rewrite bool_decide_true by reflexivity.
  unfold mbind, HM_bind. rewrite lift_is_active.
  rewrite (bool_decide_false (g ∈ ac)) by exact Hg. rewrite andb_false_r.
  unfold mret, HM_ret, run_turn. destruct (handle_turn _ _ _). reflexivity.
Qed.

(** [process_message] on a private chat (the [active_conversation] dict
    never holds the chat), for a first name [um] that is non-empty and has
    no ']' and a text [mtxt] that has no '[': it returns normally, sends no
    reply, saves [um] as the chat's [chat_data['user_info']['name']], and
    runs one [handle_turn] on the message tagged with [um]. That turn saves
    [um] as the chat's user name in the manager and, when it calls
    [stream_response], passes the original text [mtxt] (less its leading
    whitespace) and [um]. *)
Theorem process_message_private_turn (ac : gset Z) (bu um : text) (g : Z) (mtxt : text)
    (es : list entity) (h : hstate) :
  g ∉ ac -> um <> [] -> ch "]" ∉ um -> ch "[" ∉ mtxt ->
  let r := process_message ac bu true false um (u "private") g mtxt es h in
  r.1 = Ret () /\ hs_env r.2 = hs_env h /\ (get_user_name g (hs_ms r.2)).1 = um /\
  hs_chat r.2 !! g = Some um /\
  exists c, hs_log r.2 = ATurn g (user_context um ++ mtxt) c :: hs_log h /\
    (forall l t m' n', c = Some (l, t, m', n') -> m' = drop (span is_space mtxt) mtxt /\ n' = um).
Proof.
  intros Hg Hne Hn Hm. cbv zeta. rewrite process_message_private by exact Hg. cbn [fst snd hs_ms hs_env hs_log].
  destruct (handle_turn_user_context g um mtxt (hs_ms h) Hne Hn Hm) as [U C].
  split_and!; [reflexivity|reflexivity|exact U|apply lookup_insert_eq|].
  eexists. split; [reflexivity|exact C].
Qed.

Lemma end_conversation_after (g : Z) (s : mstate) :
  let s' := (end_conversation g s).2 in
  ms_cm s' = ms_cm s /\ ms_creates s' = ms_creates s /\ ms_provider s' = ms_provider s /\
  dict_at s' (cm_threads (ms_cm s)) !! g = None.
Proof.
  cbv zeta. rewrite end_conversation_eq. case_bool_decide as Hs; cbn [snd].
  - set (s1 := (dict_update (cm_threads (ms_cm s)) (delete g) s).2).
    destruct (del_from_bots_spec (cm_bots (ms_cm s)) g s1) as (D1 & D2 & D3 & D4 & _).
    split_and!; [exact D1|exact D2|exact D3|]. apply D4.
    unfold s1. rewrite dict_at_update, decide_True by done. apply lookup_delete_eq.
  - split_and!; try reflexivity. destruct (dict_at s _ !! g) eqn:E; [|reflexivity].
    exfalso. apply Hs. eauto.
Qed.

Lemma end_command_log (bn un : text) (g : Z) (h : hstate) :
  hs_log (end_command bn un g h).2 =
  ASend g (if bool_decide (is_Some (dict_at (hs_ms h) (cm_threads (ms_cm (hs_ms h))) !! g))
           then ended_msg bn un else no_conversation_msg un) :: hs_log h /\
  hs_ms (end_command bn un g h).2 = (end_conversation g (hs_ms h)).2.
Proof.
  unfold end_command, mbind, HM_bind, lift.
  rewrite (end_conversation_eq g (hs_ms h)).
  unfold tg_send. case_bool_decide; destruct (hs_env h) as [|[] ?]; split; reflexivity.
Qed.

(** [/end] twice in a row: the first reply says the conversation was ended
    exactly when the group had one; the second always says there is none. *)
Theorem end_command_twice (bn un : text) (g : Z) (h : hstate) :
  let h1 := (end_command bn un g h).2 in
  let h2 := (end_command bn un g h1).2 in
  hs_log h1 = ASend g (if bool_decide (is_Some (dict_at (hs_ms h) (cm_threads (ms_cm (hs_ms h))) !! g))
                       then ended_msg bn un else no_conversation_msg un) :: hs_log h /\
  hs_log h2 = ASend g (no_conversation_msg un) :: hs_log h1.
Proof.
  cbv zeta. destruct (end_command_log bn un g h) as [L1 M1].
  split; [exact L1|].
  destruct (end_command_log bn un g (end_command bn un g h).2) as [L2 _]. rewrite L2.
  destruct (end_conversation_after g (hs_ms h)) as (A1 & _ & _ & A4).
  rewrite M1, A1, A4. rewrite bool_decide_false by (intros [? ?]; discriminate). reflexivity.
Qed.
End HandlersExtra.

Module TurnNoBots.
Import Manager ManagerFacts ManagerClaims ConcurrentFacts Ops Handlers TurnEq ThreadIdFacts TurnCall TurnThread UserTagFacts TurnUserTag TurnKeys GroupFacts HandlersExtra.

(** [handle_turn] with no registered bot: it stops before the call to
    [stream_response], creates no thread and writes no thread dict. *)
Theorem handle_turn_no_bots (g : Z) (m : text) (s : mstate) :
  cm_bots (ms_cm s) = [] ->
  (handle_turn g m s).1 = None /\ ms_creates (handle_turn g m s).2 = ms_creates s /\
  dict_at (handle_turn g m s).2 = dict_at s.
Proof.
  intros Hb. rewrite handle_turn_eq. cbv zeta.
  destruct (match re_search re_user_name m with
            | Some cs => (re_sub re_user_tag [] m, (save_user_info g (group cs 1) s).2)
            | None => (m, s) end) as [m1 s1] eqn:Ep. cbn [fst snd].
  destruct (handle_turn_pre_fields g m s m1 s1 Ep) as (P1 & P2 & P3 & P4 & P5 & P6).
  set (hint := dict_at s1 (cm_threads (ms_cm s1)) !! g).
  pose proof (set_thread_id_fields g hint s1) as (F1 & F2 & F3 & F4). cbv zeta in F1, F2, F3, F4.
  assert (Hset : ms_creates (set_thread_id g hint s1).2 = ms_creates s /\
                 dict_at (set_thread_id g hint s1).2 = dict_at s).
  { destruct (truthy_str hint) as [e|] eqn:He.
    - destruct (set_thread_id_existing s1 g hint e He) as (_ & E2 & E3 & _). split; congruence.
    - destruct (set_thread_id_unbound g hint s1 He He) as (U1 & _). 
      destruct U1 as (_ & U2 & U3); [congruence|]. split; congruence. }
  destruct Hset as [C D].
  destruct (set_thread_id g hint s1) as [r s2]. cbn [fst snd] in *.
  destruct (truthy_str r) as [t|]; cbn [fst snd]; [|done].
  rewrite F2, P3, Hb. cbn [fst snd]. done.
Qed.
End TurnNoBots.

Module StreamFacts.

Lemma strip_heads (s : text) :
  span is_space (strip s) = 0%nat /\ span is_space (rev (strip s)) = 0%nat.
Proof.
  unfold strip. set (t := drop (span is_space s) s).
  set (k := span is_space (rev t)).
  pose proof (span_drop_head is_space s) as Ht. fold t in Ht.
  pose proof (span_drop_head is_space (rev t)) as Hr. fold k in Hr.
  rewrite rev_involutive. split.
  - destruct (drop k (rev t)) as [|c y] eqn:E; [reflexivity|].
    assert (Hy : t = rev (c :: y) ++ rev (take k (rev t))).
    { rewrite <- rev_app_distr, <- E, take_drop. by rewrite rev_involutive. }
    destruct (rev (c :: y)) as [|d z] eqn:Ez.
    { apply (f_equal length) in Ez. rewrite length_rev in Ez. discriminate. }
    rewrite Hy in Ht. simpl in Ht. simpl. by rewrite Ht.
  - destruct (drop k (rev t)) as [|c y]; [reflexivity|]. simpl. by rewrite Hr.
Qed.

Lemma strip_idem (s : text) : strip (strip s) = strip s.
Proof.
  destruct (strip_heads s) as [H1 H2].
  unfold strip at 1. rewrite H1, drop_0, H2, drop_0. apply rev_involutive.
Qed.

Lemma ok_refl (msg : text) (w : world) : delivered_ok msg w w.
Proof.
  exists [], []. split_and!; [done|by rewrite app_nil_r| |].
  - intros t H. by apply elem_of_nil in H.
  - intros r c H. by apply elem_of_nil in H.
Qed.

Lemma ok_trans (msg : text) (w1 w2 w3 : world) :
  delivered_ok msg w1 w2 -> delivered_ok msg w2 w3 -> delivered_ok msg w1 w3.
Proof.
  intros (e1 & h1 & T1 & H1 & S1 & A1) (e2 & h2 & T2 & H2 & S2 & A2).
  exists (e2 ++ e1), (h1 ++ h2). split_and!.
  - by rewrite T2, T1, app_assoc.
  - by rewrite H2, H1, app_assoc.
  - intros t Ht. apply elem_of_app in Ht as [Ht|Ht]; auto.
  - intros r c Hc. apply elem_of_app in Hc as [Hc|Hc].
    + destruct (A1 r c Hc) as [?|[? ?]]; [by left|right; split; [done|]].
      apply elem_of_app. by right.
    + destruct (A2 r c Hc) as [?|[? ?]]; [by left|right; split; [done|]].
      apply elem_of_app. by left.
Qed.

Lemma ok_frame (msg : text) (w w' : world) :
  w_trace w' = w_trace w -> h_history (w_h w') = h_history (w_h w) -> delivered_ok msg w w'.
Proof.
  intros T H. exists [], []. split_and!; [done|by rewrite app_nil_r| |].
  - intros t Ht. by apply elem_of_nil in Ht.
  - intros r c Hc. by apply elem_of_nil in Hc.
Qed.

Lemma ret_ok {A} (msg : text) (a : A) : turn_ok msg (mret a).
Proof. intros w. apply ok_refl. Qed.

Lemma raise_ok {A} (msg e : text) : turn_ok msg (raise (A := A) e).
Proof. intros w. apply ok_refl. Qed.

Lemma bind_ok {A B} (msg : text) (m : M A) (k : A -> M B) :
  turn_ok msg m -> (forall a, turn_ok msg (k a)) -> turn_ok msg (m ≫= k).
Proof.
  intros Hm Hk w. unfold mbind, M_bind.
  pose proof (Hm w) as H1. destruct (m w) as [[a|e|] w1]; cbn [snd] in *; auto.
  eapply ok_trans; [exact H1|apply Hk].
Qed.

Lemma try_except_ok {A} (msg : text) (m : M A) (h : text -> M A) :
  turn_ok msg m -> (forall e, turn_ok msg (h e)) -> turn_ok msg (try_except m h).
Proof.
  intros Hm Hh w. unfold try_except.
  pose proof (Hm w) as H1. destruct (m w) as [[a|e|] w1]; cbn [snd] in *; auto.
  eapply ok_trans; [exact H1|apply Hh].
Qed.

Lemma try_finally_ok {A} (msg : text) (m : M A) (fin : M unit) :
  turn_ok msg m -> turn_ok msg fin -> turn_ok msg (try_finally m fin).
Proof.
  intros Hm Hf w. unfold try_finally.
  pose proof (Hm w) as H1. destruct (m w) as [r w1].
  destruct r as [a|e|]; cbn [snd] in *; auto.
  all: pose proof (Hf w1) as H2; destruct (fin w1) as [[x|x|] w2]; cbn [snd] in *; eapply ok_trans; eauto.
Qed.

Lemma get_h_ok (msg : text) : turn_ok msg get_h.
Proof. intros w. apply ok_refl. Qed.

Lemma set_in_progress_ok (msg t : text) (b : bool) : turn_ok msg (set_in_progress t b).
Proof. intros w. by apply ok_frame. Qed.

Lemma provider_ok (msg : text) (name : string) : turn_ok msg (provider name).
Proof.
  intros w. unfold provider, call, emit, next_reply, mbind, M_bind.
  exists [EProvider (u name)], []. cbn [snd].
  assert (E : forall w', w_trace w' = EProvider (u name) :: w_trace w -> h_history (w_h w') = h_history (w_h w) ->
    w_trace w' = [EProvider (u name)] ++ w_trace w /\ h_history (w_h w') = h_history (w_h w) ++ [] /\
    (forall t, ESend t ∈ [EProvider (u name)] -> t <> [] /\ strip t = t) /\
    (forall r c, (r, c) ∈ ([] : list (text * text)) ->
       (r = u "user" /\ c = msg) \/ (r = u "assistant" /\ ESend c ∈ [EProvider (u name)]))).
  { intros w' T H. split_and!; [exact T|by rewrite H, app_nil_r| |].
    - intros t Ht. apply list_elem_of_singleton in Ht. discriminate.
    - intros r c Hc. by apply elem_of_nil in Hc. }
  cbn [w_env w_trace w_h]. destruct (w_env w) as [|r rs]; cbn [snd].
  - apply E; reflexivity.
  - destruct r; cbn [snd]; apply E; reflexivity.
Qed.

Lemma user_append_ok (msg : text) : turn_ok msg (append_history (u "user") msg).
Proof.
  intros w. exists [], [(u "user", msg)]. cbn. split_and!; [done|done| |].
  - intros t Ht. by apply elem_of_nil in Ht.
  - intros r c Hc. apply list_elem_of_singleton in Hc. injection Hc as -> ->. by left.
Qed.

Lemma send_ok (msg t : text) : t <> [] -> strip t = t -> turn_ok msg (send t).
Proof.
  intros Hne Hs w. destruct (send_effect t w) as (H1 & H2 & _).
  exists [ESend t], []. split_and!; [exact H2|by rewrite H1, app_nil_r| |].
  - intros t' Ht. apply list_elem_of_singleton in Ht. injection Ht as ->. done.
  - intros r c Hc. by apply elem_of_nil in Hc.
Qed.

Lemma send_append_ok (msg t : text) :
  t <> [] -> strip t = t -> turn_ok msg (send t;; append_history (u "assistant") t).
Proof.
  intros Hne Hs w. unfold mbind, M_bind.
  destruct (send_effect t w) as (H1 & H2 & H3).
  destruct (send t w) as [r w1]. cbn [fst snd] in *.
  destruct H3 as [->|[e ->]]; cbn [snd].
  - exists [ESend t], [(u "assistant", t)]. unfold append_history, mbind, M_bind, get_h, put_h.
    cbn [snd w_trace w_h h_history]. rewrite H2, H1. split_and!; [done|done| |].
    + intros t' Ht. apply list_elem_of_singleton in Ht. injection Ht as ->. done.
    + intros r c Hc. apply list_elem_of_singleton in Hc. injection Hc as -> ->. right.
      split; [done|]. apply list_elem_of_singleton. done.
  - exists [ESend t], []. split_and!; [exact H2|by rewrite H1, app_nil_r| |].
    + intros t' Ht. apply list_elem_of_singleton in Ht. injection Ht as ->. done.
    + intros r c Hc. by apply elem_of_nil in Hc.
Qed.

Lemma stream_deltas_ok (msg : text) (ds : list text) :
  forall buffer acc, turn_ok msg (stream_deltas ds buffer acc).
Proof.
  induction ds as [|d ds IH]; intros buffer acc; cbn [stream_deltas]; [apply ret_ok|].
  destruct (split_once nn (buffer ++ d) (S (length (buffer ++ d)))) as [[p0 p1]|]; [|apply IH].
  apply bind_ok; [|intros _; apply IH].
  destruct (strip (acc ++ p0)) as [|c t] eqn:E; [apply ret_ok|].
  apply send_append_ok; [done|]. rewrite <- E. apply strip_idem.
Qed.

Lemma busy_msg_stripped : busy_msg <> [] /\ strip busy_msg = busy_msg.
Proof. split; [discriminate|]. vm_compute. reflexivity. Qed.

Lemma stream_response_ok (g : Z) (msg : text) : turn_ok msg (stream_response g msg).
Proof.
  unfold stream_response. apply bind_ok; [apply get_h_ok|intros h].
  destruct (truthy_str (h_threads h !! g)) as [t|]; [|apply ret_ok].
  destruct (flag_set h t).
  { apply send_ok; apply busy_msg_stripped. }
  apply try_finally_ok; [|apply set_in_progress_ok].
  apply bind_ok; [apply set_in_progress_ok|intros _].
  apply bind_ok.
  { apply try_except_ok.
    - apply bind_ok; [apply provider_ok|intros _].
      apply bind_ok; [apply user_append_ok|intros _]. apply ret_ok.
    - intros e. apply bind_ok; [apply set_in_progress_ok|intros _]. apply ret_ok. }
  intros sent. destruct sent; [|apply ret_ok].
  apply try_except_ok; [|intros e; apply ret_ok].
  apply bind_ok; [apply provider_ok|intros r].
  destruct r as [|m|v|ri st|ds raises|dt]; try apply raise_ok.
  apply bind_ok; [apply stream_deltas_ok|intros [buffer x]].
  destruct raises; [apply raise_ok|].
  destruct (strip buffer) as [|c t'] eqn:E; [apply ret_ok|].
  apply send_append_ok; [done|]. rewrite <- E. apply strip_idem.
Qed.

(** A text turn [stream_response(g, message_str)] only appends: to the
    trace of effects and to the message history. Every message it sends is
    non-empty and has no leading or trailing whitespace, and every entry it
    adds to the history is either the user's [message_str] or an assistant
    paragraph that it sent in this turn. *)
Theorem stream_response_delivered (g : Z) (message_str : text) (w : world) :
  delivered_ok message_str w (stream_response g message_str w).2.
Proof. apply stream_response_ok. Qed.
End StreamFacts.

Module EndThenTurn.
Import Manager Ops Handlers ManagerFacts ManagerClaims ConcurrentFacts TurnCall TurnThread HandlersExtra.

(** After [end_conversation(g)], the next [handle_turn] on [g] starts a
    new thread: with a first bot [nm] registered and a provider that
    creates the non-empty id [h], the turn calls the bot with [h] and one
    thread is created. *)
Theorem end_conversation_then_turn (g : Z) (m : text) (s : mstate) (nm : text) (l : loc) bs (h : text) :
  cm_bots (ms_cm s) = (nm, l) :: bs -> nm <> [] ->
  ms_provider s (ms_creates s) = Some h -> h <> [] ->
  let s1 := (end_conversation g s).2 in
  (exists m' n', (handle_turn g m s1).1 = Some (l, h, m', n')) /\
  ms_creates (handle_turn g m s1).2 = S (ms_creates s).
Proof.
  intros Hb Hnm Hp Hh. cbv zeta.
  destruct (end_conversation_after g s) as (A1 & A2 & A3 & A4). cbv zeta in A1, A2, A3, A4.
  destruct (handle_turn_thread_cases g m (end_conversation g s).2 nm l bs) as (_ & T2 & _).
  { by rewrite A1. } { exact Hnm. }
  rewrite <- A2. apply T2; [|by rewrite A3, A2|exact Hh].
  by rewrite A1, A4.
Qed.
End EndThenTurn.

Module ExtraWitnesses.
Import Manager Ops Handlers ThreadIdFacts TurnCall TurnThread TurnUserTag HandlersExtra TurnNoBots
  EndThenTurn.

Lemma set_thread_id_result_witness :
  (set_thread_id 5 None (Concurrent.one_bot_state Concurrent.steady_provider)).1 = Some (u "thread_1") /\
  dict_at (set_thread_id 5 None (Concurrent.one_bot_state Concurrent.steady_provider)).2 1%positive !! 5%Z
    = Some (u "thread_1").
Proof.
  assert (H : (set_thread_id 5 None (Concurrent.one_bot_state Concurrent.steady_provider)).1
              = Some (u "thread_1")) by (vm_compute; reflexivity).
  split; [exact H|].
  exact (proj2 (set_thread_id_result 5 None (Concurrent.one_bot_state Concurrent.steady_provider) _ H)).
Defined.

Lemma handle_turn_call_synced_witness :
  (handle_turn 5 (u "hola") (group5_state (u "thread_1"))).1
    = Some (1%positive, u "thread_1", u "hola", []) /\
  dict_at (handle_turn 5 (u "hola") (group5_state (u "thread_1"))).2 1%positive !! 5%Z
    = Some (u "thread_1").
Proof.
  assert (H : (handle_turn 5 (u "hola") (group5_state (u "thread_1"))).1
              = Some (1%positive, u "thread_1", u "hola", [])) by (vm_compute; reflexivity).
  split; [exact H|].
  exact (proj1 (proj2 (handle_turn_call_synced 5 (u "hola") (group5_state (u "thread_1")) _ _ _ _ H))).
Defined.

Lemma handle_turn_thread_witness :
  cm_bots (ms_cm (Concurrent.one_bot_state Concurrent.steady_provider)) = [(u "Regen", 1%positive)] /\
  exists m' n', (handle_turn 5 (u "hola") (Concurrent.one_bot_state Concurrent.steady_provider)).1
                  = Some (1%positive, u "thread_1", m', n').
Proof.
  assert (Hb : cm_bots (ms_cm (Concurrent.one_bot_state Concurrent.steady_provider))
               = [(u "Regen", 1%positive)]) by reflexivity.
  assert (Hnm : u "Regen" <> []) by (vm_compute; intros E; discriminate E).
  assert (Hn : truthy_str (dict_at (Concurrent.one_bot_state Concurrent.steady_provider)
     (cm_threads (ms_cm (Concurrent.one_bot_state Concurrent.steady_provider))) !! 5%Z) = None)
    by (vm_compute; reflexivity).
  assert (Hp : ms_provider (Concurrent.one_bot_state Concurrent.steady_provider)
     (ms_creates (Concurrent.one_bot_state Concurrent.steady_provider)) = Some (u "thread_1"))
    by reflexivity.
  assert (Ht : u "thread_1" <> []) by (vm_compute; intros E; discriminate E).
  split; [exact Hb|].
  exact (proj1 (proj1 (proj2 (handle_turn_thread 5 (u "hola")
    (Concurrent.one_bot_state Concurrent.steady_provider) (u "Regen") 1%positive [] Hb Hnm))
    (u "thread_1") Hn Hp Ht)).
Defined.

Lemma handle_turn_user_tag_witness :
  (ch "]" ∉ u "Ana") /\ (ch "[" ∉ u "hola") /\
  (get_user_name 5 (handle_turn 5 (user_context (u "Ana") ++ u "hola")
     (Concurrent.one_bot_state Concurrent.steady_provider)).2).1 = u "Ana".
Proof.
  assert (Hne : u "Ana" <> []) by (vm_compute; intros E; discriminate E).
  assert (Hn : ch "]" ∉ u "Ana") by (apply (bool_decide_unpack (ch "]" ∉ u "Ana")); vm_compute; reflexivity).
  assert (Hm : ch "[" ∉ u "hola") by (apply (bool_decide_unpack (ch "[" ∉ u "hola")); vm_compute; reflexivity).
  split; [exact Hn|split; [exact Hm|]].
  exact (proj1 (handle_turn_user_tag 5 (u "Ana") (u "hola")
    (Concurrent.one_bot_state Concurrent.steady_provider) Hne Hn Hm)).
Defined.

Lemma process_message_group_inactive_witness :
  (process_message ∅ (u "regen_bot") true false (u "Ana") (u "group") 5 mention_text
     mention_entities (mkH (Concurrent.one_bot_state Concurrent.steady_provider) [] [true] ∅)).1
  = Exn dict_call_error.
Proof.
  assert (Hc : u "group" <> u "private") by (vm_compute; intros E; discriminate E).
  assert (Hn : dict_at (hs_ms (mkH (Concurrent.one_bot_state Concurrent.steady_provider) [] [true] ∅))
     (cm_threads (ms_cm (hs_ms (mkH (Concurrent.one_bot_state Concurrent.steady_provider) [] [true] ∅))))
     !! 5%Z = None) by (vm_compute; reflexivity).
  rewrite (process_message_group_inactive ∅ (u "regen_bot") (u "Ana") (u "group") 5 mention_text
    mention_entities _ Hc Hn).
  vm_compute. reflexivity.
Defined.

Lemma process_message_group_active_witness :
  (process_message ∅ (u "regen_bot") true false (u "Ana") (u "group") 5 mention_text
     mention_entities (mkH (group5_state (u "thread_1")) [] [true] ∅)).1 = Ret ().
Proof.
  assert (Hc : u "group" <> u "private") by (vm_compute; intros E; discriminate E).
  assert (Hs : is_Some (dict_at (hs_ms (mkH (group5_state (u "thread_1")) [] [true] ∅))
     (cm_threads (ms_cm (hs_ms (mkH (group5_state (u "thread_1")) [] [true] ∅)))) !! 5%Z))
    by (exists (u "thread_1"); vm_compute; reflexivity).
  exact (proj1 (process_message_group_active ∅ (u "regen_bot") (u "Ana") (u "group") 5 mention_text
    mention_entities _ Hc Hs)).
Defined.

Lemma process_message_private_turn_witness :
  (get_user_name 5 (hs_ms (process_message ∅ (u "regen_bot") true false (u "Ana") (u "private") 5
     (u "hola") [] (mkH (Concurrent.one_bot_state Concurrent.steady_provider) [] [true] ∅)).2)).1
  = u "Ana".
Proof.
  assert (Hg : (5%Z : Z) ∉ (∅ : gset Z)) by apply not_elem_of_empty.
  assert (Hne : u "Ana" <> []) by (vm_compute; intros E; discriminate E).
  assert (Hn : ch "]" ∉ u "Ana") by (apply (bool_decide_unpack (ch "]" ∉ u "Ana")); vm_compute; reflexivity).
  assert (Hm : ch "[" ∉ u "hola") by (apply (bool_decide_unpack (ch "[" ∉ u "hola")); vm_compute; reflexivity).
  exact (proj1 (proj2 (proj2 (process_message_private_turn ∅ (u "regen_bot") (u "Ana") 5 (u "hola") []
    (mkH (Concurrent.one_bot_state Concurrent.steady_provider) [] [true] ∅) Hg Hne Hn Hm)))).
Defined.

Lemma handle_turn_no_bots_witness :
  cm_bots (ms_cm no_bot_state) = [] /\ (handle_turn 5 (u "hola") no_bot_state).1 = None.
Proof.
  assert (Hb : cm_bots (ms_cm no_bot_state) = []) by reflexivity.
  split; [exact Hb|]. exact (proj1 (handle_turn_no_bots 5 (u "hola") no_bot_state Hb)).
Defined.

Lemma end_conversation_then_turn_witness :
  dict_at (group5_state (u "thread_1")) 1%positive !! 5%Z = Some (u "thread_1") /\
  ms_creates (handle_turn 5 (u "hola") (end_conversation 5 (group5_state (u "thread_1"))).2).2
    = 1%nat.
Proof.
  assert (Hb : cm_bots (ms_cm (group5_state (u "thread_1"))) = [(u "Regen", 1%positive)]) by reflexivity.
  assert (Hnm : u "Regen" <> []) by (vm_compute; intros E; discriminate E).
  assert (Hp : ms_provider (group5_state (u "thread_1")) (ms_creates (group5_state (u "thread_1")))
     = Some (u "thread_1")) by reflexivity.
  assert (Ht : u "thread_1" <> []) by (vm_compute; intros E; discriminate E).
  split; [vm_compute; reflexivity|].
  exact (proj2 (end_conversation_then_turn 5 (u "hola") (group5_state (u "thread_1")) (u "Regen")
    1%positive [] (u "thread_1") Hb Hnm Hp Ht)).
Defined.

End ExtraWitnesses.
